(** * C-Mail intelligence layer: classifier, rules engine, cleanup service

    A shallow embedding of
      - [electron/services/database.ts]   (class [DatabaseService]),
      - [electron/services/classifier.ts] (class [EmailClassifier]),
      - [electron/services/rules-engine.ts] (class [RulesEngine]),
      - [electron/services/cleanup.ts]    (class [CleanupService]),
      - [electron/services/providers/provider-manager.ts]
        (class [EmailProviderManager]) and [classifyNewEmails] of
        [electron/main.ts],
    followed by the properties of the specification that these definitions
    decide.

    Conventions.  SQL tables are lists of rows in rowid order.  A JavaScript
    value that may be [null] or [undefined] is an [option]; [a || d] on such
    a value is [orElse].  Strings are byte strings and the case conversions
    are the ASCII ones.  A JavaScript number is a binary64 value, held as
    the rational it denotes ([Q]); the arithmetic of the language rounds
    each result to the nearest such value ([Double]).  Where the code only
    counts or stores sizes, the numbers are integers ([Z], [nat]).  What the
    host provides and the repository does not
    implement (the RegExp engine, [Number] on strings, [Date] parsing, the
    remote mailboxes, the desktop shell) is collected in the record [Host]. *)

From Stdlib Require Import List String Ascii Bool ZArith QArith Qminmax Lia.
From Stdlib Require Import Sorting.Sorted Sorting.Permutation.
From Stdlib Require Import DecimalString Qround Qpower Lqa.
Import ListNotations.

Set Implicit Arguments.

#[local] Open Scope string_scope.
#[local] Open Scope list_scope.

(* ================================================================== *)
(** ** The JavaScript built-ins the services use *)

Module JS.

(** [a || d] for a nullable string: [null], [undefined] and the empty
    string are falsy. *)
Definition orElse (a : option string) (d : string) : string :=
  match a with
  | Some s => if (s =? "") then d else s
  | None => d
  end.

(** Truthiness of a nullable string, as tested by [if (x)]. *)
Definition truthy (a : option string) : bool :=
  match a with
  | Some s => negb (s =? "")
  | None => false
  end.

Definition lowerChar (c : ascii) : ascii :=
  let n := nat_of_ascii c in
  if (65 <=? n)%nat && (n <=? 90)%nat then ascii_of_nat (n + 32) else c.

Fixpoint toLowerCase (s : string) : string :=
  match s with
  | EmptyString => EmptyString
  | String c s' => String (lowerChar c) (toLowerCase s')
  end.

Fixpoint startsWith (s p : string) : bool :=
  match p, s with
  | EmptyString, _ => true
  | String _ _, EmptyString => false
  | String b p', String a s' => Ascii.eqb a b && startsWith s' p'
  end.

Fixpoint includes (s p : string) : bool :=
  startsWith s p ||
  match s with
  | EmptyString => false
  | String _ s' => includes s' p
  end.

Fixpoint rev_string (acc s : string) : string :=
  match s with
  | EmptyString => acc
  | String c s' => rev_string (String c acc) s'
  end.

Definition endsWith (s p : string) : bool :=
  startsWith (rev_string "" s) (rev_string "" p).

Definition isSpace (c : ascii) : bool :=
  let n := nat_of_ascii c in
  ((9 <=? n)%nat && (n <=? 13)%nat) || (n =? 32)%nat.

Fixpoint trimStart (s : string) : string :=
  match s with
  | EmptyString => EmptyString
  | String c s' => if isSpace c then trimStart s' else s
  end.

Definition trim (s : string) : string :=
  rev_string "" (trimStart (rev_string "" (trimStart s))).

(** [s.substring(0, n)] *)
Definition substring0 (n : nat) (s : string) : string :=
  String.substring 0 n s.

(** [parts.join(sep)] *)
Definition join (sep : string) (parts : list string) : string :=
  String.concat sep parts.

(** A field value as [matchesCondition] holds it:
    [string | number | boolean]. *)
Inductive value :=
| VStr (s : string)
| VNum (n : Z)
| VBool (b : bool).

(** [String(v)] *)
Definition toString (v : value) : string :=
  match v with
  | VStr s => s
  | VNum n => NilZero.string_of_int (Z.to_int n)
  | VBool true => "true"
  | VBool false => "false"
  end.

(** [Number(v)]; [None] is NaN.  The conversion of a string is the
    host's. *)
Definition toNumber (parseNumber : string -> option Q) (v : value)
  : option Q :=
  match v with
  | VStr s => parseNumber s
  | VNum n => Some (inject_Z n)
  | VBool true => Some 1%Q
  | VBool false => Some 0%Q
  end.

Definition Qltb (x y : Q) : bool := negb (Qle_bool y x).

(** [a > b] and [a < b] on numbers: false as soon as one side is NaN. *)
Definition numGt (a b : option Q) : bool :=
  match a, b with
  | Some x, Some y => Qltb y x
  | _, _ => false
  end.

Definition numLt (a b : option Q) : bool := numGt b a.

(** [Array.prototype.sort(cmp)], a stable sort: the comparator's result is
    read by its sign, and NaN counts as zero.  [before a b] holds when
    [cmp(a, b) <= 0], that is when [a] may stay in front of [b]. *)
Section Sort.
Variable A : Type.
Variable before : A -> A -> bool.

Fixpoint insert (x : A) (l : list A) : list A :=
  match l with
  | [] => [x]
  | y :: l' => if before x y then x :: l else y :: insert x l'
  end.

Definition sort (l : list A) : list A := fold_right insert [] l.
End Sort.

(** A [Map<string, V>]: iteration follows the order in which the keys were
    first inserted; [set] on a present key keeps its place. *)
Section MapOps.
Variable V : Type.

Definition Map := list (string * V).

Fixpoint get (k : string) (m : Map) : option V :=
  match m with
  | [] => None
  | (k', v) :: m' => if (k =? k') then Some v else get k m'
  end.

Definition has (k : string) (m : Map) : bool :=
  match get k m with Some _ => true | None => false end.

Fixpoint set (k : string) (v : V) (m : Map) : Map :=
  match m with
  | [] => [(k, v)]
  | (k', v') :: m' =>
      if (k =? k') then (k, v) :: m' else (k', v') :: set k v m'
  end.
End MapOps.

(** [s.split(sep)] for a separator of one character. *)
Fixpoint split (sep : ascii) (s : string) : list string :=
  match s with
  | EmptyString => [EmptyString]
  | String c s' =>
      if Ascii.eqb c sep then EmptyString :: split sep s'
      else match split sep s' with
           | first :: rest => String c first :: rest
           | [] => [String c EmptyString]
           end
  end.

(** The decimal rendering of a count, as a template literal gives it. *)
Definition ofNat (n : nat) : string :=
  NilZero.string_of_uint (Nat.to_uint n).

(** A [Map] whose keys are compared by [eqb] (keys that may be [null]);
    same iteration order as [Map] above. *)
Section KeyedMap.
Variable K V : Type.
Variable eqb : K -> K -> bool.

Fixpoint getK (k : K) (m : list (K * V)) : option V :=
  match m with
  | [] => None
  | (k', v) :: m' => if eqb k k' then Some v else getK k m'
  end.

Fixpoint setK (k : K) (v : V) (m : list (K * V)) : list (K * V) :=
  match m with
  | [] => [(k, v)]
  | (k', v') :: m' =>
      if eqb k k' then (k, v) :: m' else (k', v') :: setK k v m'
  end.
End KeyedMap.

End JS.

(* ================================================================== *)
(** ** JavaScript numbers

    A finite number of the language is an IEEE 754 binary64 value: a sign,
    a significand of 53 bits and a power of two.  It is held here as the
    rational it denotes.  [round] takes the exact result of an operation to
    the nearest such value, and to the one with the even significand when
    two are equally near, which is how [+], [-], [*], [/] and the reading
    of a decimal literal are defined.  The exponent is not bounded: the
    numbers of the services (scores, shares, percentages) stay far inside
    the range in which binary64 has its 53 bits, and no division of the
    services has a zero divisor. *)

Module Double.

(** The [e] with [2^e <= x < 2^(e+1)], for a positive [x]. *)
Definition exponent (x : Q) : Z :=
  let e := (Z.log2 (Qnum x) - Z.log2 (Zpos (Qden x)))%Z in
  if Qle_bool (2 ^ e) x then e else (e - 1)%Z.

(** The integer nearest to [x]; the even one when two are equally near. *)
Definition nearestEven (x : Q) : Z :=
  let f := Qfloor x in
  match Qcompare (x - inject_Z f) (1 # 2) with
  | Lt => f
  | Gt => (f + 1)%Z
  | Eq => if Z.even f then f else (f + 1)%Z
  end.

(** The binary64 value nearest to a positive [x]: [x] is scaled to a
    significand between [2^52] and [2^53], which is rounded to an
    integer. *)
Definition roundPositive (x : Q) : Q :=
  let e := (exponent x - 52)%Z in
  Qred (inject_Z (nearestEven (x / 2 ^ e)) * 2 ^ e).

Definition round (x : Q) : Q :=
  match Qcompare x 0 with
  | Eq => 0
  | Gt => roundPositive x
  | Lt => - roundPositive (- x)
  end.

(** [x + y], [x - y], [x * y] and [x / y] *)
Definition add (x y : Q) : Q := round (x + y).
Definition sub (x y : Q) : Q := round (x - y).
Definition mul (x y : Q) : Q := round (x * y).
Definition div (x y : Q) : Q := round (x / y).

(** The value of a decimal literal of the source. *)
Definition lit (x : Q) : Q := round x.

(** [Math.round(x)]: the nearest integer, the larger one when two are
    equally near. *)
Definition mathRound (x : Q) : Z := Qfloor (x + (1 # 2)).

End Double.

Arguments Double.round x : simpl never.
Arguments Double.add x y : simpl never.
Arguments Double.sub x y : simpl never.
Arguments Double.mul x y : simpl never.
Arguments Double.div x y : simpl never.
Arguments Double.lit x : simpl never.

(* ================================================================== *)
(** ** Data model *)

(** An attachment descriptor, as the providers store it in the JSON column
    [attachments]. *)
Module Attachment.
Record t := {
  id : string;
  filename : string;
  mimeType : string;
  size : option Z;
}.
End Attachment.

(** [email.to] is an array of addresses for a stored message; the rules
    engine also accepts a plain (possibly absent) string. *)
Inductive Recipients :=
| ToArray (addresses : list string)
| ToText (text : option string).

(** A message as [DatabaseService.transformEmail] returns it. *)
Module Email.
Record t := {
  id : string;
  accountId : string;
  from : string;
  fromName : option string;
  to : Recipients;
  subject : option string;
  snippet : option string;
  body : option string;
  date : string;
  isRead : bool;
  labels : list string;
  category : option string;
  importance : Q;
  keywords : list string;
  attachments : list Attachment.t;
  size : option Z;
  unsubscribeLink : option string;
  hasUnsubscribe : bool;
}.

Definition setCategory (c : option string) (e : t) : t :=
  {| id := id e; accountId := accountId e; from := from e;
     fromName := fromName e; to := to e; subject := subject e;
     snippet := snippet e; body := body e; date := date e;
     isRead := isRead e; labels := labels e; category := c;
     importance := importance e; keywords := keywords e;
     attachments := attachments e; size := size e;
     unsubscribeLink := unsubscribeLink e;
     hasUnsubscribe := hasUnsubscribe e |}.

Definition setRead (r : bool) (e : t) : t :=
  {| id := id e; accountId := accountId e; from := from e;
     fromName := fromName e; to := to e; subject := subject e;
     snippet := snippet e; body := body e; date := date e;
     isRead := r; labels := labels e; category := category e;
     importance := importance e; keywords := keywords e;
     attachments := attachments e; size := size e;
     unsubscribeLink := unsubscribeLink e;
     hasUnsubscribe := hasUnsubscribe e |}.

Definition setMetadata (i : Q) (k : list string) (e : t) : t :=
  {| id := id e; accountId := accountId e; from := from e;
     fromName := fromName e; to := to e; subject := subject e;
     snippet := snippet e; body := body e; date := date e;
     isRead := isRead e; labels := labels e; category := category e;
     importance := i; keywords := k;
     attachments := attachments e; size := size e;
     unsubscribeLink := unsubscribeLink e;
     hasUnsubscribe := hasUnsubscribe e |}.
End Email.

(** [interface RuleCondition].  Field and operator are the strings found in
    the stored JSON: the switch statements of [matchesCondition] have a
    [default] arm for the strings outside the TypeScript union. *)
Module RuleCondition.
Record t := {
  field : string;
  operator : string;
  value : string;
}.
End RuleCondition.

(** [interface RuleAction] *)
Module RuleAction.
Record t := {
  type : string;
  value : option string;
}.
End RuleAction.

(** A row of table [rules]. *)
Module RuleRow.
Record t := {
  id : string;
  name : string;
  enabled : bool;
  conditions : list RuleCondition.t;
  actions : list RuleAction.t;
  provider : option string;
  priority : Z;
  hit_count : Z;
  last_hit : option string;
  created_at : string;
  updated_at : string;
}.

(** [rule.hitCount] on an object read from the table: the column is
    [hit_count], so the property is [undefined]. *)
Definition hitCount (_ : t) : option Z := None.
End RuleRow.

(** The object handed to [DatabaseService.saveRule]: the properties its
    callers set.  [provider] is declared [provider?: string]: [None] is a
    property that is not set ([undefined]), [Some None] is [null] (what a
    row read from the table carries when the column is empty) and
    [Some (Some p)] a string.  [hitCount] is [None] for [undefined] and for
    NaN. *)
Module Rule.
Record t := {
  id : string;
  name : string;
  enabled : bool;
  conditions : list RuleCondition.t;
  actions : list RuleAction.t;
  provider : option (option string);
  priority : Z;
  hitCount : option Z;
  lastHit : option string;
}.

(** [{ ...rule }] for a rule read from the table. *)
Definition ofRow (r : RuleRow.t) : t :=
  {| id := RuleRow.id r; name := RuleRow.name r;
     enabled := RuleRow.enabled r; conditions := RuleRow.conditions r;
     actions := RuleRow.actions r; provider := Some (RuleRow.provider r);
     priority := RuleRow.priority r; hitCount := RuleRow.hitCount r;
     lastHit := None |}.

(** [Partial<Rule>]: [None] is a key that the object does not have.  A
    [provider] that the object names is [null] or a string. *)
Record updates := {
  u_id : option string;
  u_name : option string;
  u_enabled : option bool;
  u_conditions : option (list RuleCondition.t);
  u_actions : option (list RuleAction.t);
  u_provider : option (option string);
  u_priority : option Z;
  u_hitCount : option (option Z);
  u_lastHit : option (option string);
}.

Definition pick (A : Type) (u : option A) (old : A) : A :=
  match u with Some v => v | None => old end.

(** [{ ...existing, ...updates }] *)
Definition spread (existing : t) (u : updates) : t :=
  {| id := pick (u_id u) (id existing);
     name := pick (u_name u) (name existing);
     enabled := pick (u_enabled u) (enabled existing);
     conditions := pick (u_conditions u) (conditions existing);
     actions := pick (u_actions u) (actions existing);
     provider := match u_provider u with
                 | Some p => Some p
                 | None => provider existing
                 end;
     priority := pick (u_priority u) (priority existing);
     hitCount := pick (u_hitCount u) (hitCount existing);
     lastHit := pick (u_lastHit u) (lastHit existing) |}.

Definition withHit (h : option Z) (l : option string) (r : t) : t :=
  {| id := id r; name := name r; enabled := enabled r;
     conditions := conditions r; actions := actions r;
     provider := provider r; priority := priority r;
     hitCount := h; lastHit := l |}.
End Rule.

(** A call that reaches a remote mailbox through a registered provider. *)
Inductive ProviderCall :=
| RemoteArchive (emailId : string)
| RemoteDelete (emailId : string)
| RemoteMove (emailId : string) (folder : option string).

(** What the host provides. *)
Record Host := {
  (** whether [new RegExp(source, 'i')] accepts the source *)
  regex_valid : string -> bool;
  (** [new RegExp(source, 'i').test(text)] for an accepted source *)
  regex_test : string -> string -> bool;
  (** [Number(text)]; [None] is NaN *)
  parseNumber : string -> option Q;
  (** [new Date(text).getTime()]; [None] is NaN *)
  getTime : string -> option Z;
  (** the [n]-th result of [nanoid()] *)
  nanoid : nat -> string;
  (** [providers.has(accountId)] in the provider manager *)
  hasProvider : string -> bool;
  (** whether the promise of a remote call resolves *)
  remoteResolves : ProviderCall -> bool;
  (** whether the promise of [shell.openExternal(url)] resolves *)
  openExternalResolves : string -> bool;
}.

(** The two computations of an earlier instant that the services use,
    each from the ISO rendering of the current instant:
    [new Date(Date.now() - ms).toISOString()] and
    [subDays(new Date(), days).toISOString()] of date-fns. *)
Record Calendar := {
  msAgoISO : string -> Z -> string;
  subDaysISO : string -> nat -> string;
}.

(** The mutable world: the two tables, the clock in its two renderings
    ([datetime('now')] and [new Date().toISOString()]), the number of ids
    drawn so far, and the effects issued outside the process. *)
Record World := {
  emails : list Email.t;
  rules : list RuleRow.t;
  sqlNow : string;
  isoNow : string;
  nonce : nat;
  remoteLog : list ProviderCall;
  opened : list string;
}.

Definition setEmails (es : list Email.t) (w : World) : World :=
  {| emails := es; rules := rules w; sqlNow := sqlNow w; isoNow := isoNow w;
     nonce := nonce w; remoteLog := remoteLog w; opened := opened w |}.

Definition setRules (rs : list RuleRow.t) (w : World) : World :=
  {| emails := emails w; rules := rs; sqlNow := sqlNow w; isoNow := isoNow w;
     nonce := nonce w; remoteLog := remoteLog w; opened := opened w |}.

(** Time passes between two calls. *)
Definition setClock (sql iso : string) (w : World) : World :=
  {| emails := emails w; rules := rules w; sqlNow := sql; isoNow := iso;
     nonce := nonce w; remoteLog := remoteLog w; opened := opened w |}.

Definition bumpNonce (w : World) : World :=
  {| emails := emails w; rules := rules w; sqlNow := sqlNow w;
     isoNow := isoNow w; nonce := S (nonce w); remoteLog := remoteLog w;
     opened := opened w |}.

Definition logRemote (c : ProviderCall) (w : World) : World :=
  {| emails := emails w; rules := rules w; sqlNow := sqlNow w;
     isoNow := isoNow w; nonce := nonce w;
     remoteLog := remoteLog w ++ [c]; opened := opened w |}.

Definition logOpened (url : string) (w : World) : World :=
  {| emails := emails w; rules := rules w; sqlNow := sqlNow w;
     isoNow := isoNow w; nonce := nonce w; remoteLog := remoteLog w;
     opened := opened w ++ [url] |}.

(** ** Computations that may throw *)

Inductive Outcome (A : Type) :=
| Ok (a : A)
| Thrown (message : string).

Arguments Ok {A} a.
Arguments Thrown {A} message.

(** An [async] method: it runs on the world and either returns or throws;
    what it wrote before throwing stays written. *)
Definition M (A : Type) := World -> Outcome A * World.

Definition ret {A} (a : A) : M A := fun w => (Ok a, w).

Definition throw {A} (message : string) : M A := fun w => (Thrown message, w).

Definition bind {A B} (m : M A) (k : A -> M B) : M B :=
  fun w =>
    match m w with
    | (Ok a, w') => k a w'
    | (Thrown e, w') => (Thrown e, w')
    end.

(** [try { m } catch (error) { handler(error) }] *)
Definition tryCatch {A} (m : M A) (handler : string -> M A) : M A :=
  fun w =>
    match m w with
    | (Ok a, w') => (Ok a, w')
    | (Thrown e, w') => handler e w'
    end.

Definition gets {A} (f : World -> A) : M A := fun w => (Ok (f w), w).

Definition modify (f : World -> World) : M unit := fun w => (Ok tt, f w).

Declare Scope m_scope.
Delimit Scope m_scope with m.
Notation "x <- m ;; k" := (bind m (fun x => k))
  (at level 61, m at next level, right associativity) : m_scope.
Notation "m ;;; k" := (bind m (fun _ => k))
  (at level 61, right associativity) : m_scope.

(** [for (const x of xs) { body(x) }] *)
Fixpoint forOf {A} (xs : list A) (body : A -> M unit) : M unit :=
  match xs with
  | [] => ret tt
  | x :: xs' => bind (body x) (fun _ => forOf xs' body)
  end.


(* ================================================================== *)
(** ** [DatabaseService] *)

Module DatabaseService.

(** [ORDER BY]: rows that the ordering does not tell apart stay in rowid
    order. *)
Definition orderBy {A : Type} (before : A -> A -> bool) (rows : list A)
  : list A :=
  JS.sort before rows.

(** The options of [getEmails] that the services pass. *)
Record EmailQuery := {
  accountId : option string;
  category : option string;
  isRead : option bool;
  limit : option nat;
}.

(** The [WHERE] clause that [getEmails] assembles. *)
Definition selected (o : EmailQuery) (e : Email.t) : bool :=
  (if JS.truthy (accountId o)
   then (Email.accountId e =? JS.orElse (accountId o) "")
   else true)
  && (if JS.truthy (category o)
      then match Email.category e with
           | Some c => (c =? JS.orElse (category o) "")
           | None => false
           end
      else true)
  && match isRead o with
     | Some r => Bool.eqb (Email.isRead e) r
     | None => true
     end.

(** [ORDER BY date DESC] *)
Definition newestFirst (a b : Email.t) : bool :=
  (Email.date b <=? Email.date a).

(** [LIMIT ?], added when [options.limit] is truthy *)
Definition applyLimit {A : Type} (l : option nat) (rows : list A) : list A :=
  match l with
  | Some (S n) => firstn (S n) rows
  | _ => rows
  end.

(** [SELECT * FROM emails WHERE ... ORDER BY date DESC LIMIT ?] *)
Definition getEmails (o : EmailQuery) (w : World) : list Email.t :=
  applyLimit (limit o) (orderBy newestFirst (filter (selected o) (emails w))).

(** [SELECT * FROM emails WHERE id = ?], first row *)
Definition getEmail (id : string) (w : World) : option Email.t :=
  find (fun e => (Email.id e =? id)) (emails w).

Definition getUnclassifiedEmails (account : string) (w : World)
  : list Email.t :=
  orderBy newestFirst
    (filter (fun e => (Email.accountId e =? account)
                      && match Email.category e with
                         | Some c => (c =? "uncategorized")
                         | None => false
                         end)
            (emails w)).

Definition updateWhere (p : Email.t -> bool) (f : Email.t -> Email.t)
  (w : World) : World :=
  setEmails (map (fun e => if p e then f e else e) (emails w)) w.

(** What [Statement.bind] of sql.js throws on a parameter that is neither a
    string, a number, a boolean, [null] nor a byte array. *)
Definition bindUndefined : string :=
  "Wrong API use : tried to bind a value of an unknown type (undefined).".

(** [UPDATE emails SET category = ? WHERE id = ?].  The parameters are
    bound before the statement runs: with a category that is [undefined]
    the binding throws and no row is written. *)
Definition updateEmailCategory (id : string) (category : option string)
  : M unit :=
  match category with
  | Some c =>
      modify (updateWhere (fun e => (Email.id e =? id))
                          (Email.setCategory (Some c)))
  | None => throw bindUndefined
  end.

Definition updateEmailMetadata (id : string) (importance : Q)
  (keywords : list string) (w : World) : World :=
  updateWhere (fun e => (Email.id e =? id))
              (Email.setMetadata importance keywords) w.

Definition markEmailsRead (ids : list string) (read : bool) (w : World)
  : World :=
  updateWhere (fun e => existsb (String.eqb (Email.id e)) ids)
              (Email.setRead read) w.

Definition deleteEmails (ids : list string) (w : World) : World :=
  setEmails
    (filter (fun e => negb (existsb (String.eqb (Email.id e)) ids))
            (emails w))
    w.

(** [ORDER BY priority DESC, created_at] *)
Definition rulesOrder (a b : RuleRow.t) : bool :=
  (RuleRow.priority b <? RuleRow.priority a)%Z
  || ((RuleRow.priority a =? RuleRow.priority b)%Z
      && (RuleRow.created_at a <=? RuleRow.created_at b)).

Definition getRules (w : World) : list RuleRow.t :=
  orderBy rulesOrder (rules w).

Definition getRule (id : string) (w : World) : option RuleRow.t :=
  find (fun r => (RuleRow.id r =? id)) (rules w).

(** [INSERT OR REPLACE INTO rules (id, name, enabled, conditions, actions,
    provider, priority, updated_at)]: the row that holds the primary key is
    deleted and a new row inserted; the columns that the statement does not
    list ([hit_count], [last_hit], [created_at]) take their defaults.  The
    parameters are bound before the statement runs: with [rule.provider]
    not set the binding throws and no row is written. *)
Definition saveRule (h : Host) (rule : Rule.t) : M (option RuleRow.t) :=
  fun w =>
    let fresh := (Rule.id rule =? "") in
    let id := if fresh then nanoid h (nonce w) else Rule.id rule in
    let w1 := if fresh then bumpNonce w else w in
    match Rule.provider rule with
    | None => (Thrown bindUndefined, w1)
    | Some provider =>
        let row :=
          {| RuleRow.id := id;
             RuleRow.name := Rule.name rule;
             RuleRow.enabled := Rule.enabled rule;
             RuleRow.conditions := Rule.conditions rule;
             RuleRow.actions := Rule.actions rule;
             RuleRow.provider := provider;
             RuleRow.priority := Rule.priority rule;
             RuleRow.hit_count := 0;
             RuleRow.last_hit := None;
             RuleRow.created_at := sqlNow w;
             RuleRow.updated_at := sqlNow w |} in
        let w2 :=
          setRules
            (filter (fun r => negb (RuleRow.id r =? id)) (rules w1) ++ [row])
            w1 in
        (Ok (getRule id w2), w2)
    end.

(** [DELETE FROM rules WHERE id = ?] *)
Definition deleteRule (id : string) (w : World) : World :=
  setRules (filter (fun r => negb (RuleRow.id r =? id)) (rules w)) w.



End DatabaseService.

(* ================================================================== *)
(** ** [EmailClassifier] *)

Module CategoryPattern.
Record t := {
  id : string;
  name : string;
  patterns : list string;
  senderPatterns : list string;
  keywords : list string;
  weight : Q;
}.
End CategoryPattern.

Module ClassificationResult.
Record t := {
  category : string;
  confidence : Q;
  importance : Q;
  keywords : list string;
}.
End ClassificationResult.

Module EmailClassifier.

(** The table that [initialize] installs.  A pattern is the source text of
    its regular expression literal; every literal carries the flag [i]. *)
Definition categoryPatterns : list CategoryPattern.t :=
  [ {| CategoryPattern.id := "financial";
       CategoryPattern.name := "Financial";
       CategoryPattern.patterns :=
         [ "statement|transaction|balance|deposit|withdrawal|payment (received|sent)|credit (card|limit)|bank account|investment|portfolio|dividend|interest (rate|earned)|wire transfer|ach|routing number";
           "your .*(statement|account|balance)|account ending in \d+" ];
       CategoryPattern.senderPatterns :=
         [ "bank|chase|wells ?fargo|bofa|bank of america|citibank|capital ?one|discover|amex|american express|fidelity|schwab|vanguard|td ameritrade|robinhood|coinbase|paypal|venmo|stripe|square" ];
       CategoryPattern.keywords :=
         [ "bank"; "statement"; "balance"; "transaction"; "payment";
           "credit"; "debit"; "investment"; "portfolio"; "dividend";
           "interest" ];
       CategoryPattern.weight := Double.lit 1.2 |};
    {| CategoryPattern.id := "hr";
       CategoryPattern.name := "HR/Recruitment";
       CategoryPattern.patterns :=
         [ "job (offer|application|opportunity)|position at|interview (scheduled|invitation|request)|we('d| would) like to (invite|interview)|your (application|resume)|hiring manager|recruiter|talent acquisition|compensation|benefits package|offer letter|background check|onboarding";
           "thank you for (applying|your interest)|unfortunately.*(not|unable).*position" ];
       CategoryPattern.senderPatterns :=
         [ "linkedin|indeed|glassdoor|monster|ziprecruiter|greenhouse|lever|workday|taleo|icims|jobvite|careers?@|recruiting?@|hr@|talent@|people@" ];
       CategoryPattern.keywords :=
         [ "job"; "interview"; "application"; "resume"; "offer"; "position";
           "recruiter"; "hiring"; "salary"; "benefits" ];
       CategoryPattern.weight := Double.lit 1.1 |};
    {| CategoryPattern.id := "marketing";
       CategoryPattern.name := "Marketing/Ads";
       CategoryPattern.patterns :=
         [ "unsubscribe|email preferences|manage (your )?subscriptions|opt.out|sale|% off|\$\d+ off|promo(tion)? code|coupon|limited time|act now|don't miss|exclusive (offer|deal|access)|flash sale|clearance|shop now|buy now|order now|free shipping";
           "newsletter|weekly digest|monthly update|special offer|member exclusive|subscriber" ];
       CategoryPattern.senderPatterns :=
         [ "newsletter|promo|marketing|deals|offers|noreply|no-reply|news@|info@|hello@|contact@" ];
       CategoryPattern.keywords :=
         [ "sale"; "discount"; "promo"; "offer"; "unsubscribe"; "deal";
           "coupon"; "newsletter"; "exclusive"; "limited" ];
       CategoryPattern.weight := Double.lit 0.9 |};
    {| CategoryPattern.id := "important";
       CategoryPattern.name := "Important";
       CategoryPattern.patterns :=
         [ "urgent|important|action required|immediate attention|deadline|asap|critical|priority|time.sensitive|expires? (today|soon|tomorrow)|respond by|reply by|final notice|last chance|account (suspended|locked|compromised)";
           "please (respond|reply|confirm|review)|your input (needed|required)|awaiting your" ];
       CategoryPattern.senderPatterns := [];
       CategoryPattern.keywords :=
         [ "urgent"; "important"; "deadline"; "asap"; "critical"; "priority";
           "action"; "required"; "immediate" ];
       CategoryPattern.weight := Double.lit 1.5 |};
    {| CategoryPattern.id := "social";
       CategoryPattern.name := "Social";
       CategoryPattern.patterns :=
         [ "new connection|wants to connect|accepted your (invitation|request)|endorsed you|commented on|liked your|mentioned you|tagged you|sent you a message|new follower|friend request|birthday|congratulations";
           "activity on your (post|photo|video)|someone (viewed|liked|commented)" ];
       CategoryPattern.senderPatterns :=
         [ "linkedin|facebook|twitter|x\.com|instagram|tiktok|snapchat|pinterest|reddit|discord|slack|whatsapp|telegram|signal|messenger" ];
       CategoryPattern.keywords :=
         [ "connect"; "follow"; "like"; "comment"; "share"; "mention"; "tag";
           "friend"; "profile"; "notification" ];
       CategoryPattern.weight := Double.lit 0.8 |};
    {| CategoryPattern.id := "shopping";
       CategoryPattern.name := "Shopping";
       CategoryPattern.patterns :=
         [ "order (confirmation|shipped|delivered|placed)|your (order|package|shipment|delivery)|tracking (number|information)|estimated delivery|shipped via|out for delivery|has been delivered|receipt for|thank you for your (purchase|order)|return (label|request|policy)";
           "item in your cart|wishlist|back in stock|price drop" ];
       CategoryPattern.senderPatterns :=
         [ "amazon|ebay|walmart|target|bestbuy|costco|macys|nordstrom|zappos|etsy|shopify|stripe|square|orders?@|shipping@|tracking@" ];
       CategoryPattern.keywords :=
         [ "order"; "shipping"; "delivery"; "tracking"; "receipt"; "purchase";
           "package"; "cart"; "checkout"; "return" ];
       CategoryPattern.weight := Double.lit 1.0 |};
    {| CategoryPattern.id := "travel";
       CategoryPattern.name := "Travel";
       CategoryPattern.patterns :=
         [ "flight (confirmation|itinerary|booking|reservation)|hotel (reservation|booking|confirmation)|booking confirmation|check.in|check.out|boarding pass|e.?ticket|travel (itinerary|confirmation)|car rental|airport|departure|arrival|gate";
           "your trip to|upcoming reservation|reservation confirmed" ];
       CategoryPattern.senderPatterns :=
         [ "airlines?|hotels?\.com|airbnb|booking\.com|expedia|kayak|hopper|tripadvisor|marriott|hilton|hyatt|delta|united|american|southwest|jetblue|uber|lyft" ];
       CategoryPattern.keywords :=
         [ "flight"; "hotel"; "booking"; "reservation"; "travel"; "trip";
           "itinerary"; "boarding"; "departure"; "arrival" ];
       CategoryPattern.weight := Double.lit 1.1 |};
    {| CategoryPattern.id := "bills";
       CategoryPattern.name := "Bills/Invoices";
       CategoryPattern.patterns :=
         [ "invoice|bill|payment due|amount due|due date|account summary|autopay|automatic payment|pay now|pay online|balance due|current charges|monthly statement|utility bill|electric bill|gas bill|water bill|internet bill|phone bill";
           "your .* bill is ready|bill available|payment reminder|past due" ];
       CategoryPattern.senderPatterns :=
         [ "billing@|invoice@|payments?@|accounts?@|utility|electric|gas|water|comcast|verizon|at&t|t-mobile|sprint|xfinity|spectrum" ];
       CategoryPattern.keywords :=
         [ "invoice"; "bill"; "payment"; "due"; "balance"; "charges";
           "utility"; "statement"; "autopay"; "overdue" ];
       CategoryPattern.weight := Double.lit 1.1 |} ].

(** [x || 0] on a number that may be absent. *)
Definition orZero (x : option Q) : Q :=
  match x with Some q => q | None => 0 end.

(** The text that the content patterns and the keywords are tried on. *)
Definition fullText (email : Email.t) : string :=
  JS.toLowerCase
    (JS.join " "
       [ JS.orElse (Email.subject email) "";
         JS.orElse (Email.snippet email) "";
         JS.orElse (option_map (JS.substring0 2000) (Email.body email)) "" ]).

(** The text that the sender patterns are tried on. *)
Definition senderText (email : Email.t) : string :=
  JS.toLowerCase
    (JS.join " "
       [ JS.orElse (Some (Email.from email)) "";
         JS.orElse (Email.fromName email) "" ]).

(** The three inner loops of [classify] for one category: the score of the
    category and the keywords collected so far. *)
Definition scoreCategory (h : Host) (text sender : string)
  (category : CategoryPattern.t) (extractedKeywords : list string)
  : Q * list string :=
  let weight := CategoryPattern.weight category in
  let score := 0 in
  let score :=
    fold_left
      (fun score pattern =>
         if regex_test h pattern text
         then Double.add score (Double.mul 2 weight)
         else score)
      (CategoryPattern.patterns category) score in
  let score :=
    fold_left
      (fun score pattern =>
         if regex_test h pattern sender
         then Double.add score (Double.mul 3 weight)
         else score)
      (CategoryPattern.senderPatterns category) score in
  fold_left
    (fun (st : Q * list string) keyword =>
       let (score, extracted) := st in
       if JS.includes text (JS.toLowerCase keyword)
       then (Double.add score (Double.mul (Double.lit 0.5) weight),
             if existsb (String.eqb keyword) extracted
             then extracted
             else extracted ++ [keyword])
       else (score, extracted))
    (CategoryPattern.keywords category) (score, extractedKeywords).

(** The loop over the categories: the map [scores] and the keywords. *)
Definition scoreAll (h : Host) (table : list CategoryPattern.t)
  (email : Email.t) : JS.Map Q * list string :=
  fold_left
    (fun (st : JS.Map Q * list string) category =>
       let (scores, extracted) := st in
       let (score, extracted') :=
         scoreCategory h (fullText email) (senderText email) category
                       extracted in
       (JS.set (CategoryPattern.id category) score scores, extracted'))
    table ([], []).

(** The scores after the special handling of the unsubscribe flag. *)
Definition finalScores (h : Host) (table : list CategoryPattern.t)
  (email : Email.t) : JS.Map Q :=
  let scores := fst (scoreAll h table email) in
  if Email.hasUnsubscribe email
  then JS.set "marketing"
              (Double.add (orZero (JS.get "marketing" scores)) 1) scores
  else scores.

(** The loop that finds the best category. *)
Definition findBest (scores : JS.Map Q) : string * Q :=
  fold_left
    (fun (best : string * Q) (entry : string * Q) =>
       let (bestCategory, bestScore) := best in
       let (category, score) := entry in
       if JS.Qltb bestScore score then (category, score)
       else (bestCategory, bestScore))
    scores ("uncategorized", 0).

Definition urgentPatterns : list string :=
  [ "urgent|important|critical|priority|immediate|asap|action required|deadline";
    "please (respond|reply|confirm)|awaiting your|your input" ].

Definition calculateImportance (h : Host) (email : Email.t)
  (category : string) (categoryScore : Q) : Q :=
  let importance := Double.lit 0.5 in
  let text :=
    JS.toLowerCase
      (JS.join " " [ JS.orElse (Email.subject email) "";
                     JS.orElse (Email.snippet email) "" ]) in
  let importance :=
    fold_left
      (fun importance pattern =>
         if regex_test h pattern text
         then Double.add importance (Double.lit 0.2)
         else importance)
      urgentPatterns importance in
  let importance :=
    if (category =? "important") then
      Double.add importance (Double.lit 0.3)
    else if (category =? "financial") then
      Double.add importance (Double.lit 0.15)
    else if (category =? "bills") then
      Double.add importance (Double.lit 0.1)
    else if (category =? "travel") then
      Double.add importance (Double.lit 0.1)
    else if (category =? "marketing") then
      Double.sub importance (Double.lit 0.2)
    else if (category =? "social") then
      Double.sub importance (Double.lit 0.1)
    else importance in
  let importance :=
    if JS.Qltb 5 categoryScore
    then Double.add importance (Double.lit 0.1)
    else importance in
  Qmax 0 (Qmin 1 importance).

(** [classify] over the table held in [this.categoryPatterns]. *)
Definition classifyWith (table : list CategoryPattern.t) (h : Host)
  (email : Email.t) : ClassificationResult.t :=
  let extractedKeywords := snd (scoreAll h table email) in
  let (bestCategory, bestScore) := findBest (finalScores h table email) in
  {| ClassificationResult.category := bestCategory;
     ClassificationResult.confidence := Qmin 1 (Double.div bestScore 10);
     ClassificationResult.importance :=
       calculateImportance h email bestCategory bestScore;
     ClassificationResult.keywords := firstn 10 extractedKeywords |}.

Definition classify (h : Host) (email : Email.t) : ClassificationResult.t :=
  classifyWith categoryPatterns h email.

(** [email.from.split('@')[1]?.toLowerCase()] *)
Definition senderDomain (from : string) : option string :=
  option_map JS.toLowerCase (nth_error (JS.split "@"%char from) 1).

(** [classifyBatch]: the map from id to result. *)
Definition classifyBatch (h : Host) (batch : list Email.t)
  : JS.Map ClassificationResult.t :=
  fold_left
    (fun results email => JS.set (Email.id email) (classify h email) results)
    batch [].

(** An entry of the result of [getSuggestedRules]. *)
Record SenderRule := {
  pattern : string;
  category : string;
  confidence : Q;
}.

(** The first loop of [getSuggestedRules], over the pairs of sender and
    category: per domain, the number of messages of each category. *)
Definition countByDomain (labelled : list (string * string))
  : JS.Map (JS.Map Z) :=
  fold_left
    (fun senderCategories (email : string * string) =>
       let (from, category) := email in
       match senderDomain from with
       | None => senderCategories
       | Some domain =>
           if (domain =? "") then senderCategories
           else
             let senderCategories :=
               if JS.has domain senderCategories then senderCategories
               else JS.set domain [] senderCategories in
             match JS.get domain senderCategories with
             | Some categories =>
                 JS.set domain
                   (JS.set category
                      (match JS.get category categories with
                       | Some n => n
                       | None => 0
                       end + 1)%Z
                      categories)
                   senderCategories
             | None => senderCategories
             end
       end)
    labelled [].

(** The inner loop of the second part: the top category, its count and
    the total. *)
Definition topOf (categories : JS.Map Z) : string * Z * Z :=
  fold_left
    (fun (st : string * Z * Z) (entry : string * Z) =>
       let '(topCategory, topCount, totalCount) := st in
       let (category, count) := entry in
       let totalCount := (totalCount + count)%Z in
       if (topCount <? count)%Z then (category, count, totalCount)
       else (topCategory, topCount, totalCount))
    categories ("", 0%Z, 0%Z).

Definition getSuggestedRules (labelled : list (string * string))
  : list SenderRule :=
  fold_left
    (fun suggestions (entry : string * JS.Map Z) =>
       let (domain, categories) := entry in
       let '(topCategory, topCount, totalCount) := topOf categories in
       let confidence :=
         Double.div (inject_Z topCount) (inject_Z totalCount) in
       if JS.Qltb (Double.lit 0.8) confidence && (3 <=? topCount)%Z
       then suggestions
            ++ [ {| pattern := String.append "@" domain;
                    category := topCategory;
                    confidence := confidence |} ]
       else suggestions)
    (countByDomain labelled) [].

End EmailClassifier.

(** [classifyNewEmails] of [main.ts] *)
Definition classifyNewEmails (h : Host) (account : string) : M unit :=
  (unclassifiedEmails <-
     gets (DatabaseService.getUnclassifiedEmails account) ;;
   forOf unclassifiedEmails
     (fun email =>
        let classification := EmailClassifier.classify h email in
        DatabaseService.updateEmailCategory (Email.id email)
          (Some (ClassificationResult.category classification)) ;;;
        modify (DatabaseService.updateEmailMetadata (Email.id email)
                  (ClassificationResult.importance classification)
                  (ClassificationResult.keywords classification))))%m.

(* ================================================================== *)
(** ** [EmailProviderManager] *)

Module EmailProviderManager.

(** A call on the provider registered for the account: it is issued, and its
    promise resolves or rejects.  Without a registered provider nothing is
    issued. *)
Definition remote (h : Host) (account : string) (call : ProviderCall)
  : M unit :=
  fun w =>
    if hasProvider h account
    then if remoteResolves h call
         then (Ok tt, logRemote call w)
         else (Thrown "provider call rejected", logRemote call w)
    else (Ok tt, w).

Definition archiveEmail (h : Host) (account emailId : string) : M unit :=
  remote h account (RemoteArchive emailId).

Definition deleteEmail (h : Host) (account emailId : string) : M unit :=
  (remote h account (RemoteDelete emailId) ;;;
   modify (DatabaseService.deleteEmails [emailId]))%m.

Definition moveEmail (h : Host) (account emailId : string)
  (folder : option string) : M unit :=
  remote h account (RemoteMove emailId folder).

End EmailProviderManager.

(* ================================================================== *)
(** ** [RulesEngine] *)

(* ================================================================== *)
(** ** Records of the suggestion and export functions *)

(** [interface RuleSuggestion]; [rule] is a rule without id and counters. *)
Module SuggestedRule.
Record t := {
  name : string;
  enabled : bool;
  conditions : list RuleCondition.t;
  actions : list RuleAction.t;
  priority : Z;
}.
End SuggestedRule.

Module RuleSuggestion.
Record t := {
  id : string;
  rule : SuggestedRule.t;
  confidence : Q;
  reason : string;
  sampleEmails : list Email.t;
}.
End RuleSuggestion.

(** A JSON value, as handed to [JSON.stringify]. *)
#[warnings="-register-all"] Inductive Json :=
| JNull
| JBool (b : bool)
| JNum (n : Z)
| JStr (s : string)
| JArr (items : list Json)
| JObj (members : list (string * Json)).

Module RulesEngine.

(** A computation that may throw and does not touch the world. *)
Definition liftO {A} (o : Outcome A) : M A := fun w => (o, w).

(** [new RegExp(source, 'i')] *)
Definition newRegExp (h : Host) (source : string)
  : Outcome (string -> bool) :=
  if regex_valid h source then Ok (regex_test h source)
  else Thrown "SyntaxError: Invalid regular expression".

(** [try { return e } catch { return d }] *)
Definition tryReturn {A} (e : Outcome A) (d : A) : Outcome A :=
  match e with
  | Ok a => Ok a
  | Thrown _ => Ok d
  end.

(** [createRule], on the properties of [ruleInput]; [provider] and
    [priority] are [None] when the object does not give them. *)
Definition createRule (h : Host) (name : string)
  (conditions : list RuleCondition.t) (actions : list RuleAction.t)
  (provider : option string) (priority : option Z) : M (option RuleRow.t) :=
  fun w =>
    let rule :=
      {| Rule.id := nanoid h (nonce w);
         Rule.name := name;
         Rule.enabled := true;
         Rule.conditions := conditions;
         Rule.actions := actions;
         Rule.provider := option_map Some provider;
         Rule.priority := match priority with Some p => p | None => 0%Z end;
         Rule.hitCount := Some 0%Z;
         Rule.lastHit := None |} in
    DatabaseService.saveRule h rule (bumpNonce w).

Definition updateRule (h : Host) (ruleId : string) (updates : Rule.updates)
  : M (option RuleRow.t) :=
  (existing <- gets (DatabaseService.getRule ruleId) ;;
   match existing with
   | None => throw "Rule not found"
   | Some existing =>
       let updated := Rule.spread (Rule.ofRow existing) updates in
       DatabaseService.saveRule h updated
   end)%m.

Definition deleteRule (ruleId : string) : M unit :=
  modify (DatabaseService.deleteRule ruleId).

(** The first [switch] of [matchesCondition]; [None] is its [default] arm. *)
Definition fieldValue (email : Email.t) (field : string) : option JS.value :=
  if (field =? "from") then
    Some (JS.VStr (JS.toLowerCase (JS.orElse (Some (Email.from email)) "")))
  else if (field =? "to") then
    Some (JS.VStr (JS.toLowerCase
                     match Email.to email with
                     | ToArray addresses => JS.join " " addresses
                     | ToText text => JS.orElse text ""
                     end))
  else if (field =? "subject") then
    Some (JS.VStr (JS.toLowerCase (JS.orElse (Email.subject email) "")))
  else if (field =? "body") then
    Some (JS.VStr (JS.toLowerCase
                     (JS.orElse (Email.body email)
                                (JS.orElse (Email.snippet email) ""))))
  else if (field =? "category") then
    Some (JS.VStr (JS.toLowerCase (JS.orElse (Email.category email) "")))
  else if (field =? "date") then
    Some (JS.VStr (JS.orElse (Some (Email.date email)) ""))
  else if (field =? "hasAttachment") then
    Some (JS.VBool (0 <? List.length (Email.attachments email))%nat)
  else if (field =? "size") then
    Some (JS.VNum match Email.size email with Some n => n | None => 0%Z end)
  else None.

Definition matchesCondition (h : Host) (email : Email.t)
  (condition : RuleCondition.t) : Outcome bool :=
  match fieldValue email (RuleCondition.field condition) with
  | None => Ok false
  | Some fieldValue =>
      let conditionValue := JS.toLowerCase (RuleCondition.value condition) in
      let operator := RuleCondition.operator condition in
      if (operator =? "contains") then
        Ok (JS.includes (JS.toString fieldValue) conditionValue)
      else if (operator =? "equals") then
        Ok (JS.toString fieldValue =? conditionValue)
      else if (operator =? "startsWith") then
        Ok (JS.startsWith (JS.toString fieldValue) conditionValue)
      else if (operator =? "endsWith") then
        Ok (JS.endsWith (JS.toString fieldValue) conditionValue)
      else if (operator =? "regex") then
        tryReturn
          match newRegExp h (RuleCondition.value condition) with
          | Ok test => Ok (test (JS.toString fieldValue))
          | Thrown e => Thrown e
          end
          false
      else if (operator =? "before") then
        Ok (JS.toString fieldValue <? conditionValue)
      else if (operator =? "after") then
        Ok (conditionValue <? JS.toString fieldValue)
      else if (operator =? "greaterThan") then
        Ok (JS.numGt (JS.toNumber (parseNumber h) fieldValue)
                     (parseNumber h (RuleCondition.value condition)))
      else if (operator =? "lessThan") then
        Ok (JS.numLt (JS.toNumber (parseNumber h) fieldValue)
                     (parseNumber h (RuleCondition.value condition)))
      else Ok false
  end.

Fixpoint matchesConditions (h : Host) (email : Email.t)
  (conditions : list RuleCondition.t) : Outcome bool :=
  match conditions with
  | [] => Ok true
  | condition :: rest =>
      match matchesCondition h email condition with
      | Ok true => matchesConditions h email rest
      | Ok false => Ok false
      | Thrown e => Thrown e
      end
  end.

(** One turn of the loop of [executeActions]: the [switch] inside its
    [try]. *)
Definition executeAction (h : Host) (email : Email.t) (action : RuleAction.t)
  : M unit :=
  let type := RuleAction.type action in
  let value := RuleAction.value action in
  if (type =? "move") then
    EmailProviderManager.moveEmail h (Email.accountId email) (Email.id email)
                                   value
  else if (type =? "archive") then
    EmailProviderManager.archiveEmail h (Email.accountId email)
                                      (Email.id email)
  else if (type =? "delete") then
    EmailProviderManager.deleteEmail h (Email.accountId email)
                                     (Email.id email)
  else if (type =? "markRead") then
    modify (DatabaseService.markEmailsRead [Email.id email] true)
  else if (type =? "markUnread") then
    modify (DatabaseService.markEmailsRead [Email.id email] false)
  else if (type =? "categorize") then
    DatabaseService.updateEmailCategory (Email.id email) value
  else
    (* 'label' reads the labels and writes nothing; the other types have no
       case *)
    ret tt.

Definition executeActions (h : Host) (email : Email.t)
  (actions : list RuleAction.t) : M unit :=
  forOf actions
    (fun action => tryCatch (executeAction h email action) (fun _ => ret tt)).

(** [(a, b) => b.priority - a.priority] is not positive *)
Definition byPriority (a b : RuleRow.t) : bool :=
  (RuleRow.priority b - RuleRow.priority a <=? 0)%Z.

(** The array [rules] of [applyRulesToEmail] once it is sorted: the rules
    that the loop goes through, in this order. *)
Definition evaluationOrder (w : World) : list RuleRow.t :=
  JS.sort byPriority (filter RuleRow.enabled (DatabaseService.getRules w)).

(** [rule.hitCount + 1]: NaN when the property is missing. *)
Definition plusOne (n : option Z) : option Z := option_map (Z.add 1) n.

(** The loop of [applyRulesToEmail]. *)
Fixpoint applyLoop (h : Host) (email : Email.t) (rules : list RuleRow.t)
  (appliedActions : list RuleAction.t) : M (list RuleAction.t) :=
  match rules with
  | [] => ret appliedActions
  | rule :: rest =>
      (matched <-
         liftO (matchesConditions h email (RuleRow.conditions rule)) ;;
       if (matched : bool) then
         let appliedActions := appliedActions ++ RuleRow.actions rule in
         now <- gets isoNow ;;
         DatabaseService.saveRule h
           (Rule.withHit (plusOne (RuleRow.hitCount rule)) (Some now)
                         (Rule.ofRow rule)) ;;;
         executeActions h email (RuleRow.actions rule) ;;;
         applyLoop h email rest appliedActions
       else applyLoop h email rest appliedActions)%m
  end.

Definition applyRulesToEmail (h : Host) (email : Email.t)
  : M (list RuleAction.t) :=
  (rules <- gets evaluationOrder ;;
   applyLoop h email rules [])%m.

(** [allEmails.filter(email => this.matchesConditions(email, conditions))] *)
Fixpoint filterMatching (h : Host) (conditions : list RuleCondition.t)
  (allEmails : list Email.t) : Outcome (list Email.t) :=
  match allEmails with
  | [] => Ok []
  | email :: rest =>
      match matchesConditions h email conditions with
      | Thrown e => Thrown e
      | Ok keep =>
          match filterMatching h conditions rest with
          | Thrown e => Thrown e
          | Ok kept => Ok (if keep then email :: kept else kept)
          end
      end
  end.

Record TestResult := {
  matchingEmails : list Email.t;
  totalMatches : nat;
}.

Definition testRule (h : Host) (ruleId : string) : M TestResult :=
  (rule <- gets (DatabaseService.getRule ruleId) ;;
   match rule with
   | None => throw "Rule not found"
   | Some rule =>
       allEmails <-
         gets (DatabaseService.getEmails
                 {| DatabaseService.accountId := None;
                    DatabaseService.category := None;
                    DatabaseService.isRead := None;
                    DatabaseService.limit := Some 1000%nat |}) ;;
       matching <-
         liftO (filterMatching h (RuleRow.conditions rule) allEmails) ;;
       ret {| matchingEmails := firstn 10 matching;
              totalMatches := List.length matching |}
   end)%m.

(** [nanoid()] *)
Definition drawId (h : Host) : M string :=
  fun w => (Ok (nanoid h (nonce w)), bumpNonce w).

(** Equality of two categories, either of which may be [null]. *)
Definition sameCategory (a b : option string) : bool :=
  match a, b with
  | Some x, Some y => (x =? y)
  | None, None => true
  | _, _ => false
  end.

(** The first loop of [getSuggestions]: the messages by sender domain. *)
Definition groupByDomain (all : list Email.t) : JS.Map (list Email.t) :=
  fold_left
    (fun senderGroups email =>
       match EmailClassifier.senderDomain (Email.from email) with
       | None => senderGroups
       | Some domain =>
           if (domain =? "") then senderGroups
           else
             let senderGroups :=
               if JS.has domain senderGroups then senderGroups
               else JS.set domain [] senderGroups in
             match JS.get domain senderGroups with
             | Some members => JS.set domain (members ++ [email]) senderGroups
             | None => senderGroups
             end
       end)
    all [].

(** The map [categories] of one domain. *)
Definition countCategories (domainEmails : list Email.t)
  : list (option string * Z) :=
  fold_left
    (fun categories email =>
       JS.setK sameCategory (Email.category email)
         (match JS.getK sameCategory (Email.category email) categories with
          | Some n => n
          | None => 0
          end + 1)%Z
         categories)
    domainEmails [].

(** The search for the dominant category. *)
Definition dominantOf (categories : list (option string * Z))
  : option string * Z :=
  fold_left
    (fun (st : option string * Z) (entry : option string * Z) =>
       let (dominantCategory, dominantCount) := st in
       let (cat, count) := entry in
       if (dominantCount <? count)%Z then (cat, count)
       else (dominantCategory, dominantCount))
    categories (Some "uncategorized", 0%Z).

(** [`${category}`] for a category that may be [null]. *)
Definition showCategory (c : option string) : string :=
  match c with Some s => s | None => "null" end.

(** The body of the loop over the domains. *)
Definition suggestForDomain (h : Host) (cal : Calendar) (domain : string)
  (domainEmails : list Email.t) (suggestions : list RuleSuggestion.t)
  : M (list RuleSuggestion.t) :=
  if (List.length domainEmails <? 5)%nat then ret suggestions
  else
    let '(dominantCategory, dominantCount) :=
      dominantOf (countCategories domainEmails) in
    let total := List.length domainEmails in
    let confidence :=
      Double.div (inject_Z dominantCount) (inject_Z (Z.of_nat total)) in
    (suggestions <-
       (if JS.Qltb (Double.lit 0.8) confidence
           && negb (sameCategory dominantCategory (Some "uncategorized"))
        then
          id <- drawId h ;;
          ret (suggestions ++
               [ {| RuleSuggestion.id := id;
                    RuleSuggestion.rule :=
                      {| SuggestedRule.name :=
                           String.append "Auto-categorize @" domain;
                         SuggestedRule.enabled := true;
                         SuggestedRule.conditions :=
                           [ {| RuleCondition.field := "from";
                                RuleCondition.operator := "contains";
                                RuleCondition.value :=
                                  String.append "@" domain |} ];
                         SuggestedRule.actions :=
                           [ {| RuleAction.type := "categorize";
                                RuleAction.value := dominantCategory |} ];
                         SuggestedRule.priority := 0 |};
                    RuleSuggestion.confidence := confidence;
                    RuleSuggestion.reason :=
                      String.concat ""
                        [ JS.toString (JS.VNum dominantCount); " of ";
                          JS.ofNat total; " emails from @"; domain;
                          " are in the "; showCategory dominantCategory;
                          " category" ];
                    RuleSuggestion.sampleEmails := firstn 3 domainEmails |} ])
        else ret suggestions) ;;
     if sameCategory dominantCategory (Some "marketing")
        && (20 <? total)%nat
     then
       id <- drawId h ;;
       now <- gets isoNow ;;
       ret (suggestions ++
            [ {| RuleSuggestion.id := id;
                 RuleSuggestion.rule :=
                   {| SuggestedRule.name :=
                        String.append "Archive old emails from @" domain;
                      SuggestedRule.enabled := true;
                      SuggestedRule.conditions :=
                        [ {| RuleCondition.field := "from";
                             RuleCondition.operator := "contains";
                             RuleCondition.value :=
                               String.append "@" domain |};
                          {| RuleCondition.field := "date";
                             RuleCondition.operator := "before";
                             RuleCondition.value :=
                               msAgoISO cal now
                                 (180 * 24 * 60 * 60 * 1000) |} ];
                      SuggestedRule.actions :=
                        [ {| RuleAction.type := "archive";
                             RuleAction.value := None |} ];
                      SuggestedRule.priority := 0 |};
                 RuleSuggestion.confidence := Double.lit 0.9;
                 RuleSuggestion.reason :=
                   String.concat ""
                     [ "You have "; JS.ofNat total;
                       " marketing emails from @"; domain;
                       ". Consider archiving older ones." ];
                 RuleSuggestion.sampleEmails := firstn 3 domainEmails |} ])
     else ret suggestions)%m.

Fixpoint suggestForDomains (h : Host) (cal : Calendar)
  (senderGroups : JS.Map (list Email.t))
  (suggestions : list RuleSuggestion.t) : M (list RuleSuggestion.t) :=
  match senderGroups with
  | [] => ret suggestions
  | (domain, domainEmails) :: rest =>
      bind (suggestForDomain h cal domain domainEmails suggestions)
           (suggestForDomains h cal rest)
  end.

(** [new Set(domains).size] *)
Fixpoint distinct (l : list string) : list string :=
  match l with
  | [] => []
  | x :: rest =>
      x :: filter (fun y => negb (y =? x)) (distinct rest)
  end.

(** The suggestion for the financial messages. *)
Definition suggestFinancial (h : Host) (all : list Email.t)
  (suggestions : list RuleSuggestion.t) : M (list RuleSuggestion.t) :=
  let financialEmails :=
    filter (fun e => sameCategory (Email.category e) (Some "financial"))
           all in
  if (10 <? List.length financialEmails)%nat then
    let financialDomains :=
      distinct
        (filter (fun d => negb (d =? ""))
           (flat_map
              (fun e =>
                 match EmailClassifier.senderDomain (Email.from e) with
                 | Some d => [d]
                 | None => []
                 end)
              financialEmails)) in
    if (0 <? List.length financialDomains)%nat then
      (id <- drawId h ;;
       ret (suggestions ++
            [ {| RuleSuggestion.id := id;
                 RuleSuggestion.rule :=
                   {| SuggestedRule.name :=
                        "Move bank statements to Finance folder";
                      SuggestedRule.enabled := true;
                      SuggestedRule.conditions :=
                        [ {| RuleCondition.field := "category";
                             RuleCondition.operator := "equals";
                             RuleCondition.value := "financial" |};
                          {| RuleCondition.field := "subject";
                             RuleCondition.operator := "contains";
                             RuleCondition.value := "statement" |} ];
                      SuggestedRule.actions :=
                        [ {| RuleAction.type := "move";
                             RuleAction.value := Some "Finance" |};
                          {| RuleAction.type := "markRead";
                             RuleAction.value := Some "" |} ];
                      SuggestedRule.priority := 5 |};
                 RuleSuggestion.confidence := Double.lit 0.85;
                 RuleSuggestion.reason :=
                   String.concat ""
                     [ "Automatically organize bank statements from ";
                       JS.ofNat (List.length financialDomains);
                       " financial institutions" ];
                 RuleSuggestion.sampleEmails :=
                   firstn 3 financialEmails |} ]))%m
    else ret suggestions
  else ret suggestions.

(** [(a, b) => b.confidence - a.confidence] is not positive *)
Definition byConfidence (a b : RuleSuggestion.t) : bool :=
  Qle_bool (RuleSuggestion.confidence b) (RuleSuggestion.confidence a).

Definition getSuggestions (h : Host) (cal : Calendar)
  : M (list RuleSuggestion.t) :=
  (all <- gets (DatabaseService.getEmails
                  {| DatabaseService.accountId := None;
                     DatabaseService.category := None;
                     DatabaseService.isRead := None;
                     DatabaseService.limit := Some 2000%nat |}) ;;
   suggestions <- suggestForDomains h cal (groupByDomain all) [] ;;
   suggestions <- suggestFinancial h all suggestions ;;
   ret (firstn 10 (JS.sort byConfidence suggestions)))%m.

(** The array [filters] of [convertToGmailFilters], before
    [JSON.stringify]. *)
Definition gmailCriterion (condition : RuleCondition.t) : list string :=
  let field := RuleCondition.field condition in
  if (field =? "from") then
    [String.append "from:" (RuleCondition.value condition)]
  else if (field =? "to") then
    [String.append "to:" (RuleCondition.value condition)]
  else if (field =? "subject") then
    [String.append "subject:" (RuleCondition.value condition)]
  else [].

(** [`label:${action.value}`] *)
Definition showValue (value : option string) : string :=
  match value with Some v => v | None => "undefined" end.

Definition gmailAction (action : RuleAction.t) : list string :=
  let type := RuleAction.type action in
  if (type =? "archive") then ["shouldArchive"]
  else if (type =? "markRead") then ["shouldMarkAsRead"]
  else if (type =? "delete") then ["shouldTrash"]
  else if (type =? "label") then
    [String.append "label:" (showValue (RuleAction.value action))]
  else [].

Definition gmailFilter (rule : RuleRow.t) : Json :=
  JObj [ ("name", JStr (RuleRow.name rule));
         ("criteria",
          JStr (JS.join " " (flat_map gmailCriterion
                                      (RuleRow.conditions rule))));
         ("actions",
          JArr (map JStr (flat_map gmailAction (RuleRow.actions rule)))) ].

(** The array [outlookRules] of [convertToOutlookRules]; a property whose
    value is [undefined] is left out, as [JSON.stringify] does. *)
Definition outlookRule (rule : RuleRow.t) : Json :=
  JObj [ ("displayName", JStr (RuleRow.name rule));
         ("sequence", JNum (RuleRow.priority rule));
         ("isEnabled", JBool (RuleRow.enabled rule));
         ("conditions",
          JArr (map (fun c =>
                       JObj [ ("type", JStr (RuleCondition.field c));
                              ("value", JStr (RuleCondition.value c));
                              ("operation",
                               JStr (RuleCondition.operator c)) ])
                    (RuleRow.conditions rule)));
         ("actions",
          JArr (map (fun a =>
                       JObj (("action", JStr (RuleAction.type a))
                             :: match RuleAction.value a with
                                | Some v => [("value", JStr v)]
                                | None => []
                                end))
                    (RuleRow.actions rule))) ].

(** [exportRulesForProvider]; [stringify] is [JSON.stringify(_, null, 2)]. *)
Definition exportRulesForProvider (stringify : Json -> string)
  (provider : string) : M string :=
  (rules <- gets DatabaseService.getRules ;;
   if (provider =? "gmail")
   then ret (stringify (JArr (map gmailFilter rules)))
   else ret (stringify (JArr (map outlookRule rules))))%m.

End RulesEngine.

(* ================================================================== *)
(** ** [CleanupService] *)

(** [interface CleanupSuggestion] *)
Inductive SuggestionType :=
| Duplicate
| InactiveSubscription
| Spam
| LargeAttachment
| OldTransactional
| UnreadNewsletters.

Inductive Priority := Low | Medium | High.

Module CleanupSuggestion.
Record t := {
  id : string;
  type : SuggestionType;
  title : string;
  description : string;
  emailIds : list string;
  estimatedSpace : option Z;
  priority : Priority;
  icon : string;
  action : string;
}.
End CleanupSuggestion.

(** The argument and the result of [CleanupService.executeAction]. *)
Module CleanupAction.
Record t := {
  type : string;
  emailIds : option (list string);
}.

Record result := {
  success : bool;
  message : string;
}.
End CleanupAction.

(** An entry of the result of [getSubscriptionAnalysis]. *)
Module Subscription.
Record t := {
  domain : string;
  emailCount : nat;
  lastEmail : string;
  readRate : Z;
  hasUnsubscribe : bool;
}.
End Subscription.

Module DuplicateGroup.
Record t := {
  hash : string;
  emails : list Email.t;
  subject : option string;
  from : option string;
}.
End DuplicateGroup.

Module CleanupService.

(** [shell.openExternal(url)] *)
Definition openExternal (h : Host) (url : string) : M unit :=
  fun w =>
    if openExternalResolves h url
    then (Ok tt, logOpened url w)
    else (Thrown "openExternal rejected", logOpened url w).

Record UnsubscribeResult := {
  processed : nat;
  skipped : nat;
  links : list string;
}.

(** The loop of [bulkUnsubscribe] over the ids still to visit. *)
Fixpoint unsubscribeLoop (h : Host) (emailIds : list string)
  (acc : UnsubscribeResult) : M UnsubscribeResult :=
  match emailIds with
  | [] => ret acc
  | emailId :: rest =>
      (email <- gets (DatabaseService.getEmail emailId) ;;
       let link :=
         match email with
         | Some e => Email.unsubscribeLink e
         | None => None
         end in
       if JS.truthy link then
         let url := JS.orElse link "" in
         openExternal h url ;;;
         unsubscribeLoop h rest
           {| processed := S (processed acc);
              skipped := skipped acc;
              links := links acc ++ [url] |}
       else
         unsubscribeLoop h rest
           {| processed := processed acc;
              skipped := S (skipped acc);
              links := links acc |})%m
  end.

Definition bulkUnsubscribe (h : Host) (emailIds : list string)
  : M UnsubscribeResult :=
  unsubscribeLoop h emailIds {| processed := 0; skipped := 0; links := [] |}.

(** The three components of the grouping key of [findDuplicates]:
    [email.subject?.toLowerCase().trim() || ''],
    [email.from?.toLowerCase() || ''] and
    [email.snippet?.substring(0, 50)?.toLowerCase() || '']. *)
Definition keySubject (email : Email.t) : string :=
  JS.orElse (option_map (fun s => JS.trim (JS.toLowerCase s))
                        (Email.subject email)) "".

Definition keySender (email : Email.t) : string :=
  JS.orElse (Some (JS.toLowerCase (Email.from email))) "".

Definition keySnippet (email : Email.t) : string :=
  JS.orElse (option_map (fun s => JS.toLowerCase (JS.substring0 50 s))
                        (Email.snippet email)) "".

(** The grouping key: the components joined by a bar. *)
Definition duplicateKey (email : Email.t) : string :=
  JS.join "|" [ keySubject email; keySender email; keySnippet email ].

(** The first loop of [findDuplicates]: the map from key to group. *)
Definition groupByKey (all : list Email.t) : JS.Map (list Email.t) :=
  fold_left
    (fun groups email =>
       let key := duplicateKey email in
       let groups := if JS.has key groups then groups
                     else JS.set key [] groups in
       match JS.get key groups with
       | Some members => JS.set key (members ++ [email]) groups
       | None => groups
       end)
    all [].

(** [(a, b) => new Date(b.date).getTime() - new Date(a.date).getTime()] is
    not positive; a NaN difference counts as zero. *)
Definition byDateDesc (h : Host) (a b : Email.t) : bool :=
  match getTime h (Email.date b), getTime h (Email.date a) with
  | Some tb, Some ta => (tb - ta <=? 0)%Z
  | _, _ => true
  end.

(** The second loop of [findDuplicates]. *)
Definition duplicatesOf (h : Host) (groups : JS.Map (list Email.t))
  : list DuplicateGroup.t :=
  fold_left
    (fun duplicates (entry : string * list Email.t) =>
       let (hash, groupEmails) := entry in
       if (1 <? List.length groupEmails)%nat then
         let groupEmails := JS.sort (byDateDesc h) groupEmails in
         duplicates ++
         [ {| DuplicateGroup.hash := hash;
              DuplicateGroup.emails := groupEmails;
              DuplicateGroup.subject :=
                match groupEmails with
                | first :: _ => Email.subject first
                | [] => None
                end;
              DuplicateGroup.from :=
                match groupEmails with
                | first :: _ => Some (Email.from first)
                | [] => None
                end |} ]
       else duplicates)
    groups [].

Definition findDuplicates (h : Host) (account : option string)
  : M (list DuplicateGroup.t) :=
  (all <- gets (DatabaseService.getEmails
                  {| DatabaseService.accountId := account;
                     DatabaseService.category := None;
                     DatabaseService.isRead := None;
                     DatabaseService.limit := Some 5000%nat |}) ;;
   ret (duplicatesOf h (groupByKey all)))%m.

(** The options of [findLargeAttachments]. *)
Record LargeOptions := {
  minSize : option Z;
  accountId : option string;
}.

(** [options.minSize || 5 * 1024 * 1024] *)
Definition effectiveMinSize (options : LargeOptions) : Z :=
  match minSize options with
  | Some n => if (n =? 0)%Z then 5 * 1024 * 1024 else n
  | None => 5 * 1024 * 1024
  end.

(** [attachments.reduce((sum, att) => sum + (att.size || 0), 0)] *)
Definition totalSize (email : Email.t) : Z :=
  fold_left
    (fun sum att =>
       (sum + match Attachment.size att with Some n => n | None => 0 end)%Z)
    (Email.attachments email) 0%Z.

Definition findLargeAttachments (options : LargeOptions) : M (list Email.t) :=
  (let minSize := effectiveMinSize options in
   all <- gets (DatabaseService.getEmails
                  {| DatabaseService.accountId := accountId options;
                     DatabaseService.category := None;
                     DatabaseService.isRead := None;
                     DatabaseService.limit := Some 5000%nat |}) ;;
   ret (filter (fun email => (minSize <=? totalSize email)%Z) all))%m.

(** [`${(x).toFixed(1)}`] for [x = bytes / unit]: the nearest tenth, the
    upper one when two are as near. *)
Definition toFixed1 (bytes unit : Z) : string :=
  let tenths := ((2 * 10 * bytes + unit) / (2 * unit))%Z in
  String.concat ""
    [ JS.toString (JS.VNum (tenths / 10)); ".";
      JS.toString (JS.VNum (tenths mod 10)) ].

Definition formatSize (bytes : Z) : string :=
  if (bytes <? 1024)%Z then
    String.append (JS.toString (JS.VNum bytes)) " B"
  else if (bytes <? 1024 * 1024)%Z then
    String.append (toFixed1 bytes 1024) " KB"
  else if (bytes <? 1024 * 1024 * 1024)%Z then
    String.append (toFixed1 bytes (1024 * 1024)) " MB"
  else String.append (toFixed1 bytes (1024 * 1024 * 1024)) " GB".

(** The loop that fills a [Map] from key to messages, as
    [findInactiveSubscriptions] has it. *)
Definition groupBy (key : Email.t -> string) (all : list Email.t)
  : JS.Map (list Email.t) :=
  fold_left
    (fun groups email =>
       let k := key email in
       let groups := if JS.has k groups then groups
                     else JS.set k [] groups in
       match JS.get k groups with
       | Some members => JS.set k (members ++ [email]) groups
       | None => groups
       end)
    all [].

(** [email.from.split('@')[1]?.toLowerCase() || email.from] *)
Definition domainOrSender (email : Email.t) : string :=
  JS.orElse (EmailClassifier.senderDomain (Email.from email))
            (Email.from email).

Definition marketingOf (account : option string) (w : World)
  : list Email.t :=
  DatabaseService.getEmails
    {| DatabaseService.accountId := account;
       DatabaseService.category := Some "marketing";
       DatabaseService.isRead := None;
       DatabaseService.limit := None |} w.

(** The second loop of [findInactiveSubscriptions]. *)
Definition inactiveOf (h : Host) (ninetyDaysAgo : string)
  (senderGroups : JS.Map (list Email.t)) : list Email.t :=
  fold_left
    (fun inactiveEmails (entry : string * list Email.t) =>
       let (domain, senderEmails) := entry in
       let allUnread :=
         forallb (fun e => negb (Email.isRead e)) senderEmails in
       match JS.sort (byDateDesc h) senderEmails with
       | newestEmail :: _ =>
           if allUnread && (Email.date newestEmail <? ninetyDaysAgo)
           then inactiveEmails ++ [newestEmail]
           else inactiveEmails
       | [] => inactiveEmails
       end)
    senderGroups [].

Definition findInactiveSubscriptions (h : Host) (cal : Calendar)
  (account : option string) : M (list Email.t) :=
  (now <- gets isoNow ;;
   let ninetyDaysAgo := subDaysISO cal now 90 in
   marketing <- gets (marketingOf account) ;;
   let emails := filter Email.hasUnsubscribe marketing in
   ret (inactiveOf h ninetyDaysAgo (groupBy domainOrSender emails)))%m.

(** The value that [getSubscriptionAnalysis] keeps per domain. *)
Record SubscriptionData := {
  sub_emails : list Email.t;
  sub_lastEmail : string;
  sub_readCount : nat;
  sub_hasUnsubscribe : bool;
}.

Definition subscriptionMap (marketing : list Email.t)
  : JS.Map SubscriptionData :=
  fold_left
    (fun subscriptions email =>
       let domain := domainOrSender email in
       let subscriptions :=
         if JS.has domain subscriptions then subscriptions
         else JS.set domain
                {| sub_emails := []; sub_lastEmail := Email.date email;
                   sub_readCount := 0; sub_hasUnsubscribe := false |}
                subscriptions in
       match JS.get domain subscriptions with
       | Some sub =>
           JS.set domain
             {| sub_emails := sub_emails sub ++ [email];
                sub_lastEmail :=
                  if (sub_lastEmail sub <? Email.date email)
                  then Email.date email else sub_lastEmail sub;
                sub_readCount :=
                  if Email.isRead email then S (sub_readCount sub)
                  else sub_readCount sub;
                sub_hasUnsubscribe :=
                  if Email.hasUnsubscribe email then true
                  else sub_hasUnsubscribe sub |}
             subscriptions
       | None => subscriptions
       end)
    marketing [].

(** [Math.round((readCount / count) * 100)] *)
Definition percentRead (readCount count : nat) : Z :=
  Double.mathRound
    (Double.mul (Double.div (inject_Z (Z.of_nat readCount))
                            (inject_Z (Z.of_nat count)))
                100).

Definition subscriptionOf (entry : string * SubscriptionData)
  : Subscription.t :=
  let (domain, data) := entry in
  {| Subscription.domain := domain;
     Subscription.emailCount := List.length (sub_emails data);
     Subscription.lastEmail := sub_lastEmail data;
     Subscription.readRate :=
       percentRead (sub_readCount data) (List.length (sub_emails data));
     Subscription.hasUnsubscribe := sub_hasUnsubscribe data |}.

Record SubscriptionAnalysis := {
  total : nat;
  active : nat;
  inactive : Z;
  subscriptions : list Subscription.t;
}.

(** [(a, b) => b.emailCount - a.emailCount] is not positive *)
Definition byEmailCount (a b : Subscription.t) : bool :=
  (Subscription.emailCount b <=? Subscription.emailCount a)%nat.

Definition getSubscriptionAnalysis (account : option string)
  : M SubscriptionAnalysis :=
  (marketing <- gets (marketingOf account) ;;
   let subs := map subscriptionOf (subscriptionMap marketing) in
   let active :=
     List.length (filter (fun s => (20 <? Subscription.readRate s)%Z) subs) in
   ret {| total := List.length subs;
          active := active;
          inactive := (Z.of_nat (List.length subs) - Z.of_nat active)%Z;
          subscriptions := JS.sort byEmailCount subs |})%m.

(** [priorityOrder] of [getSuggestions] *)
Definition priorityOrder (p : Priority) : Z :=
  match p with High => 0 | Medium => 1 | Low => 2 end.

(** [(a, b) => priorityOrder[a.priority] - priorityOrder[b.priority]] is not
    positive *)
Definition byPriorityOrder (a b : CleanupSuggestion.t) : bool :=
  (priorityOrder (CleanupSuggestion.priority a)
   - priorityOrder (CleanupSuggestion.priority b) <=? 0)%Z.

(** [list.length > 0 ? [suggestion] : []] *)
Definition whenever {A : Type} (test : bool) (suggestion : A) : list A :=
  if test then [suggestion] else [].

Definition getSuggestions (h : Host) (cal : Calendar)
  (account : option string) : M (list CleanupSuggestion.t) :=
  (duplicates <- findDuplicates h account ;;
   let totalDuplicates :=
     fold_left
       (fun sum g => (sum + List.length (DuplicateGroup.emails g) - 1)%nat)
       duplicates 0%nat in
   let suggestions :=
     whenever (0 <? List.length duplicates)%nat
       {| CleanupSuggestion.id := "duplicates";
          CleanupSuggestion.type := Duplicate;
          CleanupSuggestion.title :=
            String.append (JS.ofNat totalDuplicates)
                          " duplicate emails found";
          CleanupSuggestion.description :=
            String.concat ""
              [ "Found "; JS.ofNat (List.length duplicates);
                " groups of duplicate emails that can be cleaned up." ];
          CleanupSuggestion.emailIds :=
            flat_map (fun g => map Email.id (skipn 1 (DuplicateGroup.emails g)))
                     duplicates;
          CleanupSuggestion.estimatedSpace := None;
          CleanupSuggestion.priority := Medium;
          CleanupSuggestion.icon := "copy";
          CleanupSuggestion.action := "Remove duplicates" |} in
   inactiveSubscriptions <- findInactiveSubscriptions h cal account ;;
   let suggestions :=
     suggestions ++
     whenever (0 <? List.length inactiveSubscriptions)%nat
       {| CleanupSuggestion.id := "inactive-subscriptions";
          CleanupSuggestion.type := InactiveSubscription;
          CleanupSuggestion.title :=
            String.append (JS.ofNat (List.length inactiveSubscriptions))
                          " inactive subscriptions";
          CleanupSuggestion.description :=
            "Newsletters and subscriptions you haven't opened in over 90 days.";
          CleanupSuggestion.emailIds := map Email.id inactiveSubscriptions;
          CleanupSuggestion.estimatedSpace := None;
          CleanupSuggestion.priority := High;
          CleanupSuggestion.icon := "mail-x";
          CleanupSuggestion.action := "Unsubscribe all" |} in
   marketingEmails <- gets (marketingOf account) ;;
   let suggestions :=
     suggestions ++
     whenever (50 <? List.length marketingEmails)%nat
       {| CleanupSuggestion.id := "marketing-cleanup";
          CleanupSuggestion.type := Spam;
          CleanupSuggestion.title :=
            String.append (JS.ofNat (List.length marketingEmails))
                          " promotional emails";
          CleanupSuggestion.description :=
            "Clean up old promotional emails to reduce inbox clutter.";
          CleanupSuggestion.emailIds := map Email.id marketingEmails;
          CleanupSuggestion.estimatedSpace := None;
          CleanupSuggestion.priority := Medium;
          CleanupSuggestion.icon := "megaphone";
          CleanupSuggestion.action := "Archive all" |} in
   largeAttachments <-
     findLargeAttachments
       {| minSize := Some (5 * 1024 * 1024)%Z; accountId := account |} ;;
   let totalSize :=
     fold_left
       (fun sum e =>
          (sum + match Email.size e with Some n => n | None => 0 end)%Z)
       largeAttachments 0%Z in
   let suggestions :=
     suggestions ++
     whenever (0 <? List.length largeAttachments)%nat
       {| CleanupSuggestion.id := "large-attachments";
          CleanupSuggestion.type := LargeAttachment;
          CleanupSuggestion.title :=
            String.append (JS.ofNat (List.length largeAttachments))
                          " emails with large attachments";
          CleanupSuggestion.description :=
            String.concat ""
              [ "Emails with attachments over 5MB, consuming ";
                formatSize totalSize; "." ];
          CleanupSuggestion.emailIds := map Email.id largeAttachments;
          CleanupSuggestion.estimatedSpace := Some totalSize;
          CleanupSuggestion.priority := Low;
          CleanupSuggestion.icon := "paperclip";
          CleanupSuggestion.action := "Download & archive" |} in
   now <- gets isoNow ;;
   let oneYearAgo := subDaysISO cal now 365 in
   shopping <- gets (DatabaseService.getEmails
                       {| DatabaseService.accountId := account;
                          DatabaseService.category := Some "shopping";
                          DatabaseService.isRead := None;
                          DatabaseService.limit := None |}) ;;
   let oldTransactional :=
     filter (fun e => (Email.date e <? oneYearAgo)) shopping in
   let suggestions :=
     suggestions ++
     whenever (0 <? List.length oldTransactional)%nat
       {| CleanupSuggestion.id := "old-transactional";
          CleanupSuggestion.type := OldTransactional;
          CleanupSuggestion.title :=
            String.append (JS.ofNat (List.length oldTransactional))
                          " old receipts & confirmations";
          CleanupSuggestion.description :=
            "Shopping receipts and order confirmations older than 1 year.";
          CleanupSuggestion.emailIds := map Email.id oldTransactional;
          CleanupSuggestion.estimatedSpace := None;
          CleanupSuggestion.priority := Low;
          CleanupSuggestion.icon := "shopping-cart";
          CleanupSuggestion.action := "Archive all" |} in
   unreadNewsletters <-
     gets (DatabaseService.getEmails
             {| DatabaseService.accountId := account;
                DatabaseService.category := Some "marketing";
                DatabaseService.isRead := Some false;
                DatabaseService.limit := None |}) ;;
   let suggestions :=
     suggestions ++
     whenever (20 <? List.length unreadNewsletters)%nat
       {| CleanupSuggestion.id := "unread-newsletters";
          CleanupSuggestion.type := UnreadNewsletters;
          CleanupSuggestion.title :=
            String.append (JS.ofNat (List.length unreadNewsletters))
                          " unread newsletters";
          CleanupSuggestion.description :=
            "Newsletters you never opened - consider unsubscribing.";
          CleanupSuggestion.emailIds := map Email.id unreadNewsletters;
          CleanupSuggestion.estimatedSpace := None;
          CleanupSuggestion.priority := Medium;
          CleanupSuggestion.icon := "newspaper";
          CleanupSuggestion.action := "Review & unsubscribe" |} in
   ret (JS.sort byPriorityOrder suggestions))%m.

(** The loops of the cases [archive] and [delete] of [executeAction]. *)
Definition forEachStored (emailIds : list string)
  (act : string -> string -> M unit) : M unit :=
  forOf emailIds
    (fun emailId =>
       (email <- gets (DatabaseService.getEmail emailId) ;;
        match email with
        | Some email => act (Email.accountId email) emailId
        | None => ret tt
        end)%m).

Definition executeAction (h : Host) (action : CleanupAction.t)
  : M CleanupAction.result :=
  let emailIds :=
    match CleanupAction.emailIds action with
    | Some ids => ids
    | None => []
    end in
  let type := CleanupAction.type action in
  let count := JS.ofNat (List.length emailIds) in
  if (type =? "archive") then
    (forEachStored emailIds (EmailProviderManager.archiveEmail h) ;;;
     ret {| CleanupAction.success := true;
            CleanupAction.message :=
              String.concat "" ["Archived "; count; " emails"] |})%m
  else if (type =? "delete") then
    (forEachStored emailIds (EmailProviderManager.deleteEmail h) ;;;
     ret {| CleanupAction.success := true;
            CleanupAction.message :=
              String.concat "" ["Deleted "; count; " emails"] |})%m
  else if (type =? "mark_read") then
    (modify (DatabaseService.markEmailsRead emailIds true) ;;;
     ret {| CleanupAction.success := true;
            CleanupAction.message :=
              String.concat "" ["Marked "; count; " emails as read"] |})%m
  else if (type =? "unsubscribe") then
    (unsubscribeResults <- bulkUnsubscribe h emailIds ;;
     ret {| CleanupAction.success := true;
            CleanupAction.message :=
              String.concat ""
                [ "Opened unsubscribe links for ";
                  JS.ofNat (processed unsubscribeResults); " emails" ] |})%m
  else if (type =? "download_attachments") then
    ret {| CleanupAction.success := true;
           CleanupAction.message := "Attachments downloaded" |}
  else
    ret {| CleanupAction.success := false;
           CleanupAction.message := "Unknown action type" |}.

End CleanupService.

(* ================================================================== *)
(** ** Notions that the statements use *)

(** [a] may stand in front of [b] for the comparator [before]. *)
Definition inOrder {A : Type} (before : A -> A -> bool) (a b : A) : Prop :=
  before a b = true.

(** Whether a condition set matches a message in full. *)
Definition conditionsMatch (h : Host) (email : Email.t)
  (conditions : list RuleCondition.t) : bool :=
  match RulesEngine.matchesConditions h email conditions with
  | Ok true => true
  | _ => false
  end.

Definition ruleMatches (h : Host) (email : Email.t) (rule : RuleRow.t)
  : bool :=
  conditionsMatch h email (RuleRow.conditions rule).

(** A call that ends by throwing [Error('Rule not found')] and has written
    nothing. *)
Definition raisesNotFound {A : Type} (m : M A) (w : World) : Prop :=
  m w = (Thrown "Rule not found", w).

(** The window of [testRule]: the 1000 most recent messages. *)
Definition testWindow (w : World) : list Email.t :=
  DatabaseService.getEmails
    {| DatabaseService.accountId := None;
       DatabaseService.category := None;
       DatabaseService.isRead := None;
       DatabaseService.limit := Some 1000%nat |} w.

(** [a] is evaluated no later than [b]: higher priority first, and for one
    priority the earlier [created_at] first. *)
Definition evaluatedBefore (a b : RuleRow.t) : Prop :=
  (RuleRow.priority b < RuleRow.priority a)%Z
  \/ (RuleRow.priority a = RuleRow.priority b
      /\ (RuleRow.created_at a <=? RuleRow.created_at b) = true).

(** The fields and the operators that [matchesCondition] has a case for. *)
Definition recognizedFields : list string :=
  [ "from"; "to"; "subject"; "body"; "category"; "date"; "hasAttachment";
    "size" ].

Definition recognizedOperators : list string :=
  [ "contains"; "equals"; "startsWith"; "endsWith"; "regex"; "before";
    "after"; "greaterThan"; "lessThan" ].

(** A condition with a malformed regular expression, or with a field or an
    operator outside the recognized ones. *)
Definition failsClosed (h : Host) (c : RuleCondition.t) : Prop :=
  (RuleCondition.operator c = "regex"
   /\ regex_valid h (RuleCondition.value c) = false)
  \/ ~ In (RuleCondition.field c) recognizedFields
  \/ ~ In (RuleCondition.operator c) recognizedOperators.

(** *** Sample values for the examples *)

(** A host for the examples: its RegExp rejects the source "(" and tests
    every other source by literal containment, [Number] reads no string,
    two dates are known to [Date], every account has a provider and every
    remote call resolves. *)
Definition sampleHost : Host :=
  {| regex_valid := fun source => negb (source =? "(");
     regex_test := fun source text => JS.includes text (JS.toLowerCase source);
     parseNumber := fun _ => None;
     getTime := fun text =>
       if (text =? "2024-03-01T10:00:00.000Z") then Some 1709287200000%Z
       else if (text =? "2024-03-02T10:00:00.000Z") then Some 1709373600000%Z
       else None;
     nanoid := fun n =>
       String.append "rule-" (NilZero.string_of_uint (Nat.to_uint n));
     hasProvider := fun _ => true;
     remoteResolves := fun _ => true;
     openExternalResolves := fun _ => true |}.

Definition sampleEmail (id from subject date : string)
  (category link : option string) (attachments : list Attachment.t)
  : Email.t :=
  {| Email.id := id; Email.accountId := "account-1"; Email.from := from;
     Email.fromName := None; Email.to := ToArray ["me@example.org"];
     Email.subject := Some subject; Email.snippet := Some "";
     Email.body := None; Email.date := date; Email.isRead := false;
     Email.labels := []; Email.category := category; Email.importance := 0.5;
     Email.keywords := []; Email.attachments := attachments;
     Email.size := Some 0%Z; Email.unsubscribeLink := link;
     Email.hasUnsubscribe := JS.truthy link |}.

Definition sampleWorld (es : list Email.t) (rs : list RuleRow.t) : World :=
  {| emails := es; rules := rs; sqlNow := "2024-03-03 09:00:00";
     isoNow := "2024-03-03T09:00:00.000Z"; nonce := 0; remoteLog := [];
     opened := [] |}.

Definition malformedRegexCondition : RuleCondition.t :=
  {| RuleCondition.field := "subject"; RuleCondition.operator := "regex";
     RuleCondition.value := "(" |}.

Definition statementEmail : Email.t :=
  sampleEmail "m1" "alerts@bank.com" "Your statement is ready"
              "2024-03-01T10:00:00.000Z" (Some "uncategorized") None [].

(** The rule and the message of the scenario of the specification. *)
Definition bankConditions : list RuleCondition.t :=
  [ {| RuleCondition.field := "from"; RuleCondition.operator := "contains";
       RuleCondition.value := "@bank.com" |} ].

Definition bankActions : list RuleAction.t :=
  [ {| RuleAction.type := "categorize"; RuleAction.value := Some "financial" |} ].

(** The store once [createRule] has saved the rule of the scenario. *)
Definition bankWorld : World :=
  snd (RulesEngine.createRule sampleHost "Bank mail" bankConditions
         bankActions (Some "gmail") None
         (sampleWorld [statementEmail] [])).

(** The text of a part of a message that may be absent. *)
Definition textOf (part : option string) : string :=
  match part with Some text => text | None => "" end.

(** The content of a message as the specification scores it: the subject,
    the snippet and the leading 2000 characters of the body, put together
    with a space between them and lower-cased. *)
Definition statedContent (email : Email.t) : string :=
  JS.toLowerCase
    (String.append (textOf (Email.subject email))
       (String.append " "
          (String.append (textOf (Email.snippet email))
             (String.append " "
                (JS.substring0 2000 (textOf (Email.body email))))))).

(** The sender of a message as the specification scores it: the address
    and the display name, with a space between them and lower-cased. *)
Definition statedSender (email : Email.t) : string :=
  JS.toLowerCase
    (String.append (Email.from email)
       (String.append " " (textOf (Email.fromName email)))).

(** What a category collects for a message, in the order in which it is
    accumulated: 2 x weight for each content pattern that matches, 3 x
    weight for each sender pattern that matches, 0.5 x weight for each
    keyword present in the content, and then the bonus of the marketing
    category for a message that carries an unsubscribe link. *)
Definition statedContributions (h : Host) (email : Email.t)
  (c : CategoryPattern.t) : list Q :=
  let weight := CategoryPattern.weight c in
  map (fun _ => Double.mul 2 weight)
      (filter (fun p => regex_test h p (statedContent email))
              (CategoryPattern.patterns c))
  ++ map (fun _ => Double.mul 3 weight)
         (filter (fun p => regex_test h p (statedSender email))
                 (CategoryPattern.senderPatterns c))
  ++ map (fun _ => Double.mul (Double.lit 0.5) weight)
         (filter (fun k => JS.includes (statedContent email)
                                       (JS.toLowerCase k))
                 (CategoryPattern.keywords c))
  ++ (if (CategoryPattern.id c =? "marketing") && Email.hasUnsubscribe email
      then [1] else []).

(** The accumulated score of a category: the sum of its contributions,
    taken one after the other in the numbers of the language. *)
Definition statedScore (h : Host) (email : Email.t) (c : CategoryPattern.t)
  : Q :=
  fold_left Double.add (statedContributions h email c) 0.

(** A message from a payment service that reads like a newsletter, and a
    host whose RegExp does on it what the expressions of the table do: of
    the alternatives of a source, it finds "paypal", "shop now" and
    "weekly digest" in a text, and no other occurs in this message. *)
Definition digestEmail : Email.t :=
  {| Email.id := "m9"; Email.accountId := "account-1";
     Email.from := "service@paypal.com"; Email.fromName := None;
     Email.to := ToArray ["me@example.org"];
     Email.subject := Some "Weekly digest"; Email.snippet := Some "shop now";
     Email.body := None; Email.date := "2024-03-01T10:00:00.000Z";
     Email.isRead := false; Email.labels := [];
     Email.category := Some "uncategorized"; Email.importance := 0.5;
     Email.keywords := []; Email.attachments := []; Email.size := Some 0%Z;
     Email.unsubscribeLink := None; Email.hasUnsubscribe := false |}.

Definition digestHost : Host :=
  {| regex_valid := fun _ => true;
     regex_test := fun source text =>
       existsb (fun alternative =>
                  JS.includes source alternative
                  && JS.includes text alternative)
               [ "paypal"; "shop now"; "weekly digest" ];
     parseNumber := parseNumber sampleHost;
     getTime := getTime sampleHost;
     nanoid := nanoid sampleHost;
     hasProvider := hasProvider sampleHost;
     remoteResolves := remoteResolves sampleHost;
     openExternalResolves := openExternalResolves sampleHost |}.

(** The score that the generic pass of [classify] gives a category. *)
Definition categoryScore (h : Host) (email : Email.t)
  (c : CategoryPattern.t) : Q :=
  fst (EmailClassifier.scoreCategory h (EmailClassifier.fullText email)
         (EmailClassifier.senderText email) c []).

(** The ids of the configured category definitions. *)
Definition configuredIds : list string :=
  map CategoryPattern.id EmailClassifier.categoryPatterns.

(** A category that is a configured id or "uncategorized". *)
Definition validCategory (c : option string) : bool :=
  match c with
  | Some s => existsb (String.eqb s) ("uncategorized" :: configuredIds)
  | None => false
  end.

(** The operations that write categories: the classification of the new
    messages of an account, and a pass of the rules over a message. *)
Inductive Operation :=
| ClassifyNew (account : string)
| ApplyRules (email : Email.t).

Definition perform (h : Host) (op : Operation) (w : World) : World :=
  match op with
  | ClassifyNew account => snd (classifyNewEmails h account w)
  | ApplyRules email => snd (RulesEngine.applyRulesToEmail h email w)
  end.

Definition performAll (h : Host) (ops : list Operation) (w : World)
  : World :=
  fold_left (fun w op => perform h op w) ops w.

Definition categoriesValid (w : World) : Prop :=
  forall e, In e (emails w) -> validCategory (Email.category e) = true.

(** [c] is the value of a [categorize] action of one of the rules. *)
Definition categorizeValue (rs : list RuleRow.t) (c : option string)
  : Prop :=
  exists r a,
    In r rs /\ In a (RuleRow.actions r)
    /\ RuleAction.type a = "categorize" /\ RuleAction.value a = c.

Definition categoryAllowed (rs : list RuleRow.t) (c : option string)
  : Prop :=
  validCategory c = true \/ categorizeValue rs c.

(** Every stored category is in [S], and so is every value that a stored
    rule may write. *)
Definition categoriesWithin (S : option string -> Prop) (w : World) : Prop :=
  (forall e, In e (emails w) -> S (Email.category e))
  /\ (forall r a, In r (rules w) -> In a (RuleRow.actions r) ->
                  RuleAction.type a = "categorize" -> S (RuleAction.value a)).

(** A rule of the user that files bank mail under a category of its own. *)
Definition receiptsActions : list RuleAction.t :=
  [ {| RuleAction.type := "categorize"; RuleAction.value := Some "receipts" |} ].

Definition receiptsWorld : World :=
  snd (RulesEngine.createRule sampleHost "Receipts" bankConditions
         receiptsActions (Some "gmail") None
         (sampleWorld [statementEmail] [])).

(** The unsubscribe link stored for an id, if a message with this id is
    stored and has a link. *)
Definition storedLink (w : World) (emailId : string) : option string :=
  match DatabaseService.getEmail emailId w with
  | Some e => Email.unsubscribeLink e
  | None => None
  end.

(** The stored message has a link that is not [null]. *)
Definition hasNonNullLink (w : World) (emailId : string) : bool :=
  match storedLink w emailId with Some _ => true | None => false end.

(** The stored message has a link that is neither [null] nor empty. *)
Definition hasUsableLink (w : World) (emailId : string) : bool :=
  JS.truthy (storedLink w emailId).

Definition linkOf (w : World) (emailId : string) : string :=
  JS.orElse (storedLink w emailId) "".

(** A store whose second message has an empty unsubscribe link. *)
Definition newsletterEmail : Email.t :=
  sampleEmail "m2" "news@shop.example" "Spring sale"
              "2024-03-02T10:00:00.000Z" (Some "marketing")
              (Some "https://shop.example/unsubscribe") [].

Definition emptyLinkEmail : Email.t :=
  sampleEmail "m3" "news@shop.example" "Spring sale"
              "2024-03-01T10:00:00.000Z" (Some "marketing") (Some "") [].

Definition linksWorld : World :=
  sampleWorld [statementEmail; newsletterEmail; emptyLinkEmail] [].

(** A message with one attachment of 1024 bytes. *)
Definition attachmentEmail : Email.t :=
  sampleEmail "m4" "alice@example.org" "Slides" "2024-03-02T10:00:00.000Z"
              (Some "uncategorized") None
              [ {| Attachment.id := "a1"; Attachment.filename := "slides.pdf";
                   Attachment.mimeType := "application/pdf";
                   Attachment.size := Some 1024%Z |} ].

Definition attachmentWorld : World := sampleWorld [attachmentEmail] [].

(** The window of [findLargeAttachments] and of [findDuplicates]: the 5000
    most recent messages, of the account when one is given. *)
Definition cleanupWindow (account : option string) (w : World)
  : list Email.t :=
  DatabaseService.getEmails
    {| DatabaseService.accountId := account;
       DatabaseService.category := None;
       DatabaseService.isRead := None;
       DatabaseService.limit := Some 5000%nat |} w.

(** The messages of a list that carry a given grouping key. *)
Definition membersOf (key : string) (l : list Email.t) : list Email.t :=
  filter (fun e => (CleanupService.duplicateKey e =? key)) l.

(** The group that [findDuplicates] reports for an entry of its map. *)
Definition groupOf (h : Host) (entry : string * list Email.t)
  : DuplicateGroup.t :=
  let groupEmails := JS.sort (CleanupService.byDateDesc h) (snd entry) in
  {| DuplicateGroup.hash := fst entry;
     DuplicateGroup.emails := groupEmails;
     DuplicateGroup.subject :=
       match groupEmails with
       | first :: _ => Email.subject first
       | [] => None
       end;
     DuplicateGroup.from :=
       match groupEmails with
       | first :: _ => Some (Email.from first)
       | [] => None
       end |}.




(** A host whose shell refuses every link. *)
Definition offlineHost : Host :=
  {| regex_valid := regex_valid sampleHost;
     regex_test := regex_test sampleHost;
     parseNumber := parseNumber sampleHost;
     getTime := getTime sampleHost;
     nanoid := nanoid sampleHost;
     hasProvider := hasProvider sampleHost;
     remoteResolves := remoteResolves sampleHost;
     openExternalResolves := fun _ => false |}.

(** A store with the same newsletter received twice. *)
Definition duplicateWorld : World :=
  sampleWorld
    [ statementEmail;
      sampleEmail "m5" "news@shop.example" "Spring Sale "
                  "2024-03-01T10:00:00.000Z" (Some "marketing") None [];
      newsletterEmail ] [].

(** Two rules of equal priority created one second apart, the first for
    bank mail, the second for lunch invitations; then, a second later, a
    pass over a message that only the first rule matches. *)
Definition lunchConditions : list RuleCondition.t :=
  [ {| RuleCondition.field := "subject"; RuleCondition.operator := "contains";
       RuleCondition.value := "lunch" |} ].

Definition twoRulesWorld : World :=
  let w1 :=
    snd (RulesEngine.createRule sampleHost "Bank mail" bankConditions
           bankActions (Some "gmail") None
           (sampleWorld [statementEmail] [])) in
  snd (RulesEngine.createRule sampleHost "Lunch" lunchConditions
         [ {| RuleAction.type := "markRead"; RuleAction.value := None |} ]
         (Some "gmail") None
         (setClock "2024-03-03 09:00:01" "2024-03-03T09:00:01.000Z" w1)).

Definition twoRulesLater : World :=
  snd (RulesEngine.applyRulesToEmail sampleHost statementEmail
         (setClock "2024-03-03 09:00:02" "2024-03-03T09:00:02.000Z"
                   twoRulesWorld)).

(* ================================================================== *)
(** ** Notions of the further properties *)

(** The row that a save of [rule] at the time [now] leaves, for a rule
    whose provider is set. *)
Definition rowOf (rule : Rule.t) (now : string) : RuleRow.t :=
  {| RuleRow.id := Rule.id rule;
     RuleRow.name := Rule.name rule;
     RuleRow.enabled := Rule.enabled rule;
     RuleRow.conditions := Rule.conditions rule;
     RuleRow.actions := Rule.actions rule;
     RuleRow.provider := match Rule.provider rule with
                         | Some p => p
                         | None => None
                         end;
     RuleRow.priority := Rule.priority rule;
     RuleRow.hit_count := 0;
     RuleRow.last_hit := None;
     RuleRow.created_at := now;
     RuleRow.updated_at := now |}.


(** The primary key of [emails] holds. *)
Definition emailIdsDistinct (w : World) : Prop :=
  NoDup (map Email.id (emails w)).

(** Between [before] and [after], only the message called [id] was written
    or removed: every other message is still there, and a message of
    [after] that was not in [before] is a new version of the message
    [id]. *)
Definition onlyTouches (id : string) (before after : list Email.t) : Prop :=
  (forall e, In e before -> Email.id e <> id -> In e after)
  /\ (forall e', In e' after ->
        In e' before
        \/ (Email.id e' = id /\ exists e, In e before /\ Email.id e = id)).

Definition noUpdates : Rule.updates :=
  {| Rule.u_id := None; Rule.u_name := None; Rule.u_enabled := None;
     Rule.u_conditions := None; Rule.u_actions := None;
     Rule.u_provider := None; Rule.u_priority := None;
     Rule.u_hitCount := None; Rule.u_lastHit := None |}.

(** A condition on the date of a message. *)
Definition dateCondition (operator value : string) : RuleCondition.t :=
  {| RuleCondition.field := "date"; RuleCondition.operator := operator;
     RuleCondition.value := value |}.

(** The condition that a rule on attachments is written with. *)
Definition hasAttachmentCondition (value : string) : RuleCondition.t :=
  {| RuleCondition.field := "hasAttachment";
     RuleCondition.operator := "equals"; RuleCondition.value := value |}.

Definition deleteAction : RuleAction.t :=
  {| RuleAction.type := "delete"; RuleAction.value := None |}.

(** A host whose provider rejects every call. *)
Definition rejectingHost : Host :=
  {| regex_valid := regex_valid sampleHost;
     regex_test := regex_test sampleHost;
     parseNumber := parseNumber sampleHost;
     getTime := getTime sampleHost;
     nanoid := nanoid sampleHost;
     hasProvider := fun _ => true;
     remoteResolves := fun _ => false;
     openExternalResolves := fun _ => false |}.



(** [a] is dated no earlier than [b], by the order of the stored text. *)
Definition datedNoEarlier (a b : Email.t) : Prop :=
  (Email.date b <=? Email.date a) = true.

(** A word that [classify] may report for a message: a keyword of the
    table that the text of the message contains. *)
Definition reportable (email : Email.t) (k : string) : Prop :=
  (exists c, In c EmailClassifier.categoryPatterns
             /\ In k (CategoryPattern.keywords c))
  /\ JS.includes (EmailClassifier.fullText email) (JS.toLowerCase k) = true.

(** The text that [calculateImportance] tries its patterns on. *)
Definition importanceText (email : Email.t) : string :=
  JS.toLowerCase
    (JS.join " " [ JS.orElse (Email.subject email) "";
                   JS.orElse (Email.snippet email) "" ]).

(** Nothing in the table fires on the message: no content pattern, no
    sender pattern, no keyword, and none of the patterns of urgency. *)
Definition silent (h : Host) (email : Email.t) : bool :=
  forallb
    (fun c =>
       forallb (fun p => negb (regex_test h p (EmailClassifier.fullText email)))
               (CategoryPattern.patterns c)
       && forallb (fun p => negb (regex_test h p
                                    (EmailClassifier.senderText email)))
                  (CategoryPattern.senderPatterns c)
       && forallb (fun k => negb (JS.includes (EmailClassifier.fullText email)
                                              (JS.toLowerCase k)))
                  (CategoryPattern.keywords c))
    EmailClassifier.categoryPatterns
  && forallb (fun p => negb (regex_test h p (importanceText email)))
             EmailClassifier.urgentPatterns.

(** The messages that [classifyNewEmails] goes through. *)
Definition pending (account : string) (e : Email.t) : bool :=
  (Email.accountId e =? account)
  && match Email.category e with
     | Some c => (c =? "uncategorized")
     | None => false
     end.

(** A message with the category, the importance and the keywords that
    [classify] gives it. *)
Definition classified (h : Host) (e : Email.t) : Email.t :=
  let classification := EmailClassifier.classify h e in
  Email.setMetadata (ClassificationResult.importance classification)
                    (ClassificationResult.keywords classification)
    (Email.setCategory
       (Some (ClassificationResult.category classification)) e).

Definition quietEmail (link : option string) : Email.t :=
  sampleEmail "m7" "zed@example.org" "zzz" "2024-03-01T10:00:00.000Z"
              (Some "uncategorized") link [].

(** The action that the cleanup page sends to delete messages. *)
Definition deleteRequest (emailIds : list string) : CleanupAction.t :=
  {| CleanupAction.type := "delete"; CleanupAction.emailIds := Some emailIds |}.

(** The messages whose id is not in a list. *)
Definition notListed (emailIds : list string) (e : Email.t) : bool :=
  negb (existsb (String.eqb (Email.id e)) emailIds).

(** A host whose provider rejects the deletion of one message. *)
Definition hostRejecting (emailId : string) : Host :=
  {| regex_valid := regex_valid sampleHost;
     regex_test := regex_test sampleHost;
     parseNumber := parseNumber sampleHost;
     getTime := getTime sampleHost;
     nanoid := nanoid sampleHost;
     hasProvider := fun _ => true;
     remoteResolves := fun call =>
       match call with
       | RemoteDelete id => negb (id =? emailId)
       | _ => true
       end;
     openExternalResolves := fun url =>
       negb (url =? "https://shop.example/unsubscribe") |}.

(** The entries of a list that a key function sends to [k]. *)
Definition withKey (A : Type) (key : A -> string) (k : string)
  (l : list A) : list A :=
  filter (fun e => (key e =? k)) l.

(** The shape that the grouping loops of the cleanup service share: a map
    from key to a value that starts at [init] for the first message of the
    key and takes each message of the key in with [step]. *)
Section KeyedFold.
Variable V : Type.
Variable key : Email.t -> string.
Variable init : Email.t -> V.
Variable step : V -> Email.t -> V.

Definition keyedFold (l : list Email.t) : JS.Map V :=
  fold_left
    (fun groups email =>
       let k := key email in
       let groups := if JS.has k groups then groups
                     else JS.set k (init email) groups in
       match JS.get k groups with
       | Some v => JS.set k (step v email) groups
       | None => groups
       end)
    l [].
End KeyedFold.

(** The value that [getSubscriptionAnalysis] starts a domain with, and the
    way it takes a message in. *)
Definition subscriptionInit (email : Email.t)
  : CleanupService.SubscriptionData :=
  {| CleanupService.sub_emails := [];
     CleanupService.sub_lastEmail := Email.date email;
     CleanupService.sub_readCount := 0;
     CleanupService.sub_hasUnsubscribe := false |}.

Definition subscriptionStep (sub : CleanupService.SubscriptionData)
  (email : Email.t) : CleanupService.SubscriptionData :=
  {| CleanupService.sub_emails := CleanupService.sub_emails sub ++ [email];
     CleanupService.sub_lastEmail :=
       if (CleanupService.sub_lastEmail sub <? Email.date email)
       then Email.date email else CleanupService.sub_lastEmail sub;
     CleanupService.sub_readCount :=
       if Email.isRead email then S (CleanupService.sub_readCount sub)
       else CleanupService.sub_readCount sub;
     CleanupService.sub_hasUnsubscribe :=
       if Email.hasUnsubscribe email then true
       else CleanupService.sub_hasUnsubscribe sub |}.

(** The marketing messages of the account that carry the unsubscribe
    flag: the ones that [findInactiveSubscriptions] groups. *)
Definition subscribed (account : option string) (w : World)
  : list Email.t :=
  filter Email.hasUnsubscribe (CleanupService.marketingOf account w).

Definition sampleCalendar : Calendar :=
  {| msAgoISO := fun _ _ => "2024-02-25T09:00:00.000Z";
     subDaysISO := fun _ days =>
       if (days <=? 90)%nat then "2023-12-04T09:00:00.000Z"
       else "2023-03-04T09:00:00.000Z" |}.

(** [a] has at least as many messages as [b]. *)
Definition notFewer (a b : Subscription.t) : Prop :=
  (Subscription.emailCount b <= Subscription.emailCount a)%nat.

(** [a] is at least as urgent as [b]: high before medium before low. *)
Definition noLessUrgent (a b : CleanupSuggestion.t) : Prop :=
  (CleanupService.priorityOrder (CleanupSuggestion.priority a)
   <= CleanupService.priorityOrder (CleanupSuggestion.priority b))%Z.

(** The id belongs to a stored message. *)
Definition storedId (w : World) (id : string) : Prop :=
  exists e, In e (emails w) /\ Email.id e = id.

(** What every suggestion of the rules engine satisfies: a confidence above
    0.8 and at most 1, a rule that is enabled, at most three sample
    messages, all of them stored, and no action that files messages as
    "uncategorized". *)
Definition plausible (w : World) (s : RuleSuggestion.t) : Prop :=
  0.8 < RuleSuggestion.confidence s
  /\ RuleSuggestion.confidence s <= 1
  /\ SuggestedRule.enabled (RuleSuggestion.rule s) = true
  /\ (List.length (RuleSuggestion.sampleEmails s) <= 3)%nat
  /\ (forall e, In e (RuleSuggestion.sampleEmails s) -> In e (emails w))
  /\ (forall a, In a (SuggestedRule.actions (RuleSuggestion.rule s)) ->
        RuleAction.type a = "categorize" ->
        RuleAction.value a <> Some "uncategorized").

(** [b] differs from [a] at most by the number of ids drawn. *)
Definition sameStore (a b : World) : Prop :=
  emails b = emails a /\ rules b = rules a /\ sqlNow b = sqlNow a
  /\ isoNow b = isoNow a /\ remoteLog b = remoteLog a
  /\ opened b = opened a /\ (nonce a <= nonce b)%nat.

(** [a] is at least as confident as [b]. *)
Definition noLessConfident (a b : RuleSuggestion.t) : Prop :=
  RuleSuggestion.confidence b <= RuleSuggestion.confidence a.




(** What the Gmail format keeps of a rule: its name, the field and the
    value of its conditions on sender, recipient and subject, the type of
    its actions that archive, mark as read, delete or label, and the value
    of the ones that label. *)
Definition gmailView (rule : RuleRow.t)
  : string * list (string * string) * list (string * option string) :=
  (RuleRow.name rule,
   map (fun c => (RuleCondition.field c, RuleCondition.value c))
       (filter (fun c =>
                  existsb (String.eqb (RuleCondition.field c))
                          ["from"; "to"; "subject"])
               (RuleRow.conditions rule)),
   map (fun a => (RuleAction.type a,
                  if (RuleAction.type a =? "label") then RuleAction.value a
                  else None))
       (filter (fun a =>
                  existsb (String.eqb (RuleAction.type a))
                          ["archive"; "markRead"; "delete"; "label"])
               (RuleRow.actions rule))).

(** The filter that the Gmail format writes for what it keeps of a rule. *)
Definition gmailRender
  (view : string * list (string * string) * list (string * option string))
  : Json :=
  let '(name, criteria, actions) := view in
  JObj [ ("name", JStr name);
         ("criteria",
          JStr (JS.join " "
                  (map (fun c => String.append (fst c)
                                   (String.append ":" (snd c)))
                       criteria)));
         ("actions",
          JArr (map JStr
                  (map (fun a =>
                          if (fst a =? "archive") then "shouldArchive"
                          else if (fst a =? "markRead") then "shouldMarkAsRead"
                          else if (fst a =? "delete") then "shouldTrash"
                          else String.append "label:"
                                 (RulesEngine.showValue (snd a)))
                       actions))) ].

(** [JSON.stringify] stands for any rendering in the statements on the
    export; this one keeps the number of entries only. *)
Definition countEntries (json : Json) : string :=
  match json with
  | JArr items => JS.ofNat (List.length items)
  | _ => ""
  end.

(** The store of the scenario with the operator of the rule changed, the
    rule disabled and its priority raised. *)
Definition bankWorldVariant : World :=
  setRules
    (map (fun r =>
            {| RuleRow.id := RuleRow.id r; RuleRow.name := RuleRow.name r;
               RuleRow.enabled := false;
               RuleRow.conditions :=
                 map (fun c =>
                        {| RuleCondition.field := RuleCondition.field c;
                           RuleCondition.operator := "equals";
                           RuleCondition.value := RuleCondition.value c |})
                     (RuleRow.conditions r);
               RuleRow.actions := RuleRow.actions r;
               RuleRow.provider := RuleRow.provider r;
               RuleRow.priority := 9;
               RuleRow.hit_count := RuleRow.hit_count r;
               RuleRow.last_hit := RuleRow.last_hit r;
               RuleRow.created_at := RuleRow.created_at r;
               RuleRow.updated_at := RuleRow.updated_at r |})
         (rules bankWorld))
    bankWorld.

(** A pair of sender and category whose sender is at the domain [d]. *)
Definition fromDomain (d : string) (labelled : string * string) : bool :=
  match EmailClassifier.senderDomain (fst labelled) with
  | Some x => (x =? d)
  | None => false
  end.

(** The turn of the first loop of [getSuggestedRules] for a pair whose
    sender is at [domain]. *)
Definition countIn (domain category : string)
  (senderCategories : JS.Map (JS.Map Z)) : JS.Map (JS.Map Z) :=
  let senderCategories :=
    if JS.has domain senderCategories then senderCategories
    else JS.set domain [] senderCategories in
  match JS.get domain senderCategories with
  | Some categories =>
      JS.set domain
        (JS.set category
           (match JS.get category categories with
            | Some n => n
            | None => 0
            end + 1)%Z
           categories)
        senderCategories
  | None => senderCategories
  end.

(** The size of a list as a count held in a [Map]: no entry for none. *)
Definition someCount (A : Type) (l : list A) : option Z :=
  match l with
  | [] => None
  | _ :: _ => Some (Z.of_nat (List.length l))
  end.

(** The action that the cleanup page sends to archive messages. *)
Definition archiveRequest (emailIds : list string) : CleanupAction.t :=
  {| CleanupAction.type := "archive";
     CleanupAction.emailIds := Some emailIds |}.

(** A calendar for which every message of the samples is older than the
    instants that the cleanup service computes. *)
Definition lateCalendar : Calendar :=
  {| msAgoISO := fun _ _ => "2025-01-01T00:00:00.000Z";
     subDaysISO := fun _ _ => "2025-01-01T00:00:00.000Z" |}.

(* ================================================================== *)
(** ** Facts about the built-ins *)

Unset Implicit Arguments.

(** Case analysis on the test of a conditional of the goal. *)
Ltac case_if :=
  match goal with
  | |- context [if ?b then _ else _] => destruct b
  end.

(** Case analysis on the comparison of [x] with a string literal, closing
    the case of equality with [tac]. *)
Ltac case_string x tac :=
  match goal with
  | |- context [(x =? ?s)] => destruct (String.eqb_spec x s); [tac|]
  end.

Example toLowerCase_ascii :
  JS.toLowerCase "Your Statement, 2024!" = "your statement, 2024!".
Proof. reflexivity. Qed.

Example trim_both_ends : JS.trim "  Spring Sale  " = "Spring Sale".
Proof. reflexivity. Qed.

Example includes_inside :
  JS.includes "alerts@bank.com" "@bank.com" = true
  /\ JS.includes "alerts@bank.com" "@bank.org" = false
  /\ JS.includes "" "" = true.
Proof. repeat split; reflexivity. Qed.

Example startsWith_endsWith :
  JS.startsWith "invoice 42" "invoice" = true
  /\ JS.endsWith "invoice 42" "42" = true
  /\ JS.endsWith "42" "invoice 42" = false.
Proof. repeat split; reflexivity. Qed.

Example substring0_short_and_long :
  JS.substring0 3 "abcdef" = "abc" /\ JS.substring0 50 "abcdef" = "abcdef".
Proof. split; reflexivity. Qed.

Example toString_values :
  JS.toString (JS.VNum 1024) = "1024"
  /\ JS.toString (JS.VNum (-7)) = "-7"
  /\ JS.toString (JS.VBool true) = "true".
Proof. repeat split; reflexivity. Qed.

Example orElse_falsy :
  JS.orElse (Some "") "d" = "d" /\ JS.orElse None "d" = "d"
  /\ JS.orElse (Some "x") "d" = "x".
Proof. repeat split; reflexivity. Qed.

Example sort_is_stable :
  JS.sort (fun a b : Z * string => (fst b - fst a <=? 0)%Z)
          [(1%Z, "a"); (2%Z, "b"); (1%Z, "c"); (2%Z, "d")]
  = [(2%Z, "b"); (2%Z, "d"); (1%Z, "a"); (1%Z, "c")].
Proof. reflexivity. Qed.

Example set_keeps_the_place_of_a_key :
  JS.set "b" 5%Z [("a", 1%Z); ("b", 2%Z); ("c", 3%Z)]
  = [("a", 1%Z); ("b", 5%Z); ("c", 3%Z)]
  /\ JS.set "d" 4%Z [("a", 1%Z)] = [("a", 1%Z); ("d", 4%Z)].
Proof. split; reflexivity. Qed.

Section SortFacts.
Variable A : Type.
Variable before : A -> A -> bool.

Lemma insert_perm (x : A) (l : list A) :
  Permutation (JS.insert before x l) (x :: l).
Proof.
  induction l as [|y l IH]; simpl.
  - apply Permutation_refl.
  - destruct (before x y).
    + apply Permutation_refl.
    + eapply perm_trans; [apply perm_skip, IH | apply perm_swap].
Qed.

Lemma sort_perm (l : list A) : Permutation (JS.sort before l) l.
Proof.
  induction l as [|x l IH]; simpl.
  - constructor.
  - eapply perm_trans; [apply insert_perm | apply perm_skip, IH].
Qed.

Lemma sort_In (l : list A) (x : A) : In x (JS.sort before l) <-> In x l.
Proof.
  split; apply Permutation_in; [|apply Permutation_sym]; apply sort_perm.
Qed.

(** A list that is already in order is left as it is. *)
Lemma sort_fixed (l : list A) :
  Sorted (inOrder before) l -> JS.sort before l = l.
Proof.
  induction 1 as [|x l Hs IH Hd]; simpl; [reflexivity|].
  rewrite IH. destruct Hd as [|y l' Hxy]; simpl; [reflexivity|].
  unfold inOrder in Hxy. now rewrite Hxy.
Qed.

(** On entries among which the comparator is total and transitive, the
    result is in order. *)
Variable P : A -> Prop.
Hypothesis before_total :
  forall a b, P a -> P b -> before a b = true \/ before b a = true.
Hypothesis before_trans :
  forall a b c, P a -> P b -> P c ->
                before a b = true -> before b c = true -> before a c = true.

Lemma insert_sorted (x : A) (l : list A) :
  P x -> Forall P l ->
  StronglySorted (inOrder before) l ->
  StronglySorted (inOrder before) (JS.insert before x l).
Proof.
  intros Px Pl. induction 1 as [|y l Hs IH Hall]; simpl.
  - constructor; constructor.
  - inversion Pl as [|? ? Py Pl']; subst.
    destruct (before x y) eqn:Hxy.
    + constructor; [constructor; assumption|].
      constructor; [exact Hxy|].
      rewrite Forall_forall in *. intros z Hz.
      apply (before_trans x y z); auto. now apply Hall.
    + constructor; [now apply IH|].
      eapply Permutation_Forall; [apply Permutation_sym, insert_perm|].
      constructor; [|exact Hall].
      destruct (before_total x y Px Py) as [H|H]; [congruence|exact H].
Qed.

Lemma sort_sorted (l : list A) :
  Forall P l -> StronglySorted (inOrder before) (JS.sort before l).
Proof.
  induction 1 as [|x l Px Pl IH]; simpl; [constructor|].
  apply insert_sorted; auto.
  eapply Permutation_Forall; [apply Permutation_sym, sort_perm|exact Pl].
Qed.

End SortFacts.

Lemma filter_StronglySorted (A : Type) (R : A -> A -> Prop) (p : A -> bool)
  (l : list A) :
  StronglySorted R l -> StronglySorted R (filter p l).
Proof.
  induction 1 as [|x l Hs IH Hall]; simpl; [constructor|].
  destruct (p x); [|exact IH].
  constructor; [exact IH|].
  apply Forall_forall. intros y Hy. apply filter_In in Hy.
  rewrite Forall_forall in Hall. now apply Hall.
Qed.

(** The order on strings that [<=?] decides is transitive. *)
Lemma ascii_compare_trans_lt (a b c : ascii) :
  Ascii.compare a b = Lt -> Ascii.compare b c = Lt -> Ascii.compare a c = Lt.
Proof.
  unfold Ascii.compare. rewrite !N.compare_lt_iff. apply N.lt_trans.
Qed.

Lemma string_compare_refl (s : string) : String.compare s s = Eq.
Proof.
  induction s as [|a s IH]; simpl; [reflexivity|].
  unfold Ascii.compare. now rewrite N.compare_refl.
Qed.

Lemma string_compare_trans_lt (s1 s2 s3 : string) :
  String.compare s1 s2 = Lt -> String.compare s2 s3 = Lt ->
  String.compare s1 s3 = Lt.
Proof.
  revert s2 s3.
  induction s1 as [|a s1 IH]; intros [|b s2] [|c s3]; simpl;
    try discriminate; try reflexivity.
  destruct (Ascii.compare a b) eqn:Hab; try discriminate.
  - apply Ascii.compare_eq_iff in Hab. subst b.
    destruct (Ascii.compare a c) eqn:Hac; try discriminate; try reflexivity.
    apply IH.
  - intros _.
    destruct (Ascii.compare b c) eqn:Hbc; try discriminate.
    + apply Ascii.compare_eq_iff in Hbc. subst c. now rewrite Hab.
    + intros _. now rewrite (ascii_compare_trans_lt _ _ _ Hab Hbc).
Qed.

Lemma string_leb_trans (s1 s2 s3 : string) :
  (s1 <=? s2) = true -> (s2 <=? s3) = true -> (s1 <=? s3) = true.
Proof.
  unfold String.leb.
  destruct (String.compare s1 s2) eqn:H12; try discriminate; intros _;
    destruct (String.compare s2 s3) eqn:H23; try discriminate; intros _.
  - apply String.compare_eq_iff in H12, H23. subst.
    now rewrite string_compare_refl.
  - apply String.compare_eq_iff in H12. subst. now rewrite H23.
  - apply String.compare_eq_iff in H23. subst. now rewrite H12.
  - now rewrite (string_compare_trans_lt _ _ _ H12 H23).
Qed.
(* ================================================================== *)
(** ** Numbers *)

Lemma pow2_pos (e : Z) : 0 < 2 ^ e.
Proof. apply Qpower_0_lt. reflexivity. Qed.

Lemma pow2_succ (e : Z) : 2 ^ (e + 1) == 2 * 2 ^ e.
Proof. rewrite Qpower_plus by discriminate. rewrite Qpower_1_r. ring. Qed.

Lemma pow2_le (a b : Z) : (a <= b)%Z -> 2 ^ a <= 2 ^ b.
Proof. intros H. apply Qpower_le_compat_l; [exact H|discriminate]. Qed.

Lemma pow2_Z (k : Z) : (0 <= k)%Z -> inject_Z (2 ^ k) == 2 ^ k.
Proof. intros H. now rewrite Zpower_Qpower. Qed.

(** [log2] of a positive integer, in [Q]. *)
Lemma log2_bounds (n : Z) :
  (0 < n)%Z ->
  2 ^ Z.log2 n <= inject_Z n /\ inject_Z n < 2 * 2 ^ Z.log2 n.
Proof.
  intros Hn. destruct (Z.log2_spec n Hn) as [Hlo Hhi].
  pose proof (Z.log2_nonneg n) as Hnn.
  rewrite <- pow2_succ, <- !pow2_Z by lia.
  rewrite <- Zle_Qle, <- Zlt_Qlt. unfold Z.succ in Hhi. tauto.
Qed.

Lemma exponent_spec (x : Q) :
  0 < x ->
  2 ^ Double.exponent x <= x /\ x < 2 ^ (Double.exponent x + 1).
Proof.
  intros Hx. unfold Double.exponent.
  set (n := Qnum x). set (d := Zpos (Qden x)).
  assert (Hn : (0 < n)%Z).
  { unfold Qlt in Hx. simpl in Hx. subst n. lia. }
  destruct (log2_bounds n Hn) as [Nlo Nhi].
  destruct (log2_bounds d eq_refl) as [Dlo Dhi].
  assert (Hxd : x * inject_Z d == inject_Z n).
  { subst n d. destruct x as [a b]. unfold Qeq. simpl.
    rewrite Pos.mul_1_r. ring. }
  set (e := (Z.log2 n - Z.log2 d)%Z).
  assert (He : 2 ^ e * 2 ^ Z.log2 d == 2 ^ Z.log2 n).
  { subst e. rewrite <- Qpower_plus by discriminate.
    now replace (Z.log2 n - Z.log2 d + Z.log2 d)%Z with (Z.log2 n) by lia. }
  pose proof (pow2_pos e) as Te.
  pose proof (pow2_pos (Z.log2 d)) as Pd.
  pose proof (pow2_pos (Z.log2 n)) as Pn.
  destruct (Qle_bool (2 ^ e) x) eqn:Hcmp.
  - apply Qle_bool_iff in Hcmp. split; [exact Hcmp|].
    rewrite pow2_succ.
    apply Qnot_le_lt. intros Hle.
    assert (H1 : 2 * 2 ^ e * 2 ^ Z.log2 d <= x * inject_Z d).
    { apply Qle_trans with (x * 2 ^ Z.log2 d).
      - apply Qmult_le_compat_r; [exact Hle|now apply Qlt_le_weak].
      - rewrite !(Qmult_comm x). apply Qmult_le_compat_r;
          [exact Dlo|now apply Qlt_le_weak]. }
    rewrite Hxd in H1. rewrite <- Qmult_assoc, He in H1.
    exact (Qlt_not_le _ _ Nhi H1).
  - assert (Hlt : x < 2 ^ e).
    { apply Qnot_le_lt. intros Hle. apply Qle_bool_iff in Hle. congruence. }
    replace (e - 1 + 1)%Z with e by lia. split; [|exact Hlt].
    assert (H2 : 2 * 2 ^ (e - 1) == 2 ^ e).
    { rewrite <- pow2_succ. now replace (e - 1 + 1)%Z with e by lia. }
    apply Qnot_lt_le. intros Hlow.
    assert (H1 : x * inject_Z d < 2 ^ (e - 1) * (2 * 2 ^ Z.log2 d)).
    { apply Qle_lt_trans with (2 ^ (e - 1) * inject_Z d).
      - apply Qmult_le_compat_r; [now apply Qlt_le_weak|].
        apply Qlt_le_weak. eapply Qlt_le_trans; [exact Pd|exact Dlo].
      - apply Qmult_lt_l; [apply pow2_pos|exact Dhi]. }
    rewrite Hxd in H1.
    assert (H3 : 2 ^ (e - 1) * (2 * 2 ^ Z.log2 d) == 2 ^ Z.log2 n).
    { rewrite <- He, <- H2. ring. }
    rewrite H3 in H1. exact (Qlt_not_le _ _ H1 Nlo).
Qed.

Lemma exponent_unique (x : Q) (e : Z) :
  2 ^ e <= x -> x < 2 ^ (e + 1) -> Double.exponent x = e.
Proof.
  intros Hlo Hhi.
  assert (Hx : 0 < x) by (eapply Qlt_le_trans; [apply pow2_pos|exact Hlo]).
  destruct (exponent_spec x Hx) as [Elo Ehi].
  assert (H1 : (Double.exponent x < e + 1)%Z).
  { apply (Qpower_lt_compat_l_inv 2); [|reflexivity].
    eapply Qle_lt_trans; eassumption. }
  assert (H2 : (e < Double.exponent x + 1)%Z).
  { apply (Qpower_lt_compat_l_inv 2); [|reflexivity].
    eapply Qle_lt_trans; eassumption. }
  lia.
Qed.

Lemma exponent_comp (x y : Q) :
  0 < x -> x == y -> Double.exponent x = Double.exponent y.
Proof.
  intros Hx Hxy. symmetry.
  destruct (exponent_spec x Hx) as [Hlo Hhi].
  apply exponent_unique; now rewrite <- Hxy.
Qed.

Lemma exponent_mono (x y : Q) :
  0 < x -> x <= y -> (Double.exponent x <= Double.exponent y)%Z.
Proof.
  intros Hx Hxy.
  assert (Hy : 0 < y) by (eapply Qlt_le_trans; eassumption).
  destruct (exponent_spec x Hx) as [Xlo Xhi].
  destruct (exponent_spec y Hy) as [Ylo Yhi].
  assert (H : (Double.exponent x < Double.exponent y + 1)%Z).
  { apply (Qpower_lt_compat_l_inv 2); [|reflexivity].
    eapply Qle_lt_trans; [exact Xlo|].
    eapply Qle_lt_trans; eassumption. }
  lia.
Qed.

Lemma nearestEven_floor (x : Q) :
  (Qfloor x <= Double.nearestEven x <= Qfloor x + 1)%Z.
Proof.
  unfold Double.nearestEven.
  destruct (Qcompare _ _); [destruct (Z.even _)| |]; lia.
Qed.

Lemma nearestEven_comp (x y : Q) :
  x == y -> Double.nearestEven x = Double.nearestEven y.
Proof.
  intros Hxy. unfold Double.nearestEven.
  rewrite (Qfloor_comp x y Hxy).
  assert (H : x - inject_Z (Qfloor y) == y - inject_Z (Qfloor y))
    by now rewrite Hxy.
  now rewrite (Qcompare_comp _ _ H (1 # 2) (1 # 2) (Qeq_refl _)).
Qed.

Lemma nearestEven_Z (n : Z) : Double.nearestEven (inject_Z n) = n.
Proof.
  unfold Double.nearestEven. rewrite Qfloor_Z.
  assert (H : inject_Z n - inject_Z n == 0) by ring.
  now rewrite (Qcompare_comp _ _ H (1 # 2) (1 # 2) (Qeq_refl _)).
Qed.

Lemma nearestEven_mono (x y : Q) :
  x <= y -> (Double.nearestEven x <= Double.nearestEven y)%Z.
Proof.
  intros Hxy. pose proof (Qfloor_resp_le x y Hxy) as Hf.
  destruct (Z.eq_dec (Qfloor x) (Qfloor y)) as [E|E].
  - unfold Double.nearestEven. rewrite E.
    destruct (Qcompare_spec (x - inject_Z (Qfloor y)) (1 # 2)) as [Hx|Hx|Hx];
      destruct (Qcompare_spec (y - inject_Z (Qfloor y)) (1 # 2))
        as [Hy|Hy|Hy];
      try destruct (Z.even (Qfloor y)); try lia; exfalso; lra.
  - pose proof (nearestEven_floor x). pose proof (nearestEven_floor y). lia.
Qed.

Lemma roundPositive_eq (x : Q) :
  Double.roundPositive x
  == inject_Z (Double.nearestEven (x / 2 ^ (Double.exponent x - 52)))
     * 2 ^ (Double.exponent x - 52).
Proof. unfold Double.roundPositive. apply Qred_correct. Qed.

(** The significand of a positive number lies between [2^52] and [2^53]. *)
Lemma significand_bounds (x : Q) :
  0 < x ->
  inject_Z (2 ^ 52) <= x / 2 ^ (Double.exponent x - 52)
  /\ x / 2 ^ (Double.exponent x - 52) <= inject_Z (2 ^ 53).
Proof.
  intros Hx. destruct (exponent_spec x Hx) as [Hlo Hhi].
  set (e := (Double.exponent x - 52)%Z).
  pose proof (pow2_pos e) as He.
  assert (H52 : 2 ^ Double.exponent x == inject_Z (2 ^ 52) * 2 ^ e).
  { rewrite pow2_Z by lia. rewrite <- Qpower_plus by discriminate.
    subst e. now replace (52 + (Double.exponent x - 52))%Z
               with (Double.exponent x) by lia. }
  assert (H53 : 2 ^ (Double.exponent x + 1) == inject_Z (2 ^ 53) * 2 ^ e).
  { rewrite pow2_Z by lia. rewrite <- Qpower_plus by discriminate.
    subst e. now replace (53 + (Double.exponent x - 52))%Z
               with (Double.exponent x + 1)%Z by lia. }
  split.
  - apply Qle_shift_div_l; [exact He|]. now rewrite <- H52.
  - apply Qle_shift_div_r; [exact He|]. rewrite <- H53.
    now apply Qlt_le_weak.
Qed.

Lemma roundPositive_bounds (x : Q) :
  0 < x ->
  2 ^ Double.exponent x <= Double.roundPositive x
  /\ Double.roundPositive x <= 2 ^ (Double.exponent x + 1).
Proof.
  intros Hx. destruct (significand_bounds x Hx) as [Mlo Mhi].
  rewrite roundPositive_eq.
  set (e := (Double.exponent x - 52)%Z) in *.
  pose proof (pow2_pos e) as He.
  apply nearestEven_mono in Mlo, Mhi. rewrite nearestEven_Z in Mlo, Mhi.
  assert (H52 : 2 ^ Double.exponent x == inject_Z (2 ^ 52) * 2 ^ e).
  { rewrite pow2_Z by lia. rewrite <- Qpower_plus by discriminate.
    subst e. now replace (52 + (Double.exponent x - 52))%Z
               with (Double.exponent x) by lia. }
  assert (H53 : 2 ^ (Double.exponent x + 1) == inject_Z (2 ^ 53) * 2 ^ e).
  { rewrite pow2_Z by lia. rewrite <- Qpower_plus by discriminate.
    subst e. now replace (53 + (Double.exponent x - 52))%Z
               with (Double.exponent x + 1)%Z by lia. }
  rewrite H52, H53. split.
  - apply Qmult_le_compat_r; [|now apply Qlt_le_weak].
    now rewrite <- Zle_Qle.
  - apply Qmult_le_compat_r; [|now apply Qlt_le_weak].
    now rewrite <- Zle_Qle.
Qed.

Lemma roundPositive_pos (x : Q) : 0 < x -> 0 < Double.roundPositive x.
Proof.
  intros Hx. eapply Qlt_le_trans; [apply pow2_pos|].
  apply (roundPositive_bounds x Hx).
Qed.

Lemma roundPositive_mono (x y : Q) :
  0 < x -> x <= y -> Double.roundPositive x <= Double.roundPositive y.
Proof.
  intros Hx Hxy.
  assert (Hy : 0 < y) by (eapply Qlt_le_trans; eassumption).
  pose proof (exponent_mono x y Hx Hxy) as He.
  destruct (Z.eq_dec (Double.exponent x) (Double.exponent y)) as [E|E].
  - rewrite !roundPositive_eq, E.
    set (e := (Double.exponent y - 52)%Z).
    pose proof (pow2_pos e) as Hpos.
    apply Qmult_le_compat_r; [|now apply Qlt_le_weak].
    rewrite <- Zle_Qle. apply nearestEven_mono.
    apply Qmult_le_compat_r; [exact Hxy|].
    apply Qlt_le_weak, Qinv_lt_0_compat, Hpos.
  - apply Qle_trans with (2 ^ (Double.exponent x + 1)).
    + apply (roundPositive_bounds x Hx).
    + apply Qle_trans with (2 ^ Double.exponent y).
      * apply pow2_le. lia.
      * apply (roundPositive_bounds y Hy).
Qed.

Lemma roundPositive_comp (x y : Q) :
  0 < x -> x == y -> Double.roundPositive x = Double.roundPositive y.
Proof.
  intros Hx Hxy. unfold Double.roundPositive.
  rewrite (exponent_comp x y Hx Hxy).
  apply Qred_complete.
  rewrite (nearestEven_comp (x / 2 ^ (Double.exponent y - 52))
                            (y / 2 ^ (Double.exponent y - 52)));
    [reflexivity|now rewrite Hxy].
Qed.

Lemma round_0 : Double.round 0 = 0.
Proof. reflexivity. Qed.

Lemma round_positive (x : Q) :
  0 < x -> Double.round x = Double.roundPositive x.
Proof.
  intros Hx. unfold Double.round.
  destruct (Qcompare_spec x 0) as [H|H|H]; [|exfalso; lra|reflexivity].
  exfalso. rewrite H in Hx. discriminate Hx.
Qed.

Lemma round_negative (x : Q) :
  x < 0 -> Double.round x = - Double.roundPositive (- x).
Proof.
  intros Hx. unfold Double.round.
  destruct (Qcompare_spec x 0) as [H|H|H]; [|reflexivity|exfalso; lra].
  exfalso. rewrite H in Hx. discriminate Hx.
Qed.

Lemma round_zero (x : Q) : x == 0 -> Double.round x = 0.
Proof.
  intros Hx. unfold Double.round.
  destruct (Qcompare_spec x 0) as [H|H|H]; [reflexivity| |];
    exfalso; rewrite Hx in H; discriminate H.
Qed.

Lemma round_pos (x : Q) : 0 < x -> 0 < Double.round x.
Proof.
  intros Hx. rewrite (round_positive x Hx). now apply roundPositive_pos.
Qed.

Lemma round_nonneg (x : Q) : 0 <= x -> 0 <= Double.round x.
Proof.
  intros Hx. destruct (Qlt_le_dec 0 x) as [H|H].
  - now apply Qlt_le_weak, round_pos.
  - rewrite (round_zero x); [apply Qle_refl|lra].
Qed.

Lemma round_neg (x : Q) : x < 0 -> Double.round x < 0.
Proof.
  intros Hx. rewrite (round_negative x Hx).
  assert (H : 0 < Double.roundPositive (- x))
    by (apply roundPositive_pos; lra).
  lra.
Qed.

Lemma round_mono (x y : Q) : x <= y -> Double.round x <= Double.round y.
Proof.
  intros Hxy.
  destruct (Qlt_le_dec 0 x) as [Hx|Hx].
  - rewrite (round_positive x Hx), (round_positive y) by lra.
    now apply roundPositive_mono.
  - destruct (Qlt_le_dec x 0) as [Hx'|Hx'].
    + destruct (Qlt_le_dec y 0) as [Hy|Hy].
      * rewrite (round_negative x Hx'), (round_negative y Hy).
        assert (H : Double.roundPositive (- y) <= Double.roundPositive (- x))
          by (apply roundPositive_mono; lra).
        lra.
      * pose proof (round_neg x Hx'). pose proof (round_nonneg y Hy). lra.
    + rewrite (round_zero x) by lra. apply round_nonneg. lra.
Qed.

Lemma round_comp (x y : Q) : x == y -> Double.round x = Double.round y.
Proof.
  intros Hxy.
  destruct (Qlt_le_dec 0 x) as [Hx|Hx].
  - rewrite (round_positive x Hx), (round_positive y) by lra.
    now apply roundPositive_comp.
  - destruct (Qlt_le_dec x 0) as [Hx'|Hx'].
    + rewrite (round_negative x Hx'), (round_negative y) by lra.
      f_equal. apply roundPositive_comp; [lra|now rewrite Hxy].
    + rewrite (round_zero x), (round_zero y) by lra. reflexivity.
Qed.

(** The share of a part in a whole is at most 1, also once rounded. *)
Lemma share_le_one (part whole : Z) :
  (part <= whole)%Z -> (0 < whole)%Z ->
  Double.div (inject_Z part) (inject_Z whole) <= 1.
Proof.
  intros Hle Hpos.
  apply Qle_trans with (Double.round 1); [|vm_compute; discriminate].
  apply round_mono. apply Qle_shift_div_r.
  - change 0 with (inject_Z 0). now rewrite <- Zlt_Qlt.
  - setoid_replace (1 * inject_Z whole) with (inject_Z whole) by ring.
    now rewrite <- Zle_Qle.
Qed.

(** The number that the literal [0.8] denotes lies above four fifths. *)
Lemma above_four_fifths (x : Q) : Double.lit 0.8 < x -> 0.8 < x.
Proof.
  intros Hx. eapply Qlt_trans; [|exact Hx]. vm_compute. reflexivity.
Qed.

(** The values of the language at some literals and operations: [0.1 + 0.2]
    is not [0.3], [0.5 - 0.2] and [1 / 10] are the numbers [0.3] and [0.1],
    and [3 * 1.2] is below [1.8 + 1.8]. *)
Example round_at_some_values :
  Double.lit 1.2 == 5404319552844595 # 4503599627370496
  /\ Double.lit 0.3 < Double.add (Double.lit 0.1) (Double.lit 0.2)
  /\ Double.sub (Double.lit 0.5) (Double.lit 0.2) = Double.lit 0.3
  /\ Double.div 1 10 = Double.lit 0.1
  /\ Double.mul 3 (Double.lit 1.2)
     < Double.add (Double.lit 1.8) (Double.lit 1.8)
  /\ Double.round 100 = 100.
Proof. vm_compute. repeat split; congruence. Qed.

Lemma StronglySorted_impl (A : Type) (R R' : A -> A -> Prop) (l : list A) :
  (forall a b, R a b -> R' a b) -> StronglySorted R l -> StronglySorted R' l.
Proof.
  intros Himp. induction 1 as [|x l Hs IH Hall]; constructor; [exact IH|].
  eapply Forall_impl; [|exact Hall]. intros b. apply Himp.
Qed.


(* ================================================================== *)
(** ** The rules engine *)

Section RulesEngineFacts.
Variable h : Host.

Lemma rulesOrder_total (a b : RuleRow.t) :
  DatabaseService.rulesOrder a b = true
  \/ DatabaseService.rulesOrder b a = true.
Proof.
  unfold DatabaseService.rulesOrder.
  destruct (Z.ltb_spec (RuleRow.priority b) (RuleRow.priority a));
    [now left|].
  destruct (Z.ltb_spec (RuleRow.priority a) (RuleRow.priority b));
    [now right|].
  assert (E : RuleRow.priority a = RuleRow.priority b) by lia.
  rewrite E, Z.eqb_refl. simpl.
  apply String.leb_total.
Qed.

Lemma rulesOrder_iff (a b : RuleRow.t) :
  DatabaseService.rulesOrder a b = true <-> evaluatedBefore a b.
Proof.
  unfold DatabaseService.rulesOrder, evaluatedBefore.
  rewrite orb_true_iff, andb_true_iff, Z.ltb_lt, Z.eqb_eq. tauto.
Qed.

Lemma rulesOrder_trans (a b c : RuleRow.t) :
  DatabaseService.rulesOrder a b = true ->
  DatabaseService.rulesOrder b c = true ->
  DatabaseService.rulesOrder a c = true.
Proof.
  rewrite !rulesOrder_iff. unfold evaluatedBefore.
  intros [Hab|[Eab Lab]] [Hbc|[Ebc Lbc]].
  - left; lia.
  - left; lia.
  - left; lia.
  - right. split; [congruence|]. eapply string_leb_trans; eassumption.
Qed.

Lemma getRules_sorted (w : World) :
  StronglySorted evaluatedBefore (DatabaseService.getRules w).
Proof.
  eapply StronglySorted_impl; [intros a b; apply rulesOrder_iff|].
  apply (sort_sorted _ _ (fun _ => True)).
  - intros a b _ _. apply rulesOrder_total.
  - intros a b c _ _ _. apply rulesOrder_trans.
  - apply Forall_forall. trivial.
Qed.

Lemma evaluatedBefore_byPriority (a b : RuleRow.t) :
  evaluatedBefore a b -> inOrder RulesEngine.byPriority a b.
Proof.
  unfold evaluatedBefore, inOrder, RulesEngine.byPriority.
  intros H. apply Z.leb_le. lia.
Qed.

(** The stable sort of [applyRulesToEmail] finds the rows already in order:
    the loop goes through the enabled rows as the query returned them. *)
Lemma evaluationOrder_eq (w : World) :
  RulesEngine.evaluationOrder w
  = filter RuleRow.enabled (DatabaseService.getRules w).
Proof.
  unfold RulesEngine.evaluationOrder. apply sort_fixed.
  apply StronglySorted_Sorted.
  eapply StronglySorted_impl; [exact evaluatedBefore_byPriority|].
  apply filter_StronglySorted, getRules_sorted.
Qed.

Lemma matchesCondition_total (email : Email.t) (c : RuleCondition.t) :
  exists b, RulesEngine.matchesCondition h email c = Ok b.
Proof.
  unfold RulesEngine.matchesCondition.
  destruct (RulesEngine.fieldValue email (RuleCondition.field c));
    [|eexists; reflexivity].
  repeat case_if; try (eexists; reflexivity).
  unfold RulesEngine.tryReturn.
  destruct (RulesEngine.newRegExp h (RuleCondition.value c));
    eexists; reflexivity.
Qed.

Lemma matchesConditions_total (email : Email.t)
  (cs : list RuleCondition.t) :
  exists b, RulesEngine.matchesConditions h email cs = Ok b.
Proof.
  induction cs as [|c cs IH]; simpl; [eexists; reflexivity|].
  destruct (matchesCondition_total email c) as [[|] ->];
    [exact IH | eexists; reflexivity].
Qed.

Lemma matchesConditions_ruleMatches (email : Email.t) (r : RuleRow.t) :
  RulesEngine.matchesConditions h email (RuleRow.conditions r)
  = Ok (ruleMatches h email r).
Proof.
  unfold ruleMatches, conditionsMatch.
  destruct (matchesConditions_total email (RuleRow.conditions r))
    as [[|] ->]; reflexivity.
Qed.

Lemma executeActions_returns (email : Email.t) (actions : list RuleAction.t)
  (w : World) :
  exists w', RulesEngine.executeActions h email actions w = (Ok tt, w').
Proof.
  unfold RulesEngine.executeActions. revert w.
  induction actions as [|a actions IH]; intros w; simpl.
  - eexists; reflexivity.
  - unfold bind, tryCatch.
    destruct (RulesEngine.executeAction h email a w) as [[[]|e] w1];
      simpl; apply IH.
Qed.


End RulesEngineFacts.

Section RulesEngineClaims.
Variable h : Host.


Lemma fieldValue_unrecognized (email : Email.t) (f : string) :
  ~ In f recognizedFields -> RulesEngine.fieldValue email f = None.
Proof.
  unfold recognizedFields, RulesEngine.fieldValue. simpl. intros Hnot.
  repeat case_string f ltac:(exfalso; apply Hnot; auto 10).
  reflexivity.
Qed.

Lemma matchesCondition_closed (email : Email.t) (c : RuleCondition.t) :
  failsClosed h c -> RulesEngine.matchesCondition h email c = Ok false.
Proof.
  unfold RulesEngine.matchesCondition.
  intros [[Hop Hbad]|[Hfield|Hop]].
  - destruct (RulesEngine.fieldValue email (RuleCondition.field c));
      [|reflexivity].
    rewrite Hop. simpl.
    unfold RulesEngine.newRegExp. now rewrite Hbad.
  - now rewrite fieldValue_unrecognized.
  - destruct (RulesEngine.fieldValue email (RuleCondition.field c));
      [|reflexivity].
    unfold recognizedOperators in Hop. simpl in Hop.
    repeat case_string (RuleCondition.operator c)
                       ltac:(exfalso; apply Hop; auto 10).
    reflexivity.
Qed.

(** C5.  A condition whose operator is [regex] with a malformed pattern, or
    whose field or operator is not recognized, evaluates to false; a rule
    that contains such a condition matches no message; and the evaluation
    of a condition never throws. *)
Theorem matchesCondition_fails_closed (email : Email.t)
  (conditions : list RuleCondition.t) (c : RuleCondition.t) :
  In c conditions ->
  failsClosed h c ->
  RulesEngine.matchesCondition h email c = Ok false
  /\ RulesEngine.matchesConditions h email conditions = Ok false
  /\ (forall email' c',
        exists b, RulesEngine.matchesCondition h email' c' = Ok b)
  /\ (forall email' conditions',
        exists b, RulesEngine.matchesConditions h email' conditions' = Ok b).
Proof.
  intros Hin Hbad.
  split; [now apply matchesCondition_closed|].
  split; [|split; intros; [apply matchesCondition_total
                          |apply matchesConditions_total]].
  induction conditions as [|c0 cs IH]; [contradiction|]. simpl.
  destruct Hin as [->|Hin].
  - now rewrite matchesCondition_closed.
  - destruct (matchesCondition_total h email c0) as [[|] ->];
      [now apply IH | reflexivity].
Qed.

End RulesEngineClaims.

Lemma matchesCondition_fails_closed_witness :
  In malformedRegexCondition [malformedRegexCondition]
  /\ failsClosed sampleHost malformedRegexCondition
  /\ RulesEngine.matchesConditions sampleHost statementEmail
       [malformedRegexCondition] = Ok false.
Proof.
  assert (Hin : In malformedRegexCondition [malformedRegexCondition])
    by (left; reflexivity).
  assert (Hbad : failsClosed sampleHost malformedRegexCondition)
    by (left; split; reflexivity).
  split; [exact Hin|]. split; [exact Hbad|].
  exact (proj1 (proj2 (matchesCondition_fails_closed sampleHost
                         statementEmail [malformedRegexCondition]
                         malformedRegexCondition Hin Hbad))).
Defined.

(** The row that [saveRule] writes carries the defaults of the columns that
    its statement does not list: whatever [hitCount] and [lastHit] the
    caller has put in the object, the stored [hit_count] is 0 and the stored
    [last_hit] is NULL, and [created_at] is the time of the save. *)
Lemma saveRule_writes_defaults (h : Host) (rule : Rule.t) (w : World)
  (r : RuleRow.t) :
  In r (rules (snd (DatabaseService.saveRule h rule w))) ->
  In r (rules w)
  \/ (RuleRow.hit_count r = 0%Z /\ RuleRow.last_hit r = None
      /\ RuleRow.created_at r = sqlNow w).
Proof.
  unfold DatabaseService.saveRule.
  destruct (Rule.provider rule) as [provider|]; simpl; intros Hin.
  - apply in_app_or in Hin. destruct Hin as [Hin|[<-|[]]].
    + left. apply filter_In in Hin.
      destruct (Rule.id rule =? ""); exact (proj1 Hin).
    + right. repeat split; reflexivity.
  - left. destruct (Rule.id rule =? ""); exact Hin.
Qed.

Section HitCountFacts.
Variable h : Host.

Lemma executeAction_rules (email : Email.t) (a : RuleAction.t) (w : World) :
  rules (snd (RulesEngine.executeAction h email a w)) = rules w.
Proof.
  unfold RulesEngine.executeAction, EmailProviderManager.moveEmail,
    EmailProviderManager.archiveEmail, EmailProviderManager.deleteEmail,
    EmailProviderManager.remote, DatabaseService.updateEmailCategory,
    bind, modify, throw, ret.
  repeat case_if; try destruct (RuleAction.value a); reflexivity.
Qed.

Lemma executeActions_rules (email : Email.t) (actions : list RuleAction.t) :
  forall w,
  rules (snd (RulesEngine.executeActions h email actions w)) = rules w.
Proof.
  unfold RulesEngine.executeActions.
  induction actions as [|a actions IH]; intros w; simpl; [reflexivity|].
  unfold bind, tryCatch.
  pose proof (executeAction_rules email a w) as Hstep.
  destruct (RulesEngine.executeAction h email a w) as [[[]|msg] w1];
    simpl in *; rewrite IH; exact Hstep.
Qed.

(** No pass stores a count: after [applyRulesToEmail], a row of [rules] is
    either a row that was there before the pass, or a row written by the
    pass, and then its [hit_count] is 0 and its [last_hit] is NULL. *)
Lemma applyLoop_never_counts (email : Email.t) (rs : list RuleRow.t) :
  forall acc w0 w,
  (forall r, In r (rules w) ->
             In r (rules w0)
             \/ (RuleRow.hit_count r = 0%Z /\ RuleRow.last_hit r = None)) ->
  forall r, In r (rules (snd (RulesEngine.applyLoop h email rs acc w))) ->
            In r (rules w0)
            \/ (RuleRow.hit_count r = 0%Z /\ RuleRow.last_hit r = None).
Proof.
  induction rs as [|rule rs IH]; intros acc w0 w Hw; simpl; [exact Hw|].
  unfold bind, RulesEngine.liftO.
  rewrite matchesConditions_ruleMatches.
  destruct (ruleMatches h email rule); simpl; [|now apply IH].
  unfold gets.
  match goal with
  | |- context [RulesEngine.executeActions h email ?a ?w1] =>
      pose proof (executeActions_rules email a w1) as Hrules;
      destruct (executeActions_returns h email a w1) as [w2 Hw2];
      rewrite Hw2 in *; simpl in Hrules
  end.
  apply IH. intros r Hr. rewrite Hrules in Hr.
  apply (saveRule_writes_defaults h
           (Rule.withHit (RulesEngine.plusOne (RuleRow.hitCount rule))
                         (Some (isoNow w)) (Rule.ofRow rule)) w) in Hr.
  destruct Hr as [Hr|(Hc & Hl & _)]; [now apply Hw | now right].
Qed.

Lemma applyRulesToEmail_never_counts (email : Email.t) (w : World)
  (r : RuleRow.t) :
  In r (rules (snd (RulesEngine.applyRulesToEmail h email w))) ->
  In r (rules w)
  \/ (RuleRow.hit_count r = 0%Z /\ RuleRow.last_hit r = None).
Proof.
  unfold RulesEngine.applyRulesToEmail, bind, gets.
  apply applyLoop_never_counts. auto.
Qed.

End HitCountFacts.

Example scenario_rule_matches :
  RulesEngine.matchesConditions sampleHost statementEmail bankConditions
  = Ok true.
Proof. reflexivity. Qed.

(** [created_at] is the time of the last save, not of the creation: once
    the rule created first has matched and has been saved again, the rule
    created second is evaluated before it. *)
Example resave_moves_a_rule_back :
  map RuleRow.name (RulesEngine.evaluationOrder twoRulesWorld)
  = ["Bank mail"; "Lunch"]
  /\ map RuleRow.name (RulesEngine.evaluationOrder twoRulesLater)
     = ["Lunch"; "Bank mail"].
Proof. split; reflexivity. Qed.

(** C2, at the scenario of the specification: the rule is created, the
    message matches it, [categorize financial] is returned, and the stored
    [hit_count] is 0 before and after the pass, the stored [last_hit] still
    NULL. *)
Theorem applyRulesToEmail_hit_count_stays_zero :
  fst (RulesEngine.applyRulesToEmail sampleHost statementEmail bankWorld)
  = Ok bankActions
  /\ map RuleRow.hit_count (rules bankWorld) = [0%Z]
  /\ map RuleRow.hit_count
       (rules (snd (RulesEngine.applyRulesToEmail sampleHost statementEmail
                      bankWorld))) = [0%Z]
  /\ map RuleRow.last_hit
       (rules (snd (RulesEngine.applyRulesToEmail sampleHost statementEmail
                      bankWorld))) = [None].
Proof.
  vm_compute. repeat split; reflexivity.
Qed.

Section RuleLookupClaims.
Variable h : Host.

Lemma deleteRule_absent (ruleId : string) (w : World) :
  DatabaseService.getRule ruleId w = None ->
  DatabaseService.deleteRule ruleId w = w.
Proof.
  unfold DatabaseService.getRule, DatabaseService.deleteRule. intros Hnone.
  assert (E : filter (fun r => negb (RuleRow.id r =? ruleId)) (rules w)
              = rules w).
  { induction (rules w) as [|r rs IH]; simpl in *; [reflexivity|].
    destruct (RuleRow.id r =? ruleId); [discriminate|].
    simpl. now rewrite IH. }
  rewrite E. destruct w; reflexivity.
Qed.

(** C6, as the code has it.  For a rule id that is not in the store,
    [updateRule] and [testRule] throw [Error('Rule not found')] and
    [deleteRule] returns normally; none of the three changes the store. *)
Theorem absent_rule_update_test_delete (ruleId : string)
  (updates : Rule.updates) (w : World) :
  DatabaseService.getRule ruleId w = None ->
  raisesNotFound (RulesEngine.updateRule h ruleId updates) w
  /\ raisesNotFound (RulesEngine.testRule h ruleId) w
  /\ RulesEngine.deleteRule ruleId w = (Ok tt, w).
Proof.
  intros Hnone.
  unfold raisesNotFound, RulesEngine.updateRule, RulesEngine.testRule,
    RulesEngine.deleteRule, bind, gets, throw, modify.
  rewrite Hnone. repeat split.
  now rewrite deleteRule_absent.
Qed.

Lemma filterMatching_filter (conditions : list RuleCondition.t)
  (all : list Email.t) :
  RulesEngine.filterMatching h conditions all
  = Ok (filter (fun email => conditionsMatch h email conditions) all).
Proof.
  induction all as [|email rest IH]; simpl; [reflexivity|].
  unfold conditionsMatch at 1. rewrite IH.
  destruct (matchesConditions_total h email conditions) as [[|] ->];
    reflexivity.
Qed.

Lemma applyLimit_length (A : Type) (n : nat) (rows : list A) :
  (List.length (DatabaseService.applyLimit (Some (S n)) rows) <= S n)%nat.
Proof.
  unfold DatabaseService.applyLimit. apply firstn_le_length.
Qed.

(** C7.  For an existing rule, [testRule] is a dry run: it returns with the
    world as it found it (no row of [rules] or [emails] is written, no call
    reaches a provider or the shell), and its result is the first 10 of the
    messages of the window that match together with the number of all of
    them; the window holds at most 1000 messages. *)
Theorem testRule_is_dry_run (ruleId : string) (rule : RuleRow.t)
  (w : World) :
  DatabaseService.getRule ruleId w = Some rule ->
  let matching :=
    filter (fun email => conditionsMatch h email (RuleRow.conditions rule))
           (testWindow w) in
  RulesEngine.testRule h ruleId w
  = (Ok {| RulesEngine.matchingEmails := firstn 10 matching;
           RulesEngine.totalMatches := List.length matching |}, w)
  /\ (List.length (firstn 10 matching) <= 10)%nat
  /\ (List.length (testWindow w) <= 1000)%nat.
Proof.
  intros Hrule matching. split; [|split].
  - unfold RulesEngine.testRule, bind, gets, RulesEngine.liftO, ret.
    rewrite Hrule. fold (testWindow w).
    rewrite filterMatching_filter. reflexivity.
  - apply firstn_le_length.
  - unfold testWindow, DatabaseService.getEmails.
    change (DatabaseService.limit _) with (Some 1000%nat).
    apply applyLimit_length.
Qed.

End RuleLookupClaims.

Lemma delete_absent_rule_no_error :
  DatabaseService.getRule "absent" (sampleWorld [] []) = None
  /\ ~ raisesNotFound (RulesEngine.deleteRule "absent") (sampleWorld [] []).
Proof.
  split; [reflexivity|]. unfold raisesNotFound. vm_compute. discriminate.
Qed.

Lemma absent_rule_update_test_delete_witness :
  DatabaseService.getRule "absent" bankWorld = None
  /\ RulesEngine.deleteRule "absent" bankWorld = (Ok tt, bankWorld).
Proof.
  assert (Hnone : DatabaseService.getRule "absent" bankWorld = None)
    by reflexivity.
  split; [exact Hnone|].
  exact (proj2 (proj2 (absent_rule_update_test_delete sampleHost "absent"
                         {| Rule.u_id := None; Rule.u_name := Some "renamed";
                            Rule.u_enabled := None; Rule.u_conditions := None;
                            Rule.u_actions := None; Rule.u_provider := None;
                            Rule.u_priority := None; Rule.u_hitCount := None;
                            Rule.u_lastHit := None |}
                         bankWorld Hnone))).
Defined.

Lemma testRule_is_dry_run_witness :
  exists rule,
    DatabaseService.getRule "rule-0" bankWorld = Some rule
    /\ snd (RulesEngine.testRule sampleHost "rule-0" bankWorld) = bankWorld
    /\ RulesEngine.totalMatches
         match fst (RulesEngine.testRule sampleHost "rule-0" bankWorld) with
         | Ok result => result
         | Thrown _ =>
             {| RulesEngine.matchingEmails := [];
                RulesEngine.totalMatches := 0 |}
         end = 1%nat.
Proof.
  destruct (DatabaseService.getRule "rule-0" bankWorld) as [rule|] eqn:Hrule;
    [|discriminate].
  exists rule. split; [reflexivity|].
  destruct (testRule_is_dry_run sampleHost "rule-0" rule bankWorld Hrule)
    as [Hrun _].
  rewrite Hrun. split; [reflexivity|].
  simpl. injection Hrule as <-. reflexivity.
Defined.

(* ================================================================== *)
(** ** The classifier *)

Lemma Qltb_lt (x y : Q) : JS.Qltb x y = true <-> x < y.
Proof.
  unfold JS.Qltb. rewrite negb_true_iff. split.
  - intros H. apply Qnot_le_lt. intros Hle.
    apply Qle_bool_iff in Hle. congruence.
  - intros H. destruct (Qle_bool y x) eqn:E; [|reflexivity].
    apply Qle_bool_iff in E. exfalso. exact (Qlt_not_le _ _ H E).
Qed.

Lemma Qltb_ge (x y : Q) : JS.Qltb x y = false <-> y <= x.
Proof.
  unfold JS.Qltb. rewrite negb_false_iff. apply Qle_bool_iff.
Qed.

(** The loop that finds the best entry, started from any incumbent: either
    the incumbent stays and no entry exceeds it, or the result is the first
    entry that attains the maximum, and that maximum exceeds the
    incumbent. *)
Lemma findBest_from (scores : JS.Map Q) :
  forall (c0 : string) (s0 : Q),
  let best :=
    fold_left
      (fun (best : string * Q) (entry : string * Q) =>
         let (bestCategory, bestScore) := best in
         let (category, score) := entry in
         if JS.Qltb bestScore score then (category, score)
         else (bestCategory, bestScore))
      scores (c0, s0) in
  (best = (c0, s0) /\ forall e, In e scores -> snd e <= s0)
  \/ exists before after,
       scores = before ++ best :: after
       /\ s0 < snd best
       /\ (forall e, In e before -> snd e < snd best)
       /\ (forall e, In e after -> snd e <= snd best).
Proof.
  induction scores as [|[k v] rest IH]; intros c0 s0; simpl.
  - left. split; [reflexivity|]. intros e [].
  - destruct (JS.Qltb s0 v) eqn:Hcmp.
    + apply Qltb_lt in Hcmp. right.
      destruct (IH k v) as [[Hbest Hall]|(b & a & Hsplit & Hgt & Hb & Ha)].
      * exists [], rest. simpl in *. rewrite Hbest. simpl.
        repeat split; auto. intros e [].
      * exists ((k, v) :: b), a. simpl in *.
        split; [now rewrite Hsplit at 1|].
        split; [eapply Qlt_trans; eassumption|].
        split; [|exact Ha].
        intros e [<-|He]; [exact Hgt | now apply Hb].
    + apply Qltb_ge in Hcmp.
      destruct (IH c0 s0) as [[Hbest Hall]|(b & a & Hsplit & Hgt & Hb & Ha)].
      * left. simpl in *. split; [exact Hbest|].
        intros e [<-|He]; [exact Hcmp | now apply Hall].
      * right. exists ((k, v) :: b), a. simpl in *.
        split; [now rewrite Hsplit at 1|].
        split; [exact Hgt|]. split; [|exact Ha].
        intros e [<-|He]; [|now apply Hb].
        simpl. eapply Qle_lt_trans; eassumption.
Qed.

Section ClassifierFacts.
Variable h : Host.
Variable email : Email.t.

(** A loop that adds [k] for each entry that passes a test accumulates one
    [k] per such entry. *)
Lemma accumulate_matches (test : string -> bool) (k : Q) (l : list string) :
  forall s0 : Q,
  fold_left (fun score p => if test p then Double.add score k else score)
            l s0
  = fold_left Double.add (map (fun _ => k) (filter test l)) s0.
Proof.
  induction l as [|x l IH]; intros s0; simpl; [reflexivity|].
  destruct (test x); simpl; apply IH.
Qed.

Lemma accumulate_keywords (text : string) (k : Q) (l : list string) :
  forall (s0 : Q) (ex : list string),
  fst (fold_left
         (fun (st : Q * list string) keyword =>
            let (score, extracted) := st in
            if JS.includes text (JS.toLowerCase keyword)
            then (Double.add score k,
                  if existsb (String.eqb keyword) extracted
                  then extracted
                  else extracted ++ [keyword])
            else (score, extracted))
         l (s0, ex))
  = fold_left Double.add
      (map (fun _ => k)
           (filter (fun kw => JS.includes text (JS.toLowerCase kw)) l))
      s0.
Proof.
  induction l as [|x l IH]; intros s0 ex; simpl; [reflexivity|].
  destruct (JS.includes text (JS.toLowerCase x)); simpl; apply IH.
Qed.

Lemma orElse_textOf (part : option string) :
  JS.orElse part "" = textOf part.
Proof.
  destruct part as [text|]; simpl; [|reflexivity].
  destruct (String.eqb_spec text ""); congruence.
Qed.

(** The texts that [classify] builds are the stated ones. *)
Lemma fullText_stated : EmailClassifier.fullText email = statedContent email.
Proof.
  unfold EmailClassifier.fullText, statedContent, JS.join.
  cbn [String.concat]. rewrite !orElse_textOf. do 5 f_equal.
  destruct (Email.body email) as [body|]; simpl; [|reflexivity].
  destruct (String.eqb_spec (JS.substring0 2000 body) ""); congruence.
Qed.

Lemma senderText_stated :
  EmailClassifier.senderText email = statedSender email.
Proof.
  unfold EmailClassifier.senderText, statedSender, JS.join.
  cbn [String.concat]. rewrite !orElse_textOf. reflexivity.
Qed.

Lemma keywords_score_independent (text : string) (k : Q) (l : list string) :
  forall (s0 : Q) (ex ex' : list string),
  fst (fold_left
         (fun (st : Q * list string) keyword =>
            let (score, extracted) := st in
            if JS.includes text (JS.toLowerCase keyword)
            then (Double.add score k,
                  if existsb (String.eqb keyword) extracted
                  then extracted
                  else extracted ++ [keyword])
            else (score, extracted))
         l (s0, ex))
  = fst (fold_left
           (fun (st : Q * list string) keyword =>
              let (score, extracted) := st in
              if JS.includes text (JS.toLowerCase keyword)
              then (Double.add score k,
                    if existsb (String.eqb keyword) extracted
                    then extracted
                    else extracted ++ [keyword])
              else (score, extracted))
           l (s0, ex')).
Proof.
  induction l as [|x l IH]; intros s0 ex ex'; simpl; [reflexivity|].
  destruct (JS.includes text (JS.toLowerCase x)); apply IH.
Qed.

(** The score of a category does not depend on the keywords collected
    before it. *)
Lemma scoreCategory_score (c : CategoryPattern.t) (ex : list string) :
  fst (EmailClassifier.scoreCategory h (EmailClassifier.fullText email)
         (EmailClassifier.senderText email) c ex)
  = categoryScore h email c.
Proof.
  unfold categoryScore, EmailClassifier.scoreCategory.
  apply keywords_score_independent.
Qed.

(** The generic pass and the handling of the unsubscribe flag accumulate the
    score that the specification words. *)
Lemma categoryScore_stated (c : CategoryPattern.t) :
  (if (CategoryPattern.id c =? "marketing") && Email.hasUnsubscribe email
   then Double.add (categoryScore h email c) 1
   else categoryScore h email c)
  = statedScore h email c.
Proof.
  unfold categoryScore, statedScore, statedContributions,
    EmailClassifier.scoreCategory.
  rewrite accumulate_keywords, !accumulate_matches.
  rewrite fullText_stated, senderText_stated, !fold_left_app.
  destruct ((CategoryPattern.id c =? "marketing")
            && Email.hasUnsubscribe email); reflexivity.
Qed.

Lemma set_fresh (V : Type) (k : string) (v : V) (m : JS.Map V) :
  ~ In k (map fst m) -> JS.set k v m = m ++ [(k, v)].
Proof.
  induction m as [|[k' v'] m IH]; simpl; intros Hnot; [reflexivity|].
  destruct (String.eqb_spec k k') as [->|Hne]; [tauto|].
  rewrite IH; [reflexivity|tauto].
Qed.

(** With pairwise distinct ids, the map [scores] lists the categories in
    the order of the table. *)
Lemma scoreAll_scores (table : list CategoryPattern.t) :
  NoDup (map CategoryPattern.id table) ->
  fst (EmailClassifier.scoreAll h table email)
  = map (fun c => (CategoryPattern.id c, categoryScore h email c)) table.
Proof.
  unfold EmailClassifier.scoreAll.
  change (map (fun c => (CategoryPattern.id c, categoryScore h email c))
              table)
    with ([] ++ map (fun c => (CategoryPattern.id c, categoryScore h email c))
                    table).
  assert (Hdisj : forall k, In k (map fst (@nil (string * Q))) ->
                            ~ In k (map CategoryPattern.id table))
    by (intros k []).
  revert Hdisj. generalize (@nil (string * Q)) as acc.
  generalize (@nil string) as ex.
  induction table as [|c table IH]; intros ex acc Hdisj Hnodup; simpl.
  - now rewrite app_nil_r.
  - destruct (EmailClassifier.scoreCategory h (EmailClassifier.fullText email)
                (EmailClassifier.senderText email) c ex)
      as [score ex'] eqn:Hscore.
    assert (Hs : score = categoryScore h email c).
    { rewrite <- (scoreCategory_score c ex), Hscore. reflexivity. }
    subst score. inversion Hnodup as [|? ? Hfresh Hrest]; subst.
    rewrite set_fresh.
    + rewrite IH; [now rewrite <- app_assoc| |exact Hrest].
      intros k Hk. rewrite map_app in Hk. apply in_app_or in Hk.
      destruct Hk as [Hk|[<-|[]]].
      * intros Hin. apply (Hdisj k Hk). now right.
      * exact Hfresh.
    + intros Hin. apply (Hdisj _ Hin). now left.
Qed.

End ClassifierFacts.

Lemma categoryPatterns_ids :
  map CategoryPattern.id EmailClassifier.categoryPatterns
  = [ "financial"; "hr"; "marketing"; "important"; "social"; "shopping";
      "travel"; "bills" ].
Proof. reflexivity. Qed.

Lemma categoryPatterns_NoDup :
  NoDup (map CategoryPattern.id EmailClassifier.categoryPatterns).
Proof.
  rewrite categoryPatterns_ids.
  repeat (constructor;
          [simpl; intros H;
           repeat (destruct H as [H|H]; [discriminate H|]); exact H|]).
  constructor.
Qed.

(** The scores that the search for the best category reads: one entry per
    category, in the order of the table, the marketing entry raised by 1
    for a message with an unsubscribe link. *)
Lemma finalScores_table (h : Host) (email : Email.t) :
  EmailClassifier.finalScores h EmailClassifier.categoryPatterns email
  = map (fun c =>
           (CategoryPattern.id c,
            if (CategoryPattern.id c =? "marketing")
               && Email.hasUnsubscribe email
            then Double.add (categoryScore h email c) 1
            else categoryScore h email c))
        EmailClassifier.categoryPatterns.
Proof.
  unfold EmailClassifier.finalScores.
  rewrite scoreAll_scores by exact categoryPatterns_NoDup.
  generalize (categoryScore h email) as f. intros f.
  destruct (Email.hasUnsubscribe email).
  - unfold EmailClassifier.categoryPatterns.
    cbn -[Double.add Double.lit]. reflexivity.
  - unfold EmailClassifier.categoryPatterns.
    cbn -[Double.add Double.lit]. reflexivity.
Qed.

(** The category returned is that of the search over the final scores:
    "uncategorized" when no score is above zero, and otherwise the first
    entry that attains the maximum. *)
Lemma classify_category_choice (h : Host) (email : Email.t) :
  let scores :=
    EmailClassifier.finalScores h EmailClassifier.categoryPatterns email in
  let c := ClassificationResult.category (EmailClassifier.classify h email) in
  (c = "uncategorized" /\ forall e, In e scores -> snd e <= 0)
  \/ exists before s after,
       scores = before ++ (c, s) :: after
       /\ 0 < s
       /\ (forall e, In e before -> snd e < s)
       /\ (forall e, In e after -> snd e <= s).
Proof.
  intros scores c.
  assert (Hc : c = fst (EmailClassifier.findBest scores)).
  { subst c scores.
    unfold EmailClassifier.classify, EmailClassifier.classifyWith.
    destruct (EmailClassifier.findBest _); reflexivity. }
  unfold EmailClassifier.findBest in Hc.
  destruct (findBest_from scores "uncategorized" 0)
    as [[Hbest Hall]|(b & a & Hsplit & Hgt & Hb & Ha)].
  - left. split; [|exact Hall]. rewrite Hc, Hbest. reflexivity.
  - right.
    remember (fold_left _ scores ("uncategorized", 0)) as best eqn:Ebest.
    exists b, (snd best), a. rewrite Hc.
    rewrite <- surjective_pairing. auto.
Qed.

(** The scores are sums of rounded numbers.  On a message that one sender
    pattern of "financial" and the two content patterns of "marketing"
    match, the exact scores tie, [3 x 1.2 = 2 x 0.9 + 2 x 0.9]; the score
    accumulated for "financial" is 3.5999999999999996, the one for
    "marketing" is 3.6, and [classify] returns "marketing". *)
Example classify_on_rounded_scores :
  EmailClassifier.finalScores digestHost EmailClassifier.categoryPatterns
    digestEmail
  = [ ("financial", 2026619832316723 # 562949953421312); ("hr", 0);
      ("marketing", 8106479329266893 # 2251799813685248); ("important", 0);
      ("social", 0); ("shopping", 0); ("travel", 0); ("bills", 0) ]
  /\ ClassificationResult.category
       (EmailClassifier.classify digestHost digestEmail) = "marketing"
  /\ 3 * 1.2 == 2 * 0.9 + 2 * 0.9.
Proof. vm_compute. repeat split; reflexivity. Qed.

(** C4.  The scores that [classify] compares are the stated ones: for each
    category, in configuration order, the sum accumulated in the numbers
    of the language of 2 x weight per content pattern that matches the
    subject, snippet and body prefix, 3 x weight per sender pattern that
    matches the address and display name, 0.5 x weight per keyword present
    in the content, and the marketing bonus added after the generic pass.
    The category returned is the one whose score is highest: the first
    entry that attains the maximum when that maximum is above zero, and
    "uncategorized" when no score is above zero. *)
Theorem classify_returns_first_maximum (h : Host) (email : Email.t) :
  let scores :=
    EmailClassifier.finalScores h EmailClassifier.categoryPatterns email in
  let c := ClassificationResult.category (EmailClassifier.classify h email) in
  scores
  = map (fun category =>
           (CategoryPattern.id category, statedScore h email category))
        EmailClassifier.categoryPatterns
  /\ ((c = "uncategorized" /\ forall e, In e scores -> snd e <= 0)
      \/ exists before s after,
           scores = before ++ (c, s) :: after
           /\ 0 < s
           /\ (forall e, In e before -> snd e < s)
           /\ (forall e, In e after -> snd e <= s)).
Proof.
  intros scores c. split; [|apply classify_category_choice].
  subst scores. rewrite finalScores_table.
  apply map_ext. intros category. now rewrite categoryScore_stated.
Qed.

(* ================================================================== *)
(** ** The category of a stored message *)

Lemma classify_category_valid (h : Host) (email : Email.t) :
  validCategory
    (Some (ClassificationResult.category (EmailClassifier.classify h email)))
  = true.
Proof.
  destruct (classify_category_choice h email)
    as [[-> _]|(b & s & a & Hsplit & _)]; [reflexivity|].
  assert (Hin : In (ClassificationResult.category
                      (EmailClassifier.classify h email))
                   (map fst (EmailClassifier.finalScores h
                               EmailClassifier.categoryPatterns email))).
  { rewrite Hsplit, map_app. apply in_or_app. right. now left. }
  rewrite finalScores_table, map_map in Hin. simpl in Hin.
  unfold validCategory. apply existsb_exists.
  exists (ClassificationResult.category (EmailClassifier.classify h email)).
  split; [|apply String.eqb_refl].
  right. exact Hin.
Qed.

Section CategoryFacts.
Variable h : Host.
Variable S : option string -> Prop.
Hypothesis valid_in_S : forall c, validCategory c = true -> S c.

Lemma updateWhere_within (p : Email.t -> bool) (f : Email.t -> Email.t)
  (w : World) :
  (forall e, S (Email.category e) -> p e = true ->
             S (Email.category (f e))) ->
  categoriesWithin S w ->
  categoriesWithin S (DatabaseService.updateWhere p f w).
Proof.
  intros Hf [He Hr]. split; [|exact Hr].
  intros e Hin. unfold DatabaseService.updateWhere in Hin. simpl in Hin.
  apply in_map_iff in Hin. destruct Hin as (e0 & <- & Hin0).
  destruct (p e0) eqn:Hp; [apply Hf; auto | now apply He].
Qed.

Lemma remote_within (account : string) (call : ProviderCall) (w : World) :
  categoriesWithin S w ->
  categoriesWithin S (snd (EmailProviderManager.remote h account call w)).
Proof.
  unfold EmailProviderManager.remote.
  destruct (hasProvider h account); [|trivial].
  destruct (remoteResolves h call); trivial.
Qed.

Lemma deleteEmails_within (ids : list string) (w : World) :
  categoriesWithin S w ->
  categoriesWithin S (DatabaseService.deleteEmails ids w).
Proof.
  intros [He Hr]. split; [|exact Hr].
  intros e Hin. unfold DatabaseService.deleteEmails in Hin. simpl in Hin.
  apply filter_In in Hin. now apply He.
Qed.

Lemma executeAction_within (email : Email.t) (a : RuleAction.t) (w : World) :
  (RuleAction.type a = "categorize" -> S (RuleAction.value a)) ->
  categoriesWithin S w ->
  categoriesWithin S (snd (RulesEngine.executeAction h email a w)).
Proof.
  intros Ha Hw. unfold RulesEngine.executeAction.
  destruct (String.eqb_spec (RuleAction.type a) "move");
    [now apply remote_within|].
  destruct (String.eqb_spec (RuleAction.type a) "archive");
    [now apply remote_within|].
  destruct (String.eqb_spec (RuleAction.type a) "delete").
  { unfold EmailProviderManager.deleteEmail, bind.
    pose proof (remote_within (Email.accountId email)
                  (RemoteDelete (Email.id email)) w Hw) as Hremote.
    destruct (EmailProviderManager.remote h (Email.accountId email)
                (RemoteDelete (Email.id email)) w) as [[[]|msg] w1];
      simpl in *; [now apply deleteEmails_within | exact Hremote]. }
  destruct (String.eqb_spec (RuleAction.type a) "markRead").
  { simpl. apply updateWhere_within; [|exact Hw].
    intros x Hx _. exact Hx. }
  destruct (String.eqb_spec (RuleAction.type a) "markUnread").
  { simpl. apply updateWhere_within; [|exact Hw].
    intros x Hx _. exact Hx. }
  destruct (String.eqb_spec (RuleAction.type a) "categorize");
    [|exact Hw].
  unfold DatabaseService.updateEmailCategory.
  destruct (RuleAction.value a) as [c|] eqn:Hvalue; [|exact Hw].
  simpl. apply updateWhere_within; [|exact Hw].
  intros x _ _. simpl. now apply Ha.
Qed.

Lemma executeActions_within (email : Email.t) (actions : list RuleAction.t) :
  forall w,
  (forall a, In a actions -> RuleAction.type a = "categorize" ->
             S (RuleAction.value a)) ->
  categoriesWithin S w ->
  categoriesWithin S (snd (RulesEngine.executeActions h email actions w)).
Proof.
  unfold RulesEngine.executeActions.
  induction actions as [|a actions IH]; intros w Hacts Hw; simpl;
    [exact Hw|].
  unfold bind, tryCatch.
  pose proof (executeAction_within email a w
                (Hacts a (or_introl eq_refl)) Hw) as Hstep.
  destruct (RulesEngine.executeAction h email a w) as [[[]|msg] w1];
    simpl in *; apply IH; auto.
Qed.

Lemma saveRule_within (rule : Rule.t) (w : World) :
  (forall a, In a (Rule.actions rule) -> RuleAction.type a = "categorize" ->
             S (RuleAction.value a)) ->
  categoriesWithin S w ->
  categoriesWithin S (snd (DatabaseService.saveRule h rule w)).
Proof.
  intros Hacts [He Hr]. unfold DatabaseService.saveRule.
  destruct (Rule.provider rule) as [provider|]; simpl.
  - split.
    + destruct (Rule.id rule =? ""); exact He.
    + intros r a Hin. apply in_app_or in Hin. destruct Hin as [Hin|[<-|[]]].
      * apply filter_In in Hin. apply Hr.
        destruct (Rule.id rule =? ""); exact (proj1 Hin).
      * simpl. apply Hacts.
  - destruct (Rule.id rule =? ""); split; assumption.
Qed.

Lemma applyLoop_within (email : Email.t) (rs : list RuleRow.t) :
  forall acc w,
  (forall r a, In r rs -> In a (RuleRow.actions r) ->
               RuleAction.type a = "categorize" -> S (RuleAction.value a)) ->
  categoriesWithin S w ->
  categoriesWithin S (snd (RulesEngine.applyLoop h email rs acc w)).
Proof.
  induction rs as [|r rs IH]; intros acc w Hrs Hw; simpl; [exact Hw|].
  unfold bind, RulesEngine.liftO.
  rewrite matchesConditions_ruleMatches.
  destruct (ruleMatches h email r); simpl.
  - unfold gets.
    match goal with
    | |- context [RulesEngine.executeActions h email ?a ?w1] =>
        assert (Hsaved : categoriesWithin S w1);
        [|pose proof (executeActions_within email a w1
                        (fun x Hx => Hrs r x (or_introl eq_refl) Hx) Hsaved)
            as Hexec;
          destruct (executeActions_returns h email a w1) as [w2 Hw2];
          rewrite Hw2 in *; simpl in Hexec]
    end.
    + apply (saveRule_within
               (Rule.withHit (RulesEngine.plusOne (RuleRow.hitCount r))
                             (Some (isoNow w)) (Rule.ofRow r)) w);
        [|exact Hw].
      simpl. intros a Ha. now apply (Hrs r a (or_introl eq_refl)).
    + apply IH; [|exact Hexec]. intros r' a Hr'. apply Hrs. now right.
  - apply IH; [|exact Hw]. intros r' a Hr'. apply Hrs. now right.
Qed.

Lemma classifyNewEmails_within (account : string) (w : World) :
  categoriesWithin S w ->
  categoriesWithin S (snd (classifyNewEmails h account w)).
Proof.
  unfold classifyNewEmails, bind, gets.
  generalize (DatabaseService.getUnclassifiedEmails account w) as todo.
  intros todo. revert w.
  induction todo as [|email todo IH]; intros w Hw; simpl; [exact Hw|].
  unfold bind, DatabaseService.updateEmailCategory, modify. simpl. apply IH.
  apply updateWhere_within; [intros x Hx _; exact Hx|].
  apply updateWhere_within; [|exact Hw].
  intros x _ _. simpl. apply valid_in_S, classify_category_valid.
Qed.

Lemma perform_within (op : Operation) (w : World) :
  categoriesWithin S w -> categoriesWithin S (perform h op w).
Proof.
  intros Hw. destruct op as [account|email]; simpl.
  - now apply classifyNewEmails_within.
  - unfold RulesEngine.applyRulesToEmail, bind, gets.
    apply applyLoop_within; [|exact Hw].
    intros r a Hr. apply Hw.
    rewrite evaluationOrder_eq in Hr. apply filter_In in Hr.
    apply (sort_In _ DatabaseService.rulesOrder (rules w) r), (proj1 Hr).
Qed.

Lemma performAll_within (ops : list Operation) :
  forall w, categoriesWithin S w -> categoriesWithin S (performAll h ops w).
Proof.
  unfold performAll.
  induction ops as [|op ops IH]; intros w Hw; simpl; [exact Hw|].
  apply IH, perform_within, Hw.
Qed.

End CategoryFacts.

(** C3, as the code has it.  After any sequence of classification writes
    and rule passes, the category of every stored message is a configured
    id, "uncategorized", or the value of a [categorize] action of a stored
    rule, provided this held at the start: [classify] only returns
    configured ids and "uncategorized", and [categorize] writes the value
    of the action as it is. *)
Theorem categories_stay_allowed (h : Host) (ops : list Operation)
  (w : World) :
  (forall e, In e (emails w) ->
             categoryAllowed (rules w) (Email.category e)) ->
  forall e, In e (emails (performAll h ops w)) ->
            categoryAllowed (rules w) (Email.category e).
Proof.
  intros Hstart.
  apply (performAll_within h (categoryAllowed (rules w))).
  - intros c Hc. now left.
  - split; [exact Hstart|].
    intros r a Hr Ha Htype. right. exists r, a. auto.
Qed.

(** The claim as stated fails: a rule of the user that categorizes as
    "receipts" leaves a stored message with that category. *)
Lemma categorize_writes_any_value :
  categoriesValid receiptsWorld
  /\ ~ categoriesValid
         (performAll sampleHost [ApplyRules statementEmail] receiptsWorld).
Proof.
  split.
  - intros e [<-|[]]. reflexivity.
  - intros Hvalid.
    specialize (Hvalid (Email.setCategory (Some "receipts") statementEmail)).
    discriminate Hvalid. left. reflexivity.
Qed.

Lemma categories_stay_allowed_witness :
  (forall e, In e (emails receiptsWorld) ->
             categoryAllowed (rules receiptsWorld) (Email.category e))
  /\ forall e,
       In e (emails (performAll sampleHost
                       [ClassifyNew "account-1"; ApplyRules statementEmail]
                       receiptsWorld)) ->
       categoryAllowed (rules receiptsWorld) (Email.category e).
Proof.
  assert (Hstart : forall e, In e (emails receiptsWorld) ->
                     categoryAllowed (rules receiptsWorld) (Email.category e)).
  { intros e [<-|[]]. left. reflexivity. }
  split; [exact Hstart|].
  exact (categories_stay_allowed sampleHost
           [ClassifyNew "account-1"; ApplyRules statementEmail]
           receiptsWorld Hstart).
Defined.

(* ================================================================== *)
(** ** The cleanup service *)

Section UnsubscribeFacts.
Variable h : Host.
Variable w : World.

Lemma unsubscribeLoop_counts (emailIds : list string) :
  (forall id, In id emailIds -> hasUsableLink w id = true ->
              openExternalResolves h (linkOf w id) = true) ->
  forall (acc : CleanupService.UnsubscribeResult) (w1 : World),
  emails w1 = emails w ->
  exists w',
    CleanupService.unsubscribeLoop h emailIds acc w1
    = (Ok {| CleanupService.processed :=
               CleanupService.processed acc
               + List.length (filter (hasUsableLink w) emailIds);
             CleanupService.skipped :=
               CleanupService.skipped acc
               + List.length
                   (filter (fun id => negb (hasUsableLink w id)) emailIds);
             CleanupService.links :=
               CleanupService.links acc
               ++ map (linkOf w) (filter (hasUsableLink w) emailIds) |}, w')
    /\ emails w' = emails w
    /\ rules w' = rules w1
    /\ remoteLog w' = remoteLog w1
    /\ opened w'
       = opened w1 ++ map (linkOf w) (filter (hasUsableLink w) emailIds).
Proof.
  induction emailIds as [|id ids IH]; intros Hopen acc w1 Hemails; simpl.
  - exists w1. unfold ret. rewrite !Nat.add_0_r, !app_nil_r.
    destruct acc; auto.
  - unfold bind, gets at 1. simpl.
    assert (Hlink : match DatabaseService.getEmail id w1 with
                    | Some e => Email.unsubscribeLink e
                    | None => None
                    end = storedLink w id).
    { unfold storedLink, DatabaseService.getEmail. now rewrite Hemails. }
    rewrite Hlink. fold (hasUsableLink w id). fold (linkOf w id).
    destruct (hasUsableLink w id) eqn:Husable; simpl.
    + unfold CleanupService.openExternal.
      rewrite (Hopen id (or_introl eq_refl) Husable).
      destruct (IH (fun x Hx => Hopen x (or_intror Hx))
                   {| CleanupService.processed :=
                        S (CleanupService.processed acc);
                      CleanupService.skipped := CleanupService.skipped acc;
                      CleanupService.links :=
                        CleanupService.links acc ++ [linkOf w id] |}
                   (logOpened (linkOf w id) w1) Hemails)
        as (w' & -> & He & Hr & Hl & Ho).
      exists w'. simpl in *.
      rewrite <- Nat.add_succ_comm, <- !app_assoc in *. simpl in *. auto.
    + destruct (IH (fun x Hx => Hopen x (or_intror Hx))
                   {| CleanupService.processed := CleanupService.processed acc;
                      CleanupService.skipped :=
                        S (CleanupService.skipped acc);
                      CleanupService.links := CleanupService.links acc |}
                   w1 Hemails)
        as (w' & -> & He & Hr & Hl & Ho).
      exists w'. simpl in *.
      rewrite <- Nat.add_succ_comm. auto.
Qed.

Lemma filter_split_length (A : Type) (p : A -> bool) (l : list A) :
  (List.length (filter p l) + List.length (filter (fun x => negb (p x)) l)
   = List.length l)%nat.
Proof.
  induction l as [|x l IH]; simpl; [reflexivity|].
  destruct (p x); simpl; lia.
Qed.

(** C8, as the code has it.  When every link that is opened is accepted by
    the shell, [bulkUnsubscribe] returns; [processed] counts the ids whose
    stored message has an unsubscribe link that is neither [null] nor empty,
    every other id (unknown ids included) is counted in [skipped], so the
    two add up to the number of ids; [links] holds the links of the
    processed ids in the order of the ids, and these are the links handed
    to the shell; the messages and the rules are left as they were. *)
Theorem bulkUnsubscribe_counts (emailIds : list string) :
  (forall id, In id emailIds -> hasUsableLink w id = true ->
              openExternalResolves h (linkOf w id) = true) ->
  exists result w',
    CleanupService.bulkUnsubscribe h emailIds w = (Ok result, w')
    /\ (CleanupService.processed result + CleanupService.skipped result
        = List.length emailIds)%nat
    /\ CleanupService.processed result
       = List.length (filter (hasUsableLink w) emailIds)
    /\ CleanupService.links result
       = map (linkOf w) (filter (hasUsableLink w) emailIds)
    /\ emails w' = emails w
    /\ rules w' = rules w
    /\ opened w' = opened w ++ CleanupService.links result.
Proof.
  intros Hopen. unfold CleanupService.bulkUnsubscribe.
  destruct (unsubscribeLoop_counts emailIds Hopen
              {| CleanupService.processed := 0; CleanupService.skipped := 0;
                 CleanupService.links := [] |} w eq_refl)
    as (w' & Hrun & He & Hr & Hl & Ho).
  eexists. exists w'. split; [exact Hrun|]. simpl.
  repeat split; auto. apply filter_split_length.
Qed.

End UnsubscribeFacts.

(** The claim as stated fails: a stored link that is the empty string is
    not [null], and its id is skipped; and when the shell refuses a link,
    no counts are returned. *)
Lemma empty_link_is_skipped :
  hasNonNullLink linksWorld "m3" = true
  /\ fst (CleanupService.bulkUnsubscribe sampleHost ["m3"] linksWorld)
     = Ok {| CleanupService.processed := 0; CleanupService.skipped := 1;
             CleanupService.links := [] |}
  /\ fst (CleanupService.bulkUnsubscribe offlineHost ["m2"] linksWorld)
     = Thrown "openExternal rejected".
Proof.
  repeat split; vm_compute; reflexivity.
Qed.

Lemma bulkUnsubscribe_counts_witness :
  exists w',
    CleanupService.bulkUnsubscribe sampleHost ["m1"; "m2"; "m3"; "m9"]
      linksWorld
    = (Ok {| CleanupService.processed := 1; CleanupService.skipped := 3;
             CleanupService.links := ["https://shop.example/unsubscribe"] |},
       w').
Proof.
  destruct (bulkUnsubscribe_counts sampleHost linksWorld
              ["m1"; "m2"; "m3"; "m9"] (fun _ _ _ => eq_refl))
    as (result & w' & Hrun & Hsum & Hprocessed & Hlinks & _).
  exists w'. rewrite Hrun. destruct result as [p s l]. simpl in *.
  assert (Hp : p = 1%nat) by exact Hprocessed. subst p.
  assert (Hl : l = ["https://shop.example/unsubscribe"]) by exact Hlinks.
  subst l.
  assert (Hs : s = 3%nat) by (simpl in Hsum; lia). subst s.
  reflexivity.
Defined.

(** What [findLargeAttachments] computes: the messages of the window whose
    attachments add up to at least the threshold in force, which is the
    one given when it is not zero and 5 MiB otherwise. *)
Lemma findLargeAttachments_result (options : CleanupService.LargeOptions)
  (w : World) :
  CleanupService.findLargeAttachments options w
  = (Ok (filter (fun email =>
                   (CleanupService.effectiveMinSize options
                    <=? CleanupService.totalSize email)%Z)
                (cleanupWindow (CleanupService.accountId options) w)), w).
Proof. reflexivity. Qed.

Lemma effectiveMinSize_given (n : Z) (account : option string) :
  n <> 0%Z ->
  CleanupService.effectiveMinSize
    {| CleanupService.minSize := Some n;
       CleanupService.accountId := account |} = n.
Proof.
  intros Hn. unfold CleanupService.effectiveMinSize. simpl.
  destruct (Z.eqb_spec n 0); [contradiction|reflexivity].
Qed.

Lemma effectiveMinSize_default (account : option string) :
  CleanupService.effectiveMinSize
    {| CleanupService.minSize := None;
       CleanupService.accountId := account |} = 5242880%Z.
Proof. reflexivity. Qed.

(** C10, at the threshold 0: the stored message has 1024 bytes of
    attachments, which meets the threshold 0, and [findLargeAttachments]
    returns no message, because [options.minSize || 5 * 1024 * 1024] reads
    a threshold of 0 as absent and compares with 5 MiB. *)
Theorem findLargeAttachments_threshold_zero :
  (0 <=? CleanupService.totalSize attachmentEmail)%Z = true
  /\ In attachmentEmail (emails attachmentWorld)
  /\ CleanupService.effectiveMinSize
       {| CleanupService.minSize := Some 0%Z;
          CleanupService.accountId := None |} = (5 * 1024 * 1024)%Z
  /\ CleanupService.findLargeAttachments
       {| CleanupService.minSize := Some 0%Z;
          CleanupService.accountId := None |} attachmentWorld
     = (Ok [], attachmentWorld).
Proof.
  repeat split; try reflexivity. left. reflexivity.
Qed.

Section MapFacts.
Variable V : Type.

Lemma get_set (k k' : string) (v : V) (m : JS.Map V) :
  JS.get k' (JS.set k v m) = if (k' =? k) then Some v else JS.get k' m.
Proof.
  induction m as [|[k0 v0] m IH]; simpl; [reflexivity|].
  destruct (String.eqb_spec k k0) as [->|Hne]; simpl.
  - destruct (String.eqb_spec k' k0); reflexivity.
  - rewrite IH.
    destruct (String.eqb_spec k' k0) as [->|Hne'];
      destruct (String.eqb_spec k0 k); congruence.
Qed.

Lemma keys_set (k : string) (v : V) (m : JS.Map V) :
  map fst (JS.set k v m)
  = if JS.has k m then map fst m else map fst m ++ [k].
Proof.
  unfold JS.has.
  induction m as [|[k0 v0] m IH]; simpl; [reflexivity|].
  destruct (String.eqb_spec k k0) as [->|Hne]; simpl; [reflexivity|].
  rewrite IH. destruct (JS.get k m); reflexivity.
Qed.

Lemma get_keys (k : string) (m : JS.Map V) :
  JS.get k m = None -> ~ In k (map fst m).
Proof.
  induction m as [|[k0 v0] m IH]; simpl; intros Hget; [tauto|].
  destruct (String.eqb_spec k k0) as [->|Hne]; [discriminate|].
  intros [E|Hin]; [congruence | now apply IH].
Qed.

Lemma set_NoDup (k : string) (v : V) (m : JS.Map V) :
  NoDup (map fst m) -> NoDup (map fst (JS.set k v m)).
Proof.
  intros Hnd. rewrite keys_set. unfold JS.has.
  destruct (JS.get k m) eqn:Hget; [exact Hnd|].
  apply NoDup_app; [exact Hnd | repeat constructor; intros [] |].
  intros x Hx [<-|[]]. exact (get_keys k m Hget Hx).
Qed.

Lemma get_In (k : string) (v : V) (m : JS.Map V) :
  JS.get k m = Some v -> In (k, v) m.
Proof.
  induction m as [|[k0 v0] m IH]; simpl; [discriminate|].
  destruct (String.eqb_spec k k0) as [->|Hne].
  - intros [= ->]. now left.
  - intros Hget. right. now apply IH.
Qed.

Lemma In_get (k : string) (v : V) (m : JS.Map V) :
  NoDup (map fst m) -> In (k, v) m -> JS.get k m = Some v.
Proof.
  induction m as [|[k0 v0] m IH]; simpl; intros Hnd Hin; [contradiction|].
  inversion Hnd as [|? ? Hfresh Hrest]; subst.
  destruct Hin as [[= -> ->]|Hin].
  - now rewrite String.eqb_refl.
  - destruct (String.eqb_spec k k0) as [->|Hne]; [|now apply IH].
    exfalso. apply Hfresh. apply in_map_iff. now exists (k0, v).
Qed.

End MapFacts.

(** [LIMIT] only drops rows. *)
Lemma applyLimit_incl (A : Type) (n : option nat) (rows : list A) :
  incl (DatabaseService.applyLimit n rows) rows.
Proof.
  unfold DatabaseService.applyLimit.
  destruct n as [[|k]|]; try apply incl_refl.
  generalize (S k). intros m. revert rows.
  induction m as [|m IH]; intros [|r rows] x; simpl; try tauto.
  intros [->|Hin]; [now left | right; now apply IH].
Qed.

Lemma In_getEmails (o : DatabaseService.EmailQuery) (w : World)
  (e : Email.t) :
  In e (DatabaseService.getEmails o w) -> In e (emails w).
Proof.
  unfold DatabaseService.getEmails, DatabaseService.orderBy. intros Hin.
  apply applyLimit_incl, sort_In, filter_In in Hin. exact (proj1 Hin).
Qed.

Section DuplicateFacts.
Variable h : Host.

Lemma membersOf_snoc (k : string) (l : list Email.t) (e : Email.t) :
  membersOf k (l ++ [e])
  = membersOf k l
    ++ (if (CleanupService.duplicateKey e =? k) then [e] else []).
Proof.
  unfold membersOf. rewrite filter_app. simpl.
  destruct (CleanupService.duplicateKey e =? k); reflexivity.
Qed.

Lemma groupByKey_snoc (l : list Email.t) (e : Email.t) :
  CleanupService.groupByKey (l ++ [e])
  = let key := CleanupService.duplicateKey e in
    let groups := CleanupService.groupByKey l in
    let groups := if JS.has key groups then groups
                  else JS.set key [] groups in
    match JS.get key groups with
    | Some members => JS.set key (members ++ [e]) groups
    | None => groups
    end.
Proof.
  unfold CleanupService.groupByKey. rewrite fold_left_app. reflexivity.
Qed.

(** The map of the first loop: under each key, the messages that carry it,
    in the order of the window. *)
Lemma groupByKey_get (l : list Email.t) :
  forall k,
  JS.get k (CleanupService.groupByKey l)
  = match membersOf k l with
    | [] => None
    | members => Some members
    end.
Proof.
  induction l as [|e l IH] using rev_ind; intros k; [reflexivity|].
  rewrite groupByKey_snoc, membersOf_snoc. cbv zeta.
  set (k0 := CleanupService.duplicateKey e).
  set (G := CleanupService.groupByKey l) in *.
  assert (Hk0 : JS.get k0 (if JS.has k0 G then G else JS.set k0 [] G)
                = Some (membersOf k0 l)).
  { unfold JS.has. rewrite (IH k0).
    destruct (membersOf k0 l) eqn:Hm.
    - rewrite get_set, String.eqb_refl. reflexivity.
    - rewrite (IH k0), Hm. reflexivity. }
  rewrite Hk0, get_set.
  destruct (String.eqb_spec k k0) as [->|Hne].
  - rewrite String.eqb_refl. now destruct (membersOf k0 l).
  - assert (Hne' : (k0 =? k) = false)
      by (apply String.eqb_neq; congruence).
    rewrite Hne', app_nil_r.
    destruct (JS.has k0 G); [apply IH|].
    rewrite get_set. apply String.eqb_neq in Hne. rewrite Hne. apply IH.
Qed.

Lemma groupByKey_NoDup (l : list Email.t) :
  NoDup (map fst (CleanupService.groupByKey l)).
Proof.
  induction l as [|e l IH] using rev_ind; [constructor|].
  rewrite groupByKey_snoc. cbv zeta.
  set (k0 := CleanupService.duplicateKey e).
  set (G := CleanupService.groupByKey l) in *.
  assert (H1 : NoDup (map fst (if JS.has k0 G then G else JS.set k0 [] G)))
    by (destruct (JS.has k0 G); [exact IH | now apply set_NoDup]).
  destruct (JS.get k0 _); [now apply set_NoDup | exact H1].
Qed.

Lemma duplicatesOf_map (groups : JS.Map (list Email.t)) :
  CleanupService.duplicatesOf h groups
  = map (groupOf h)
        (filter (fun entry => (1 <? List.length (snd entry))%nat) groups).
Proof.
  unfold CleanupService.duplicatesOf.
  match goal with
  | |- fold_left ?F _ _ = _ =>
      assert (Hgen : forall acc,
                 fold_left F groups acc
                 = acc ++ map (groupOf h)
                            (filter (fun entry =>
                                       (1 <? List.length (snd entry))%nat)
                                    groups))
  end.
  { induction groups as [|[k ms] groups IH]; intros acc; simpl;
      [now rewrite app_nil_r|].
    rewrite IH. destruct (1 <? List.length ms)%nat; simpl;
      [now rewrite <- app_assoc|reflexivity]. }
  apply Hgen.
Qed.



End DuplicateFacts.

(** Dropping entries of a map keeps its keys distinct. *)
Lemma filter_keys_NoDup (V : Type) (keep : string * V -> bool)
  (m : JS.Map V) :
  NoDup (map fst m) -> NoDup (map fst (filter keep m)).
Proof.
  induction m as [|entry m IH]; simpl; intros Hnd; [constructor|].
  inversion Hnd as [|? ? Hfresh Hrest]; subst.
  destruct (keep entry); simpl; [|now apply IH].
  constructor; [|now apply IH].
  intros Hin. apply Hfresh. apply in_map_iff in Hin.
  destruct Hin as (y & Hy & Hin). apply filter_In in Hin.
  apply in_map_iff. exists y. tauto.
Qed.

Section DuplicateClaims.
Variable h : Host.

Lemma groupByKey_entry (l : list Email.t) (k : string)
  (ms : list Email.t) :
  In (k, ms) (CleanupService.groupByKey l) -> ms = membersOf k l.
Proof.
  intros Hin. apply In_get in Hin; [|apply groupByKey_NoDup].
  rewrite groupByKey_get in Hin.
  destruct (membersOf k l); congruence.
Qed.


End DuplicateClaims.


(* ================================================================== *)
(** ** The rule table *)

Section RuleTableFacts.
Variable h : Host.

Lemma find_filter_other (ruleId other : string) (rs : list RuleRow.t) :
  other <> ruleId ->
  find (fun r => (RuleRow.id r =? other))
       (filter (fun r => negb (RuleRow.id r =? ruleId)) rs)
  = find (fun r => (RuleRow.id r =? other)) rs.
Proof.
  intros Hne. induction rs as [|r rs IH]; simpl; [reflexivity|].
  destruct (String.eqb_spec (RuleRow.id r) ruleId) as [E|E]; simpl.
  - destruct (String.eqb_spec (RuleRow.id r) other); [congruence|exact IH].
  - destruct (RuleRow.id r =? other); [reflexivity|exact IH].
Qed.

Lemma find_filter_same (ruleId : string) (rs : list RuleRow.t) :
  find (fun r => (RuleRow.id r =? ruleId))
       (filter (fun r => negb (RuleRow.id r =? ruleId)) rs) = None.
Proof.
  induction rs as [|r rs IH]; simpl; [reflexivity|].
  destruct (RuleRow.id r =? ruleId) eqn:E; simpl; [exact IH|].
  now rewrite E.
Qed.

Lemma find_app_rule (p : RuleRow.t -> bool) (l1 l2 : list RuleRow.t) :
  find p (l1 ++ l2)
  = match find p l1 with Some r => Some r | None => find p l2 end.
Proof.
  induction l1 as [|r l1 IH]; simpl; [reflexivity|].
  destruct (p r); [reflexivity|exact IH].
Qed.


(** What a save under a given id leaves in the table, for a rule whose
    provider is set. *)
Lemma saveRule_effect (rule : Rule.t) (w : World) :
  Rule.id rule <> "" ->
  Rule.provider rule <> None ->
  DatabaseService.saveRule h rule w
  = (Ok (Some (rowOf rule (sqlNow w))),
     setRules (filter (fun r => negb (RuleRow.id r =? Rule.id rule)) (rules w)
               ++ [rowOf rule (sqlNow w)]) w).
Proof.
  intros Hid Hprovider. unfold DatabaseService.saveRule, rowOf.
  apply String.eqb_neq in Hid. rewrite Hid.
  destruct (Rule.provider rule) as [provider|]; [|congruence]. cbv zeta.
  do 2 f_equal. unfold DatabaseService.getRule. simpl.
  rewrite find_app_rule, find_filter_same. simpl.
  now rewrite String.eqb_refl.
Qed.



(** X2.  [deleteRule] removes the rule of the given id and nothing else:
    the id is no longer found, every other id is looked up as before, the
    messages are untouched, and deleting again changes nothing. *)
Theorem deleteRule_removes_only_that_rule (ruleId : string) (w : World) :
  let w' := DatabaseService.deleteRule ruleId w in
  DatabaseService.getRule ruleId w' = None
  /\ (forall other, other <> ruleId ->
        DatabaseService.getRule other w' = DatabaseService.getRule other w)
  /\ emails w' = emails w
  /\ DatabaseService.deleteRule ruleId w' = w'
  /\ RulesEngine.deleteRule ruleId w = (Ok tt, w').
Proof.
  cbv zeta. unfold DatabaseService.getRule, DatabaseService.deleteRule.
  simpl. split; [apply find_filter_same|].
  split; [intros other Hne; now apply find_filter_other|].
  split; [reflexivity|]. split; [|reflexivity].
  unfold setRules. simpl. f_equal.
  induction (rules w) as [|r rs IH]; simpl; [reflexivity|].
  destruct (RuleRow.id r =? ruleId) eqn:E; simpl; [exact IH|].
  rewrite E. simpl. now rewrite IH.
Qed.

End RuleTableFacts.


(* ================================================================== *)
(** ** Creating and updating rules *)

Section RuleWriteFacts.
Variable h : Host.


Lemma getRule_id (ruleId : string) (r : RuleRow.t) (w : World) :
  DatabaseService.getRule ruleId w = Some r ->
  RuleRow.id r = ruleId /\ In r (rules w).
Proof.
  unfold DatabaseService.getRule. intros Hfind.
  apply find_some in Hfind. destruct Hfind as [Hin Heq].
  apply String.eqb_eq in Heq. tauto.
Qed.


(** X4.  [updateRule] on a stored rule, with updates that do not name an
    id: the call returns the row that is then found under the id; the row
    has the fields of the stored rule with the given ones replaced; its
    count is 0 and its creation time is the time of the update; every other
    id is looked up as before. *)
Theorem updateRule_replaces_given_fields (ruleId : string)
  (updates : Rule.updates) (r : RuleRow.t) (w : World) :
  ruleId <> "" ->
  DatabaseService.getRule ruleId w = Some r ->
  Rule.u_id updates = None ->
  exists row w',
    RulesEngine.updateRule h ruleId updates w = (Ok (Some row), w')
    /\ DatabaseService.getRule ruleId w' = Some row
    /\ RuleRow.id row = ruleId
    /\ RuleRow.name row = Rule.pick (Rule.u_name updates) (RuleRow.name r)
    /\ RuleRow.enabled row
       = Rule.pick (Rule.u_enabled updates) (RuleRow.enabled r)
    /\ RuleRow.conditions row
       = Rule.pick (Rule.u_conditions updates) (RuleRow.conditions r)
    /\ RuleRow.actions row
       = Rule.pick (Rule.u_actions updates) (RuleRow.actions r)
    /\ RuleRow.priority row
       = Rule.pick (Rule.u_priority updates) (RuleRow.priority r)
    /\ RuleRow.hit_count row = 0%Z
    /\ RuleRow.created_at row = sqlNow w
    /\ (forall other, other <> ruleId ->
          DatabaseService.getRule other w'
          = DatabaseService.getRule other w).
Proof.
  intros Hid Hget Hu.
  destruct (getRule_id ruleId r w Hget) as [Hrid _].
  assert (Hsid : Rule.id (Rule.spread (Rule.ofRow r) updates) = ruleId)
    by (simpl; rewrite Hu; exact Hrid).
  unfold RulesEngine.updateRule, bind, gets. rewrite Hget.
  rewrite saveRule_effect
    by (try (rewrite Hsid; exact Hid);
        cbn [Rule.spread Rule.ofRow Rule.provider];
        destruct (Rule.u_provider updates); discriminate).
  exists (rowOf (Rule.spread (Rule.ofRow r) updates) (sqlNow w)).
  eexists. split; [reflexivity|].
  unfold DatabaseService.getRule.
  cbn [rules setRules]. rewrite Hsid.
  split.
  - rewrite find_app_rule, find_filter_same.
    cbn [find rowOf RuleRow.id]. rewrite Hsid.
    now rewrite String.eqb_refl.
  - split; [exact Hsid|].
    repeat (split; [reflexivity|]).
    intros other Hne. rewrite find_app_rule, find_filter_other by exact Hne.
    destruct (find _ (rules w)); [reflexivity|].
    cbn [find rowOf RuleRow.id]. rewrite Hsid.
    destruct (String.eqb_spec ruleId other); [congruence|reflexivity].
Qed.

(** X5.  [updateRule] with updates that name another id does not rename
    the rule: the stored rule stays as it was under its id, and a copy that
    carries the updates is stored under the other id. *)
Theorem updateRule_with_other_id_copies (ruleId newId : string)
  (updates : Rule.updates) (r : RuleRow.t) (w : World) :
  DatabaseService.getRule ruleId w = Some r ->
  Rule.u_id updates = Some newId ->
  newId <> "" ->
  newId <> ruleId ->
  exists copy w',
    RulesEngine.updateRule h ruleId updates w = (Ok (Some copy), w')
    /\ RuleRow.id copy = newId
    /\ RuleRow.name copy = Rule.pick (Rule.u_name updates) (RuleRow.name r)
    /\ DatabaseService.getRule newId w' = Some copy
    /\ DatabaseService.getRule ruleId w' = Some r.
Proof.
  intros Hget Hu Hnew Hne.
  assert (Hsid : Rule.id (Rule.spread (Rule.ofRow r) updates) = newId)
    by (simpl; rewrite Hu; reflexivity).
  unfold RulesEngine.updateRule, bind, gets. rewrite Hget.
  rewrite saveRule_effect
    by (try (rewrite Hsid; exact Hnew);
        cbn [Rule.spread Rule.ofRow Rule.provider];
        destruct (Rule.u_provider updates); discriminate).
  exists (rowOf (Rule.spread (Rule.ofRow r) updates) (sqlNow w)).
  eexists. split; [reflexivity|].
  unfold DatabaseService.getRule in *.
  cbn [rules setRules]. rewrite Hsid.
  split; [exact Hsid|]. split; [reflexivity|]. split.
  - rewrite find_app_rule, find_filter_same.
    cbn [find rowOf RuleRow.id]. rewrite Hsid.
    now rewrite String.eqb_refl.
  - rewrite find_app_rule, find_filter_other by congruence.
    now rewrite Hget.
Qed.

End RuleWriteFacts.


Lemma updateRule_replaces_given_fields_witness :
  exists r row w',
    "rule-0" <> ""
    /\ DatabaseService.getRule "rule-0" bankWorld = Some r
    /\ Rule.u_id noUpdates = None
    /\ RulesEngine.updateRule sampleHost "rule-0" noUpdates bankWorld
       = (Ok (Some row), w')
    /\ RuleRow.name row = "Bank mail".
Proof.
  destruct (DatabaseService.getRule "rule-0" bankWorld) as [r|] eqn:Hget;
    [|discriminate].
  assert (Hid : "rule-0" <> "") by discriminate.
  destruct (updateRule_replaces_given_fields sampleHost "rule-0" noUpdates r
              bankWorld Hid Hget eq_refl)
    as (row & w' & Hrun & _ & _ & Hname & _).
  exists r, row, w'. repeat split; try assumption; try reflexivity.
  rewrite Hname. injection Hget as <-. reflexivity.
Defined.

Lemma updateRule_with_other_id_copies_witness :
  exists r copy w',
    DatabaseService.getRule "rule-0" bankWorld = Some r
    /\ RulesEngine.updateRule sampleHost "rule-0"
         {| Rule.u_id := Some "rule-9"; Rule.u_name := Some "Copy";
            Rule.u_enabled := None; Rule.u_conditions := None;
            Rule.u_actions := None; Rule.u_provider := None;
            Rule.u_priority := None; Rule.u_hitCount := None;
            Rule.u_lastHit := None |} bankWorld
       = (Ok (Some copy), w')
    /\ DatabaseService.getRule "rule-9" w' = Some copy
    /\ DatabaseService.getRule "rule-0" w' = Some r.
Proof.
  destruct (DatabaseService.getRule "rule-0" bankWorld) as [r|] eqn:Hget;
    [|discriminate].
  destruct (updateRule_with_other_id_copies sampleHost "rule-0" "rule-9"
              {| Rule.u_id := Some "rule-9"; Rule.u_name := Some "Copy";
                 Rule.u_enabled := None; Rule.u_conditions := None;
                 Rule.u_actions := None; Rule.u_provider := None;
                 Rule.u_priority := None; Rule.u_hitCount := None;
                 Rule.u_lastHit := None |} r bankWorld Hget eq_refl)
    as (copy & w' & Hrun & _ & _ & Hnew & Hold);
    [discriminate | discriminate |].
  exists r, copy, w'. repeat split; assumption.
Defined.

(* ================================================================== *)
(** ** What a pass of the rules leaves alone *)

Lemma onlyTouches_refl (id : string) (es : list Email.t) :
  onlyTouches id es es.
Proof. split; [auto | intros e' Hin; now left]. Qed.

Lemma onlyTouches_trans (id : string) (a b c : list Email.t) :
  onlyTouches id a b -> onlyTouches id b c -> onlyTouches id a c.
Proof.
  intros [Hab1 Hab2] [Hbc1 Hbc2]. split.
  - intros e Hin Hne. apply Hbc1; [apply Hab1|]; assumption.
  - intros e'' Hin. destruct (Hbc2 e'' Hin) as [Hb|[Hid (e' & Hb & Hid')]].
    + exact (Hab2 e'' Hb).
    + right. split; [exact Hid|].
      destruct (Hab2 e' Hb) as [Ha|[_ Hex]]; [|exact Hex].
      exists e'. tauto.
Qed.

Lemma updateWhere_onlyTouches (id : string) (p : Email.t -> bool)
  (f : Email.t -> Email.t) (w : World) :
  (forall e, p e = true -> Email.id e = id) ->
  (forall e, Email.id (f e) = Email.id e) ->
  onlyTouches id (emails w) (emails (DatabaseService.updateWhere p f w)).
Proof.
  intros Hp Hf. unfold DatabaseService.updateWhere. simpl. split.
  - intros e Hin Hne. apply in_map_iff. exists e. split; [|exact Hin].
    destruct (p e) eqn:E; [|reflexivity]. elim Hne. now apply Hp.
  - intros e' Hin. apply in_map_iff in Hin. destruct Hin as (e & <- & Hin).
    destruct (p e) eqn:E; [|now left].
    right. rewrite Hf. split; [now apply Hp|]. exists e. split; [exact Hin|].
    now apply Hp.
Qed.

Lemma deleteEmails_onlyTouches (id : string) (w : World) :
  onlyTouches id (emails w) (emails (DatabaseService.deleteEmails [id] w)).
Proof.
  unfold DatabaseService.deleteEmails. simpl. split.
  - intros e Hin Hne. apply filter_In. split; [exact Hin|].
    destruct (String.eqb_spec (Email.id e) id); [contradiction|reflexivity].
  - intros e' Hin. apply filter_In in Hin. now left.
Qed.

Section PassFacts.
Variable h : Host.

Lemma executeAction_onlyTouches (email : Email.t) (a : RuleAction.t)
  (w : World) :
  onlyTouches (Email.id email) (emails w)
              (emails (snd (RulesEngine.executeAction h email a w)))
  /\ opened (snd (RulesEngine.executeAction h email a w)) = opened w.
Proof.
  unfold RulesEngine.executeAction, EmailProviderManager.moveEmail,
    EmailProviderManager.archiveEmail, EmailProviderManager.deleteEmail,
    EmailProviderManager.remote, DatabaseService.updateEmailCategory,
    bind, modify, throw, ret.
  repeat case_if; try destruct (RuleAction.value a); simpl; split;
    try reflexivity; try apply onlyTouches_refl;
    try apply (deleteEmails_onlyTouches (Email.id email));
    try (apply updateWhere_onlyTouches; [|reflexivity]; intros e He;
         try (rewrite Bool.orb_false_r in He); now apply String.eqb_eq in He).
Qed.

Lemma executeActions_onlyTouches (email : Email.t)
  (actions : list RuleAction.t) :
  forall w,
  onlyTouches (Email.id email) (emails w)
              (emails (snd (RulesEngine.executeActions h email actions w)))
  /\ opened (snd (RulesEngine.executeActions h email actions w)) = opened w.
Proof.
  unfold RulesEngine.executeActions.
  induction actions as [|a actions IH]; intros w; simpl.
  - split; [apply onlyTouches_refl|reflexivity].
  - unfold bind, tryCatch.
    destruct (executeAction_onlyTouches email a w) as [Hstep Hopen].
    destruct (RulesEngine.executeAction h email a w) as [[[]|msg] w1];
      simpl in *; destruct (IH w1) as [IH1 IH2];
      (split; [eapply onlyTouches_trans; [exact Hstep | exact IH1]
              | transitivity (opened w1); [exact IH2 | exact Hopen]]).
Qed.

Lemma applyLoop_onlyTouches (email : Email.t) (rs : list RuleRow.t) :
  forall acc w,
  onlyTouches (Email.id email) (emails w)
              (emails (snd (RulesEngine.applyLoop h email rs acc w)))
  /\ opened (snd (RulesEngine.applyLoop h email rs acc w)) = opened w.
Proof.
  induction rs as [|rule rs IH]; intros acc w; simpl.
  - split; [apply onlyTouches_refl|reflexivity].
  - unfold bind, RulesEngine.liftO.
    rewrite matchesConditions_ruleMatches.
    destruct (ruleMatches h email rule); simpl; [|apply IH].
    unfold gets.
    match goal with
    | |- context [RulesEngine.executeActions h email ?a ?w1] =>
        destruct (executeActions_returns h email a w1) as [w2 Hrun];
        pose proof (executeActions_onlyTouches email a w1) as Hstep;
        rewrite Hrun in *
    end.
    simpl in Hstep. destruct Hstep as [Hstep Hopen].
    destruct (IH (acc ++ RuleRow.actions rule) w2) as [IH1 IH2].
    split; [|rewrite IH2, Hopen; destruct (RuleRow.id rule =? "");
             reflexivity].
    eapply onlyTouches_trans; [|exact IH1].
    destruct (RuleRow.id rule =? ""); exact Hstep.
Qed.

Lemma applyLoop_no_match (email : Email.t) (rs : list RuleRow.t) :
  forall acc w,
  (forall r, In r rs -> ruleMatches h email r = false) ->
  RulesEngine.applyLoop h email rs acc w = (Ok acc, w).
Proof.
  induction rs as [|rule rs IH]; intros acc w Hnone; simpl; [reflexivity|].
  unfold bind, RulesEngine.liftO.
  rewrite matchesConditions_ruleMatches.
  rewrite (Hnone rule) by now left.
  apply IH. intros r Hin. apply Hnone. now right.
Qed.

(** X6.  A pass in which no enabled rule matches the message returns the
    empty list and leaves the store exactly as it was: no message, no rule
    and no log entry is written. *)
Theorem applyRulesToEmail_without_match (email : Email.t) (w : World) :
  (forall r, In r (RulesEngine.evaluationOrder w) ->
             ruleMatches h email r = false) ->
  RulesEngine.applyRulesToEmail h email w = (Ok [], w).
Proof.
  intros Hnone. unfold RulesEngine.applyRulesToEmail, bind, gets.
  now apply applyLoop_no_match.
Qed.

(** X7.  A pass over a message writes to no other message: every stored
    message with another id is still stored unchanged after
    [applyRulesToEmail], every message stored afterwards was stored before
    or is a new version of the message of the pass, and no link is
    opened. *)
Theorem applyRulesToEmail_touches_one_message (email : Email.t) (w : World) :
  let w' := snd (RulesEngine.applyRulesToEmail h email w) in
  onlyTouches (Email.id email) (emails w) (emails w')
  /\ opened w' = opened w.
Proof.
  cbv zeta. unfold RulesEngine.applyRulesToEmail, bind, gets.
  apply applyLoop_onlyTouches.
Qed.

Lemma forOf_app (A : Type) (body : A -> M unit) (xs ys : list A) :
  forall w,
  forOf (xs ++ ys) body w
  = match forOf xs body w with
    | (Ok _, w1) => forOf ys body w1
    | (Thrown e, w1) => (Thrown e, w1)
    end.
Proof.
  induction xs as [|x xs IH]; intros w; simpl; [reflexivity|].
  unfold bind. destruct (body x w) as [[[]|e] w1]; [apply IH|reflexivity].
Qed.

(** X8.  [executeActions] never throws, whatever the actions do: the
    actions of a list run one after the other on the store that the ones
    before left, an action that throws does not stop the ones after it,
    and no action writes to a rule. *)
Theorem executeActions_isolates_failures (email : Email.t)
  (first rest : list RuleAction.t) (w : World) :
  exists w1 w2,
    RulesEngine.executeActions h email first w = (Ok tt, w1)
    /\ RulesEngine.executeActions h email rest w1 = (Ok tt, w2)
    /\ RulesEngine.executeActions h email (first ++ rest) w = (Ok tt, w2)
    /\ rules w2 = rules w.
Proof.
  destruct (executeActions_returns h email first w) as [w1 H1].
  destruct (executeActions_returns h email rest w1) as [w2 H2].
  exists w1, w2. split; [exact H1|]. split; [exact H2|]. split.
  - unfold RulesEngine.executeActions in *.
    rewrite forOf_app, H1. exact H2.
  - pose proof (executeActions_rules h email rest w1) as R2.
    pose proof (executeActions_rules h email first w) as R1.
    rewrite H2 in R2. rewrite H1 in R1. simpl in *. congruence.
Qed.

(** X9.  The [delete] action and the remote mailbox: when the provider
    rejects the call, the message stays in the store and only the call is
    logged; when the call resolves, the message is removed from the store;
    when no provider is registered for the account, the message is removed
    from the store and no call is issued.  In no case does the action
    throw. *)
Theorem delete_action_and_the_remote (email : Email.t) (w : World) :
  let run := RulesEngine.executeActions h email [deleteAction] w in
  let call := RemoteDelete (Email.id email) in
  (hasProvider h (Email.accountId email) = true ->
   remoteResolves h call = false ->
   run = (Ok tt, logRemote call w))
  /\ (hasProvider h (Email.accountId email) = true ->
      remoteResolves h call = true ->
      run = (Ok tt, DatabaseService.deleteEmails [Email.id email]
                      (logRemote call w)))
  /\ (hasProvider h (Email.accountId email) = false ->
      run = (Ok tt, DatabaseService.deleteEmails [Email.id email] w)).
Proof.
  cbv zeta.
  unfold RulesEngine.executeActions, RulesEngine.executeAction. simpl.
  unfold bind, tryCatch, EmailProviderManager.deleteEmail,
    EmailProviderManager.remote, bind, modify, ret.
  repeat split; intros; repeat match goal with
    | H : _ = _ |- _ => rewrite H; clear H end; reflexivity.
Qed.

End PassFacts.

Lemma applyRulesToEmail_without_match_witness :
  (forall r, In r (RulesEngine.evaluationOrder bankWorld) ->
             ruleMatches sampleHost
               (sampleEmail "m2" "friend@example.org" "Lunch"
                  "2024-03-02T10:00:00.000Z" None None []) r = false)
  /\ RulesEngine.applyRulesToEmail sampleHost
       (sampleEmail "m2" "friend@example.org" "Lunch"
          "2024-03-02T10:00:00.000Z" None None []) bankWorld
     = (Ok [], bankWorld).
Proof.
  assert (Hnone : forall r, In r (RulesEngine.evaluationOrder bankWorld) ->
             ruleMatches sampleHost
               (sampleEmail "m2" "friend@example.org" "Lunch"
                  "2024-03-02T10:00:00.000Z" None None []) r = false).
  { intros r [<-|[]]. reflexivity. }
  split; [exact Hnone|].
  exact (applyRulesToEmail_without_match sampleHost _ bankWorld Hnone).
Defined.

(* ================================================================== *)
(** ** Conditions on dates, attachments and sizes *)

Lemma toLowerCase_app (a b : string) :
  JS.toLowerCase (a ++ b) = (JS.toLowerCase a ++ JS.toLowerCase b)%string.
Proof. induction a as [|c a IH]; simpl; [reflexivity|now rewrite IH]. Qed.

Lemma compare_common_prefix (p a b : string) :
  String.compare (p ++ a) (p ++ b) = String.compare a b.
Proof.
  induction p as [|c p IH]; simpl; [reflexivity|].
  unfold Ascii.compare. now rewrite N.compare_refl.
Qed.

Lemma fieldValue_date (email : Email.t) :
  RulesEngine.fieldValue email "date" = Some (JS.VStr (Email.date email)).
Proof.
  unfold RulesEngine.fieldValue, JS.orElse. simpl.
  destruct (String.eqb_spec (Email.date email) ""); congruence.
Qed.

Section ConditionFacts.
Variable h : Host.

(** X10.  The operators [before] and [after] on the date do not read the
    time of day: the value of the condition is put in lower case and the
    date of the message is not, so the [T] that separates day and time is
    compared with [t].  A message dated on the day that the condition
    names is therefore always [before] the condition's moment and never
    [after] it, whatever the two times are, and it never [equals] it. *)
Theorem date_conditions_ignore_the_time (email : Email.t)
  (day time moment : string) :
  JS.toLowerCase day = day ->
  Email.date email = (day ++ "T" ++ time)%string ->
  RulesEngine.matchesCondition h email
    (dateCondition "before" (day ++ "T" ++ moment)) = Ok true
  /\ RulesEngine.matchesCondition h email
       (dateCondition "after" (day ++ "T" ++ moment)) = Ok false
  /\ RulesEngine.matchesCondition h email
       (dateCondition "equals" (day ++ "T" ++ moment)) = Ok false.
Proof.
  intros Hday Hdate.
  unfold RulesEngine.matchesCondition, dateCondition.
  cbn [RuleCondition.field RuleCondition.operator RuleCondition.value].
  rewrite fieldValue_date, Hdate, toLowerCase_app, Hday. simpl.
  unfold String.ltb. rewrite !compare_common_prefix. simpl.
  repeat split. f_equal. apply String.eqb_neq. intros Heq.
  apply (f_equal (String.compare (day ++ String "T" time))) in Heq.
  rewrite string_compare_refl, compare_common_prefix in Heq. discriminate.
Qed.

(** X11.  Conditions on the fields that are not text.  [hasAttachment
    equals v] matches exactly the messages with at least one attachment
    when [v] is [true] in any case of letters, and exactly the ones without
    when [v] is [false].  [size greaterThan v] matches exactly when [v]
    reads as a number below the size of the message, a missing size
    counting as 0; so a value that is not a number never matches, neither
    with [greaterThan] nor with [lessThan]. *)
Theorem conditions_on_attachments_and_size (email : Email.t) (v : string) :
  (JS.toLowerCase v = "true" ->
   RulesEngine.matchesCondition h email (hasAttachmentCondition v)
   = Ok (negb (List.length (Email.attachments email) =? 0)%nat))
  /\ (JS.toLowerCase v = "false" ->
      RulesEngine.matchesCondition h email (hasAttachmentCondition v)
      = Ok (List.length (Email.attachments email) =? 0)%nat)
  /\ (RulesEngine.matchesCondition h email
        {| RuleCondition.field := "size";
           RuleCondition.operator := "greaterThan";
           RuleCondition.value := v |} = Ok true
      <-> exists limit,
            parseNumber h v = Some limit
            /\ (limit < inject_Z match Email.size email with
                                 | Some n => n
                                 | None => 0%Z
                                 end)%Q)
  /\ (parseNumber h v = None ->
      forall operator, operator = "greaterThan" \/ operator = "lessThan" ->
      RulesEngine.matchesCondition h email
        {| RuleCondition.field := "size"; RuleCondition.operator := operator;
           RuleCondition.value := v |} = Ok false).
Proof.
  unfold RulesEngine.matchesCondition, hasAttachmentCondition,
    RulesEngine.fieldValue. simpl.
  split; [|split; [|split]].
  - intros ->. now destruct (Email.attachments email).
  - intros ->. now destruct (Email.attachments email).
  - unfold JS.numGt. split.
    + destruct (parseNumber h v) as [limit|]; [|discriminate].
      intros Hgt. injection Hgt as Hgt. exists limit. split; [reflexivity|].
      now apply Qltb_lt.
    + intros (limit & -> & Hlt). f_equal. now apply Qltb_lt.
  - intros Hnan operator [-> | ->]; simpl; unfold JS.numLt, JS.numGt;
      rewrite Hnan; reflexivity.
Qed.

End ConditionFacts.

Lemma date_conditions_ignore_the_time_witness :
  JS.toLowerCase "2024-03-01" = "2024-03-01"
  /\ RulesEngine.matchesCondition sampleHost statementEmail
       (dateCondition "before" "2024-03-01T08:00:00.000Z") = Ok true
  /\ RulesEngine.matchesCondition sampleHost statementEmail
       (dateCondition "after" "2024-03-01T08:00:00.000Z") = Ok false.
Proof.
  split; [reflexivity|].
  destruct (date_conditions_ignore_the_time sampleHost statementEmail
              "2024-03-01" "10:00:00.000Z" "08:00:00.000Z"
              eq_refl eq_refl) as (Hbefore & Hafter & _).
  split; [exact Hbefore | exact Hafter].
Defined.

(* ================================================================== *)
(** ** Queries on the messages *)

Lemma newestFirst_sorted (l : list Email.t) :
  StronglySorted datedNoEarlier (JS.sort DatabaseService.newestFirst l).
Proof.
  apply (sort_sorted _ DatabaseService.newestFirst (fun _ => True)).
  - intros a b _ _. unfold DatabaseService.newestFirst.
    destruct (String.leb_total (Email.date a) (Email.date b)); tauto.
  - intros a b c _ _ _. unfold DatabaseService.newestFirst. intros Hab Hbc.
    eapply string_leb_trans; eassumption.
  - apply Forall_forall. trivial.
Qed.

Lemma firstn_StronglySorted (A : Type) (R : A -> A -> Prop) (n : nat)
  (l : list A) :
  StronglySorted R l -> StronglySorted R (firstn n l).
Proof.
  intros Hs. revert n.
  induction Hs as [|x l Hs IH Hall]; intros [|n]; simpl; try constructor.
  - apply IH.
  - apply Forall_forall. intros y Hy. rewrite Forall_forall in Hall.
    apply Hall. revert Hy. clear. revert n.
    induction l as [|z l IHl]; intros [|n]; simpl; try tauto.
    intros [->|Hin]; [now left|right; eapply IHl; eassumption].
Qed.

(** X12.  [getEmails], for a query on account, category, read flag and
    limit: every message returned is stored and passes the query; the
    result is ordered from the latest date to the earliest; without a
    limit, and with the limit 0, it holds every stored message that passes
    the query, once each; with a limit [n] above 0 it is the first [n]
    messages of that list. *)
Theorem getEmails_selects_sorts_and_limits (o : DatabaseService.EmailQuery)
  (w : World) :
  let result := DatabaseService.getEmails o w in
  let unlimited :=
    DatabaseService.getEmails
      {| DatabaseService.accountId := DatabaseService.accountId o;
         DatabaseService.category := DatabaseService.category o;
         DatabaseService.isRead := DatabaseService.isRead o;
         DatabaseService.limit := None |} w in
  (forall e, In e result ->
             In e (emails w) /\ DatabaseService.selected o e = true)
  /\ StronglySorted datedNoEarlier result
  /\ Permutation unlimited (filter (DatabaseService.selected o) (emails w))
  /\ (DatabaseService.limit o = None \/ DatabaseService.limit o = Some 0%nat ->
      result = unlimited)
  /\ (forall n, DatabaseService.limit o = Some (S n) ->
        result = firstn (S n) unlimited
        /\ List.length result
           = Nat.min (S n)
               (List.length (filter (DatabaseService.selected o)
                                    (emails w)))).
Proof.
  cbv zeta. unfold DatabaseService.getEmails, DatabaseService.orderBy.
  assert (Hsel : DatabaseService.selected
                   {| DatabaseService.accountId := DatabaseService.accountId o;
                      DatabaseService.category := DatabaseService.category o;
                      DatabaseService.isRead := DatabaseService.isRead o;
                      DatabaseService.limit := None |}
                 = DatabaseService.selected o) by reflexivity.
  rewrite Hsel. simpl DatabaseService.limit.
  split; [|split; [|split; [|split]]].
  - intros e Hin. apply applyLimit_incl, sort_In, filter_In in Hin.
    exact Hin.
  - unfold DatabaseService.applyLimit.
    destruct (DatabaseService.limit o) as [[|n]|];
      try apply firstn_StronglySorted; apply newestFirst_sorted.
  - apply sort_perm.
  - intros [-> | ->]; reflexivity.
  - intros n ->. split; [reflexivity|].
    unfold DatabaseService.applyLimit.
    rewrite length_firstn.
    now rewrite (Permutation_length (sort_perm _ _ _)).
Qed.

(* ================================================================== *)
(** ** The result of [classify] *)

Lemma firstn_NoDup_strings (n : nat) (l : list string) :
  NoDup l -> NoDup (firstn n l).
Proof.
  intros Hnd. revert n.
  induction Hnd as [|x l Hx Hnd IH]; intros [|n]; simpl; try constructor.
  - intros Hin. apply Hx. revert Hin. clear. revert n.
    induction l as [|y l IHl]; intros [|n]; simpl; try tauto.
    intros [->|Hin]; [now left|right; eapply IHl; eassumption].
  - apply IH.
Qed.

Lemma firstn_Forall_strings (P : string -> Prop) (n : nat) (l : list string) :
  Forall P l -> Forall P (firstn n l).
Proof.
  intros Hall. revert n.
  induction Hall as [|x l Hx Hall IH]; intros [|n]; simpl; constructor;
    [exact Hx|apply IH].
Qed.

Section ClassifyFacts.
Variable h : Host.
Variable email : Email.t.

(** The keywords collected by the loop over the keywords of a category. *)
Lemma keywords_collected (good : string -> Prop) (text : string) (k : Q)
  (l : list string) :
  (forall kw, In kw l -> JS.includes text (JS.toLowerCase kw) = true ->
              good kw) ->
  forall (s0 : Q) (ex : list string),
  NoDup ex -> Forall good ex ->
  let ex' :=
    snd (fold_left
           (fun (st : Q * list string) keyword =>
              let (score, extracted) := st in
              if JS.includes text (JS.toLowerCase keyword)
              then (Double.add score k,
                    if existsb (String.eqb keyword) extracted
                    then extracted
                    else extracted ++ [keyword])
              else (score, extracted))
           l (s0, ex)) in
  NoDup ex' /\ Forall good ex'.
Proof.
  induction l as [|kw l IH]; intros Hgood s0 ex Hnd Hall; simpl;
    [split; assumption|].
  assert (Hrest : forall kw', In kw' l ->
                    JS.includes text (JS.toLowerCase kw') = true -> good kw')
    by (intros kw' Hin; apply Hgood; now right).
  destruct (JS.includes text (JS.toLowerCase kw)) eqn:Hinc;
    [|now apply IH].
  destruct (existsb (String.eqb kw) ex) eqn:Hseen; [now apply IH|].
  apply IH; [exact Hrest| |].
  - apply NoDup_app; [exact Hnd|repeat constructor; intros []|].
    intros x Hx [Heq|[]]. subst x.
    assert (Hex : existsb (String.eqb kw) ex = true).
    { apply existsb_exists. exists kw. split; [exact Hx|].
      apply String.eqb_refl. }
    congruence.
  - apply Forall_app. split; [exact Hall|]. constructor; [|constructor].
    apply Hgood; [now left|exact Hinc].
Qed.

Lemma scoreCategory_keywords (good : string -> Prop)
  (c : CategoryPattern.t) (ex : list string) :
  (forall kw, In kw (CategoryPattern.keywords c) ->
     JS.includes (EmailClassifier.fullText email) (JS.toLowerCase kw) = true ->
     good kw) ->
  NoDup ex -> Forall good ex ->
  let ex' := snd (EmailClassifier.scoreCategory h
                    (EmailClassifier.fullText email)
                    (EmailClassifier.senderText email) c ex) in
  NoDup ex' /\ Forall good ex'.
Proof.
  intros Hgood Hnd Hall. unfold EmailClassifier.scoreCategory.
  now apply keywords_collected.
Qed.

Lemma scoreAll_keywords (good : string -> Prop)
  (table : list CategoryPattern.t) :
  (forall c kw, In c table -> In kw (CategoryPattern.keywords c) ->
     JS.includes (EmailClassifier.fullText email) (JS.toLowerCase kw) = true ->
     good kw) ->
  NoDup (snd (EmailClassifier.scoreAll h table email))
  /\ Forall good (snd (EmailClassifier.scoreAll h table email)).
Proof.
  intros Hgood. unfold EmailClassifier.scoreAll.
  assert (Hgen : forall (st : JS.Map Q * list string),
             NoDup (snd st) -> Forall good (snd st) ->
             let out :=
               fold_left
                 (fun (st : JS.Map Q * list string) category =>
                    let (scores, extracted) := st in
                    let (score, extracted') :=
                      EmailClassifier.scoreCategory h
                        (EmailClassifier.fullText email)
                        (EmailClassifier.senderText email) category
                        extracted in
                    (JS.set (CategoryPattern.id category) score scores,
                     extracted'))
                 table st in
             NoDup (snd out) /\ Forall good (snd out)).
  { induction table as [|c table IH]; intros [scores ex] Hnd Hall; simpl;
      [split; assumption|].
    destruct (scoreCategory_keywords good c ex) as [Hnd' Hall'];
      [intros kw; apply Hgood; now left|exact Hnd|exact Hall|].
    destruct (EmailClassifier.scoreCategory h _ _ c ex) as [score ex'].
    apply IH; [|exact Hnd'|exact Hall'].
    intros c' kw Hc'. apply Hgood. now right. }
  apply (Hgen ([], [])); constructor.
Qed.

Lemma findBest_nonnegative (scores : JS.Map Q) :
  0 <= snd (EmailClassifier.findBest scores).
Proof.
  unfold EmailClassifier.findBest.
  destruct (findBest_from scores "uncategorized" 0)
    as [[-> _]|(_ & _ & _ & Hgt & _)]; [apply Qle_refl|].
  now apply Qlt_le_weak.
Qed.

Lemma findBest_uncategorized (scores : JS.Map Q) :
  ~ In "uncategorized" (map fst scores) ->
  (fst (EmailClassifier.findBest scores) = "uncategorized"
   /\ snd (EmailClassifier.findBest scores) = 0)
  \/ (fst (EmailClassifier.findBest scores) <> "uncategorized"
      /\ 0 < snd (EmailClassifier.findBest scores)).
Proof.
  intros Hout. unfold EmailClassifier.findBest.
  destruct (findBest_from scores "uncategorized" 0)
    as [[-> _]|(b & a & Hsplit & Hgt & _)]; [left; split; reflexivity|].
  right. split; [|exact Hgt]. intros Heq. apply Hout.
  rewrite Hsplit, map_app. apply in_or_app. right. left. exact Heq.
Qed.

Lemma finalScores_ids :
  map fst (EmailClassifier.finalScores h EmailClassifier.categoryPatterns
             email)
  = map CategoryPattern.id EmailClassifier.categoryPatterns.
Proof.
  rewrite finalScores_table, map_map. reflexivity.
Qed.

Lemma tenth_nonnegative (s : Q) : 0 <= s -> 0 <= Double.div s 10.
Proof.
  intros Hs. apply round_nonneg. unfold Qdiv.
  apply Qmult_le_0_compat; [exact Hs|]. unfold Qle. simpl. lia.
Qed.

Lemma tenth_positive (s : Q) : 0 < s -> 0 < Double.div s 10.
Proof.
  intros Hs. apply round_pos. unfold Qdiv.
  setoid_replace 0 with (0 * / 10) by ring.
  apply Qmult_lt_compat_r; [reflexivity|exact Hs].
Qed.

(** X13.  The result of [classify], for every message and whatever the
    patterns match: the confidence and the importance lie between 0 and
    1; at most 10 keywords are reported, none twice, and each is a keyword
    of the table that the text of the message contains; and the confidence
    is 0 exactly when the category is "uncategorized". *)
Theorem classify_result_in_range :
  let result := EmailClassifier.classify h email in
  (0 <= ClassificationResult.confidence result
   /\ ClassificationResult.confidence result <= 1)
  /\ (0 <= ClassificationResult.importance result
      /\ ClassificationResult.importance result <= 1)
  /\ (List.length (ClassificationResult.keywords result) <= 10)%nat
  /\ NoDup (ClassificationResult.keywords result)
  /\ Forall (reportable email) (ClassificationResult.keywords result)
  /\ (ClassificationResult.category result = "uncategorized"
      <-> ClassificationResult.confidence result == 0).
Proof.
  cbv zeta. unfold EmailClassifier.classify, EmailClassifier.classifyWith.
  pose proof (findBest_nonnegative
                (EmailClassifier.finalScores h
                   EmailClassifier.categoryPatterns email)) as Hpos.
  assert (Hout : ~ In "uncategorized"
                     (map fst (EmailClassifier.finalScores h
                                 EmailClassifier.categoryPatterns email))).
  { rewrite finalScores_ids, categoryPatterns_ids. simpl.
    intros H; repeat (destruct H as [H|H]; [discriminate H|]); exact H. }
  pose proof (findBest_uncategorized _ Hout) as Hcase.
  destruct (EmailClassifier.findBest _) as [best score].
  cbn [fst snd ClassificationResult.confidence ClassificationResult.importance
       ClassificationResult.keywords ClassificationResult.category] in *.
  destruct (scoreAll_keywords (reportable email)
              EmailClassifier.categoryPatterns) as [Hnd Hall].
  { intros c kw Hc Hkw Hinc. split; [|exact Hinc]. exists c. tauto. }
  split; [split|split; [split|split; [|split; [|split]]]].
  - apply Q.min_glb; [discriminate|now apply tenth_nonnegative].
  - apply Q.le_min_l.
  - unfold EmailClassifier.calculateImportance. apply Q.le_max_l.
  - unfold EmailClassifier.calculateImportance.
    apply Q.max_lub; [discriminate|apply Q.le_min_l].
  - apply firstn_le_length.
  - now apply firstn_NoDup_strings.
  - now apply firstn_Forall_strings.
  - destruct Hcase as [[-> ->]|[Hne Hgt]].
    + split; [reflexivity|tauto].
    + split; [contradiction|]. intros Hzero. exfalso.
      apply tenth_positive in Hgt.
      destruct (Q.min_spec 1 (Double.div score 10)) as [[_ Hmin]|[_ Hmin]];
        rewrite Hmin in Hzero.
      * discriminate Hzero.
      * rewrite Hzero in Hgt. exact (Qlt_irrefl _ Hgt).
Qed.

End ClassifyFacts.

(* ================================================================== *)
(** ** A message on which nothing fires *)

Section SilentFacts.
Variable h : Host.
Variable email : Email.t.

Lemma patterns_silent (test : string -> bool) (k : Q) (l : list string) :
  forallb (fun p => negb (test p)) l = true ->
  forall s0 : Q,
  fold_left (fun score p => if test p then Double.add score k else score)
            l s0
  = s0.
Proof.
  induction l as [|p l IH]; simpl; intros Hl s0; [reflexivity|].
  apply andb_true_iff in Hl. destruct Hl as [Hp Hl].
  apply negb_true_iff in Hp. rewrite Hp. now apply IH.
Qed.

Lemma keywords_silent (text : string) (k : Q) (l : list string) :
  forallb (fun kw => negb (JS.includes text (JS.toLowerCase kw))) l = true ->
  forall (s0 : Q) (ex : list string),
  fold_left
    (fun (st : Q * list string) keyword =>
       let (score, extracted) := st in
       if JS.includes text (JS.toLowerCase keyword)
       then (Double.add score k,
             if existsb (String.eqb keyword) extracted
             then extracted
             else extracted ++ [keyword])
       else (score, extracted))
    l (s0, ex)
  = (s0, ex).
Proof.
  induction l as [|kw l IH]; simpl; intros Hl s0 ex; [reflexivity|].
  apply andb_true_iff in Hl. destruct Hl as [Hk Hl].
  apply negb_true_iff in Hk. rewrite Hk. now apply IH.
Qed.

Lemma scoreAll_silent (table : list CategoryPattern.t) :
  forallb
    (fun c =>
       forallb (fun p => negb (regex_test h p (EmailClassifier.fullText email)))
               (CategoryPattern.patterns c)
       && forallb (fun p => negb (regex_test h p
                                    (EmailClassifier.senderText email)))
                  (CategoryPattern.senderPatterns c)
       && forallb (fun k => negb (JS.includes (EmailClassifier.fullText email)
                                              (JS.toLowerCase k)))
                  (CategoryPattern.keywords c))
    table = true ->
  EmailClassifier.scoreAll h table email
  = (fold_left (fun scores c => JS.set (CategoryPattern.id c) 0 scores)
               table [], []).
Proof.
  unfold EmailClassifier.scoreAll.
  generalize (@nil (string * Q)) as scores.
  generalize (@nil string) as ex.
  induction table as [|c table IH]; simpl; intros ex scores Hall;
    [reflexivity|].
  apply andb_true_iff in Hall. destruct Hall as [Hc Hall].
  apply andb_true_iff in Hc. destruct Hc as [Hc Hkw].
  apply andb_true_iff in Hc. destruct Hc as [Hp Hs].
  unfold EmailClassifier.scoreCategory.
  rewrite (patterns_silent _ _ _ Hp), (patterns_silent _ _ _ Hs),
    (keywords_silent _ _ _ Hkw).
  now apply IH.
Qed.

(** X14.  A message on which nothing in the table fires (no content
    pattern, no sender pattern, no keyword, no pattern of urgency): without
    the unsubscribe flag it is "uncategorized" with confidence 0 and
    importance 0.5; with the flag it is "marketing" with confidence 0.1 and
    importance 0.3, the numbers that these literals denote in the
    language.  In both cases no keyword is reported. *)
Theorem classify_silent_message :
  silent h email = true ->
  let result := EmailClassifier.classify h email in
  ClassificationResult.category result
  = (if Email.hasUnsubscribe email then "marketing" else "uncategorized")
  /\ ClassificationResult.confidence result
     == (if Email.hasUnsubscribe email then Double.lit 0.1 else 0)
  /\ ClassificationResult.importance result
     == (if Email.hasUnsubscribe email then Double.lit 0.3 else 0.5)
  /\ ClassificationResult.keywords result = [].
Proof.
  unfold silent. intros Hsilent.
  apply andb_true_iff in Hsilent. destruct Hsilent as [Htable Hurgent].
  cbv zeta. unfold EmailClassifier.classify, EmailClassifier.classifyWith,
    EmailClassifier.finalScores.
  rewrite (scoreAll_silent _ Htable). cbn [fst snd].
  assert (Himp : forall (c : string) (s : Q),
            EmailClassifier.calculateImportance h email c s
            = Qmax 0 (Qmin 1
                (let importance :=
                   if (c =? "important") then
                     Double.add (Double.lit 0.5) (Double.lit 0.3)
                   else if (c =? "financial") then
                     Double.add (Double.lit 0.5) (Double.lit 0.15)
                   else if (c =? "bills") then
                     Double.add (Double.lit 0.5) (Double.lit 0.1)
                   else if (c =? "travel") then
                     Double.add (Double.lit 0.5) (Double.lit 0.1)
                   else if (c =? "marketing") then
                     Double.sub (Double.lit 0.5) (Double.lit 0.2)
                   else if (c =? "social") then
                     Double.sub (Double.lit 0.5) (Double.lit 0.1)
                   else Double.lit 0.5 in
                 if JS.Qltb 5 s
                 then Double.add importance (Double.lit 0.1)
                 else importance))).
  { intros c s. unfold EmailClassifier.calculateImportance.
    fold (importanceText email).
    now rewrite (patterns_silent _ _ _ Hurgent). }
  destruct (Email.hasUnsubscribe email).
  - match goal with
    | |- context [EmailClassifier.findBest ?m] =>
        replace (EmailClassifier.findBest m) with ("marketing", 1)
          by (vm_compute; reflexivity)
    end.
    cbn [ClassificationResult.category ClassificationResult.confidence
         ClassificationResult.importance ClassificationResult.keywords].
    rewrite Himp.
    split; [reflexivity|]. split; [vm_compute; reflexivity|].
    split; [vm_compute|]; reflexivity.
  - match goal with
    | |- context [EmailClassifier.findBest ?m] =>
        replace (EmailClassifier.findBest m) with ("uncategorized", 0)
          by (vm_compute; reflexivity)
    end.
    cbn [ClassificationResult.category ClassificationResult.confidence
         ClassificationResult.importance ClassificationResult.keywords].
    rewrite Himp.
    split; [reflexivity|]. split; [vm_compute; reflexivity|].
    split; [vm_compute|]; reflexivity.
Qed.

End SilentFacts.

Lemma classify_silent_message_witness :
  silent sampleHost (quietEmail (Some "https://example.org/u")) = true
  /\ ClassificationResult.category
       (EmailClassifier.classify sampleHost
          (quietEmail (Some "https://example.org/u"))) = "marketing"
  /\ ClassificationResult.confidence
       (EmailClassifier.classify sampleHost
          (quietEmail (Some "https://example.org/u"))) == Double.lit 0.1.
Proof.
  assert (Hsilent : silent sampleHost
                      (quietEmail (Some "https://example.org/u")) = true)
    by (vm_compute; reflexivity).
  split; [exact Hsilent|].
  destruct (classify_silent_message sampleHost _ Hsilent)
    as (Hcat & Hconf & _).
  split; [exact Hcat | exact Hconf].
Defined.

(* ================================================================== *)
(** ** [classifyNewEmails] *)

Lemma same_id_same_email (es : list Email.t) (a b : Email.t) :
  NoDup (map Email.id es) -> In a es -> In b es ->
  Email.id a = Email.id b -> a = b.
Proof.
  induction es as [|e es IH]; simpl; intros Hnd Ha Hb Hid; [contradiction|].
  inversion Hnd as [|? ? Hfresh Hrest]; subst.
  destruct Ha as [<-|Ha], Hb as [<-|Hb]; auto.
  - elim Hfresh. rewrite Hid. now apply in_map.
  - elim Hfresh. rewrite <- Hid. now apply in_map.
Qed.

Section ClassifyNewFacts.
Variable h : Host.

Lemma classified_id (e : Email.t) : Email.id (classified h e) = Email.id e.
Proof. reflexivity. Qed.

Lemma classifyLoop_effect (todo : list Email.t) :
  forall w,
  emailIdsDistinct w ->
  NoDup (map Email.id todo) ->
  (forall e, In e todo -> In e (emails w)) ->
  forOf todo
    (fun email =>
       let classification := EmailClassifier.classify h email in
       bind
         (DatabaseService.updateEmailCategory (Email.id email)
            (Some (ClassificationResult.category classification)))
         (fun _ =>
            modify (DatabaseService.updateEmailMetadata (Email.id email)
                      (ClassificationResult.importance classification)
                      (ClassificationResult.keywords classification)))) w
  = (Ok tt,
     setEmails
       (map (fun e => if existsb (String.eqb (Email.id e)) (map Email.id todo)
                      then classified h e else e)
            (emails w))
       w).
Proof.
  match goal with
  | |- forall w, _ -> _ -> _ -> forOf _ ?b _ = _ => set (body := b)
  end.
  induction todo as [|email todo IH]; intros w Hw Hnd Hin; simpl.
  - unfold ret. f_equal. rewrite map_id. now destruct w.
  - inversion Hnd as [|? ? Hfresh Hrest]; subst.
    unfold bind at 1.
    set (w1 := DatabaseService.updateEmailMetadata (Email.id email)
                 (ClassificationResult.importance
                    (EmailClassifier.classify h email))
                 (ClassificationResult.keywords
                    (EmailClassifier.classify h email))
                 (snd (DatabaseService.updateEmailCategory (Email.id email)
                         (Some (ClassificationResult.category
                                  (EmailClassifier.classify h email))) w))).
    replace (body email w) with (Ok tt, w1) by reflexivity.
    assert (Hstep :
      emails w1
      = map (fun e => if (Email.id e =? Email.id email)
                      then classified h e else e) (emails w)).
    { subst w1.
      unfold DatabaseService.updateEmailMetadata,
        DatabaseService.updateEmailCategory, DatabaseService.updateWhere.
      simpl. rewrite map_map. apply map_ext_in. intros e He.
      destruct (String.eqb_spec (Email.id e) (Email.id email)) as [E|E];
        simpl.
      - rewrite E, String.eqb_refl.
        assert (e = email) as ->; [|reflexivity].
        apply (same_id_same_email (emails w));
          [exact Hw | exact He | apply Hin; now left | exact E].
      - apply String.eqb_neq in E. now rewrite E. }
    rewrite (IH w1).
    + f_equal. rewrite Hstep. unfold setEmails. subst w1. simpl. f_equal.
      rewrite map_map. apply map_ext. intros e.
      destruct (String.eqb_spec (Email.id e) (Email.id email)) as [E|E];
        simpl.
      * rewrite E. destruct (existsb _ _) eqn:Hmem; [|reflexivity].
        exfalso. apply existsb_exists in Hmem.
        destruct Hmem as (x & Hx & Heq). apply String.eqb_eq in Heq.
        apply Hfresh. now rewrite Heq.
      * reflexivity.
    + unfold emailIdsDistinct. rewrite Hstep, map_map.
      erewrite map_ext; [exact Hw|]. intros e. simpl.
      destruct (Email.id e =? Email.id email); reflexivity.
    + exact Hrest.
    + intros e He. rewrite Hstep. apply in_map_iff. exists e.
      split; [|apply Hin; now right].
      destruct (String.eqb_spec (Email.id e) (Email.id email)) as [E|E];
        [|reflexivity].
      elim Hfresh. rewrite <- E. now apply in_map.
Qed.

(** X15.  [classifyNewEmails] on a store in which no two messages share
    an id: the call returns, every message of the account whose category
    is "uncategorized" gets the category, the importance and the keywords
    that [classify] gives it, and every other message, and everything else
    in the store, is left as it was. *)
Theorem classifyNewEmails_effect (account : string) (w : World) :
  emailIdsDistinct w ->
  classifyNewEmails h account w
  = (Ok tt,
     setEmails (map (fun e => if pending account e then classified h e else e)
                    (emails w))
               w).
Proof.
  intros Hw. unfold classifyNewEmails, bind at 1, gets.
  assert (Htodo : forall e,
            In e (DatabaseService.getUnclassifiedEmails account w)
            <-> In e (emails w) /\ pending account e = true).
  { intros e. unfold DatabaseService.getUnclassifiedEmails,
      DatabaseService.orderBy. rewrite sort_In, filter_In. reflexivity. }
  rewrite classifyLoop_effect.
  - f_equal. f_equal. apply map_ext_in. intros e He.
    destruct (pending account e) eqn:Hp.
    + assert (Hmem : existsb (String.eqb (Email.id e))
                       (map Email.id
                          (DatabaseService.getUnclassifiedEmails account w))
                     = true).
      { apply existsb_exists. exists (Email.id e).
        split; [|apply String.eqb_refl].
        apply in_map. apply Htodo. tauto. }
      now rewrite Hmem.
    + destruct (existsb _ _) eqn:Hmem; [|reflexivity].
      exfalso. apply existsb_exists in Hmem.
      destruct Hmem as (x & Hx & Heq). apply String.eqb_eq in Heq.
      apply in_map_iff in Hx. destruct Hx as (e' & <- & He').
      apply Htodo in He'. destruct He' as [He' Hp'].
      assert (e = e')
        by (apply (same_id_same_email (emails w)); auto).
      subst e'. congruence.
  - exact Hw.
  - unfold DatabaseService.getUnclassifiedEmails, DatabaseService.orderBy.
    eapply Permutation_NoDup;
      [apply Permutation_map, Permutation_sym, sort_perm|].
    unfold emailIdsDistinct in Hw. revert Hw.
    generalize (emails w) as es.
    induction es as [|e es IHes]; simpl; intros Hnd; [constructor|].
    inversion Hnd as [|? ? Hfresh Hrest]; subst.
    match goal with |- context [if ?c then _ else _] => destruct c end;
      simpl; [|now apply IHes].
    constructor; [|now apply IHes].
    intros Hin. apply Hfresh. apply in_map_iff in Hin.
    destruct Hin as (x & Hx & Hin). apply filter_In in Hin.
    apply in_map_iff. exists x. tauto.
  - intros e He. apply Htodo in He. tauto.
Qed.

End ClassifyNewFacts.

Lemma classifyNewEmails_effect_witness :
  emailIdsDistinct (sampleWorld [statementEmail; quietEmail None] [])
  /\ map Email.category
       (emails (snd (classifyNewEmails sampleHost "account-1"
                       (sampleWorld [statementEmail; quietEmail None] []))))
     = [Some "financial"; Some "uncategorized"].
Proof.
  assert (Hw : emailIdsDistinct
                 (sampleWorld [statementEmail; quietEmail None] [])).
  { unfold emailIdsDistinct. simpl.
    repeat (constructor;
            [simpl; intros H;
             repeat (destruct H as [H|H]; [discriminate H|]); exact H|]).
    constructor. }
  split; [exact Hw|].
  rewrite (classifyNewEmails_effect sampleHost "account-1" _ Hw).
  vm_compute. reflexivity.
Defined.

(* ================================================================== *)
(** ** The actions of the cleanup page *)

Lemma filter_twice (p q : Email.t -> bool) (es : list Email.t) :
  filter q (filter p es) = filter (fun e => p e && q e) es.
Proof.
  induction es as [|e es IH]; simpl; [reflexivity|].
  destruct (p e); simpl; [|exact IH].
  destruct (q e); [now rewrite IH|exact IH].
Qed.

Lemma getEmail_absent (id : string) (w : World) (e : Email.t) :
  DatabaseService.getEmail id w = None -> In e (emails w) ->
  (Email.id e =? id) = false.
Proof.
  unfold DatabaseService.getEmail. intros Hnone Hin.
  exact (find_none _ _ Hnone e Hin).
Qed.

Lemma getEmail_kept (id : string) (ids : list string) (es : list Email.t) :
  ~ In id ids ->
  find (fun e => (Email.id e =? id)) (filter (notListed ids) es)
  = find (fun e => (Email.id e =? id)) es.
Proof.
  intros Hout. induction es as [|e es IH]; simpl; [reflexivity|].
  unfold notListed at 1.
  destruct (existsb (String.eqb (Email.id e)) ids) eqn:Hmem; simpl.
  - destruct (String.eqb_spec (Email.id e) id) as [E|E]; [|exact IH].
    exfalso. apply Hout. apply existsb_exists in Hmem.
    destruct Hmem as (x & Hx & Heq). apply String.eqb_eq in Heq.
    congruence.
  - destruct (Email.id e =? id); [reflexivity|exact IH].
Qed.

Section CleanupActionFacts.
Variable h : Host.

Lemma deleteStored_effect (emailIds : list string) :
  (forall id, In id emailIds -> remoteResolves h (RemoteDelete id) = true) ->
  forall w,
  exists w',
    CleanupService.forEachStored emailIds
      (EmailProviderManager.deleteEmail h) w = (Ok tt, w')
    /\ emails w' = filter (notListed emailIds) (emails w)
    /\ rules w' = rules w
    /\ opened w' = opened w.
Proof.
  unfold CleanupService.forEachStored.
  induction emailIds as [|id ids IH]; intros Hok w; simpl.
  - exists w. unfold ret. repeat split.
    unfold notListed. simpl. induction (emails w) as [|e es IHes];
      simpl; congruence.
  - assert (Hrest : forall x, In x ids ->
                      remoteResolves h (RemoteDelete x) = true)
      by (intros x Hx; apply Hok; now right).
    unfold bind at 1. unfold bind at 1. unfold gets at 1.
    destruct (DatabaseService.getEmail id w) as [email|] eqn:Hget.
    + unfold EmailProviderManager.deleteEmail, EmailProviderManager.remote,
        bind at 1, modify.
      rewrite (Hok id) by now left.
      destruct (hasProvider h (Email.accountId email));
        match goal with
        | |- context [forOf ids ?body ?w1] =>
            destruct (IH Hrest w1) as (w' & Hrun & Hemails & Hrules & Hopen)
        end;
        exists w'; (split; [exact Hrun|]);
        (split; [|split; [exact Hrules | exact Hopen]]);
        rewrite Hemails; unfold DatabaseService.deleteEmails; simpl;
        rewrite filter_twice; apply filter_ext; intros e;
        unfold notListed; simpl;
        rewrite Bool.orb_false_r;
        destruct (Email.id e =? id); reflexivity.
    + unfold ret.
      destruct (IH Hrest w) as (w' & Hrun & Hemails & Hrules & Hopen).
      exists w'. split; [exact Hrun|].
      split; [|split; [exact Hrules | exact Hopen]].
      rewrite Hemails. apply filter_ext_in. intros e He.
      unfold notListed. simpl.
      now rewrite (getEmail_absent id w e Hget He).
Qed.

(** X16.  The [delete] action of the cleanup page, when the provider
    resolves every deletion: the call succeeds, the store afterwards holds
    exactly the messages whose id was not listed, in their order, the rules
    are untouched and no link is opened.  The message of the result counts
    the ids given, stored or not. *)
Theorem executeAction_delete_removes_listed (emailIds : list string)
  (w : World) :
  (forall id, In id emailIds -> remoteResolves h (RemoteDelete id) = true) ->
  exists w',
    CleanupService.executeAction h (deleteRequest emailIds) w
    = (Ok {| CleanupAction.success := true;
             CleanupAction.message :=
               String.concat ""
                 ["Deleted "; JS.ofNat (List.length emailIds); " emails"] |},
       w')
    /\ emails w' = filter (notListed emailIds) (emails w)
    /\ rules w' = rules w
    /\ opened w' = opened w.
Proof.
  intros Hok.
  destruct (deleteStored_effect emailIds Hok w)
    as (w' & Hrun & Hemails & Hrules & Hopen).
  exists w'. split; [|auto].
  unfold CleanupService.executeAction, deleteRequest. simpl.
  unfold bind at 1. rewrite Hrun. reflexivity.
Qed.

(** X17.  The [delete] action stops at the first deletion that the
    provider rejects: the call throws instead of returning a result, the
    messages listed before the rejected one are already gone, and the
    rejected one and every message listed after it are still stored. *)
Theorem executeAction_delete_stops_at_rejection (before after : list string)
  (id : string) (email : Email.t) (w : World) :
  (forall x, In x before -> remoteResolves h (RemoteDelete x) = true) ->
  ~ In id before ->
  DatabaseService.getEmail id w = Some email ->
  hasProvider h (Email.accountId email) = true ->
  remoteResolves h (RemoteDelete id) = false ->
  exists message w',
    CleanupService.executeAction h (deleteRequest (before ++ id :: after)) w
    = (Thrown message, w')
    /\ emails w' = filter (notListed before) (emails w)
    /\ DatabaseService.getEmail id w' = Some email.
Proof.
  intros Hok Hout Hget Hprov Hrej.
  destruct (deleteStored_effect before Hok w)
    as (w1 & Hrun & Hemails & _ & _).
  assert (Hget1 : DatabaseService.getEmail id w1 = Some email).
  { unfold DatabaseService.getEmail in *. rewrite Hemails.
    now rewrite getEmail_kept. }
  unfold CleanupService.executeAction, deleteRequest. simpl.
  unfold bind at 1. unfold CleanupService.forEachStored in *.
  rewrite forOf_app, Hrun. simpl.
  unfold bind at 1. unfold bind at 1. unfold gets at 1. rewrite Hget1.
  unfold EmailProviderManager.deleteEmail, EmailProviderManager.remote,
    bind at 1. rewrite Hprov, Hrej.
  eexists. eexists. split; [reflexivity|]. split; [exact Hemails|].
  exact Hget1.
Qed.

End CleanupActionFacts.

Lemma executeAction_delete_removes_listed_witness :
  (forall id, In id ["m2"; "m9"] ->
              remoteResolves sampleHost (RemoteDelete id) = true)
  /\ exists w',
       CleanupService.executeAction sampleHost (deleteRequest ["m2"; "m9"])
         linksWorld
       = (Ok {| CleanupAction.success := true;
                CleanupAction.message := "Deleted 2 emails" |}, w')
       /\ emails w' = [statementEmail; emptyLinkEmail].
Proof.
  assert (Hok : forall id, In id ["m2"; "m9"] ->
                  remoteResolves sampleHost (RemoteDelete id) = true)
    by reflexivity.
  split; [exact Hok|].
  destruct (executeAction_delete_removes_listed sampleHost ["m2"; "m9"]
              linksWorld Hok) as (w' & Hrun & Hemails & _).
  exists w'. split; [exact Hrun|]. rewrite Hemails. reflexivity.
Defined.

Lemma executeAction_delete_stops_at_rejection_witness :
  exists message w',
    CleanupService.executeAction (hostRejecting "m2")
      (deleteRequest (["m1"] ++ "m2" :: ["m3"])) linksWorld
    = (Thrown message, w')
    /\ emails w' = [newsletterEmail; emptyLinkEmail].
Proof.
  destruct (executeAction_delete_stops_at_rejection (hostRejecting "m2")
              ["m1"] ["m3"] "m2" newsletterEmail linksWorld)
    as (message & w' & Hrun & Hemails & _).
  - intros x [<-|[]]. reflexivity.
  - intros [H|[]]. discriminate H.
  - reflexivity.
  - reflexivity.
  - reflexivity.
  - exists message, w'. split; [exact Hrun|]. rewrite Hemails. reflexivity.
Defined.

(* ================================================================== *)
(** ** A link that cannot be opened *)

Section UnsubscribeFacts.
Variable h : Host.

Lemma unsubscribeLoop_app (first rest : list string) :
  forall (acc : CleanupService.UnsubscribeResult) (w : World),
  CleanupService.unsubscribeLoop h (first ++ rest) acc w
  = match CleanupService.unsubscribeLoop h first acc w with
    | (Ok acc', w') => CleanupService.unsubscribeLoop h rest acc' w'
    | (Thrown e, w') => (Thrown e, w')
    end.
Proof.
  induction first as [|id ids IH]; intros acc w; simpl; [reflexivity|].
  unfold bind, gets.
  destruct (JS.truthy _).
  - destruct (CleanupService.openExternal h _ w) as [[[]|e] w1];
      [apply IH|reflexivity].
  - apply IH.
Qed.

(** X18.  [bulkUnsubscribe] stops at the first link that cannot be opened:
    the call throws, so the counts and the links collected so far are lost
    to the caller; the links of the messages before the refused one have
    been opened, the refused link has been tried, and no later link is
    tried.  No message is written. *)
Theorem bulkUnsubscribe_stops_at_refusal (before after : list string)
  (id : string) (w : World) :
  (forall x, In x before -> hasUsableLink w x = true ->
             openExternalResolves h (linkOf w x) = true) ->
  hasUsableLink w id = true ->
  openExternalResolves h (linkOf w id) = false ->
  exists message w',
    CleanupService.bulkUnsubscribe h (before ++ id :: after) w
    = (Thrown message, w')
    /\ opened w'
       = opened w ++ map (linkOf w) (filter (hasUsableLink w) before)
                  ++ [linkOf w id]
    /\ emails w' = emails w.
Proof.
  intros Hopen Husable Hrefused. unfold CleanupService.bulkUnsubscribe.
  rewrite unsubscribeLoop_app.
  destruct (unsubscribeLoop_counts h w before Hopen
              {| CleanupService.processed := 0; CleanupService.skipped := 0;
                 CleanupService.links := [] |} w eq_refl)
    as (w1 & -> & Hemails & _ & _ & Hopened).
  simpl. unfold bind at 1. unfold gets at 1.
  assert (Hlink : match DatabaseService.getEmail id w1 with
                  | Some e => Email.unsubscribeLink e
                  | None => None
                  end = storedLink w id).
  { unfold storedLink, DatabaseService.getEmail. now rewrite Hemails. }
  rewrite Hlink. fold (hasUsableLink w id). fold (linkOf w id).
  rewrite Husable. unfold bind at 1. unfold CleanupService.openExternal.
  rewrite Hrefused.
  eexists. eexists. split; [reflexivity|]. simpl.
  split; [|exact Hemails]. rewrite Hopened. now rewrite <- app_assoc.
Qed.

End UnsubscribeFacts.

Lemma bulkUnsubscribe_stops_at_refusal_witness :
  hasUsableLink linksWorld "m2" = true
  /\ openExternalResolves (hostRejecting "m2") (linkOf linksWorld "m2")
     = false
  /\ exists message w',
       CleanupService.bulkUnsubscribe (hostRejecting "m2")
         (["m1"] ++ "m2" :: ["m3"]) linksWorld
       = (Thrown message, w')
       /\ opened w' = ["https://shop.example/unsubscribe"].
Proof.
  split; [reflexivity|]. split; [reflexivity|].
  destruct (bulkUnsubscribe_stops_at_refusal (hostRejecting "m2")
              ["m1"] ["m3"] "m2" linksWorld)
    as (message & w' & Hrun & Hopened & _).
  - intros x [<-|[]]. discriminate.
  - reflexivity.
  - reflexivity.
  - exists message, w'. split; [exact Hrun|]. rewrite Hopened. reflexivity.
Defined.

(* ================================================================== *)
(** ** Grouping by a key *)

Section KeyedFoldFacts.
Variable V : Type.
Variable key : Email.t -> string.
Variable init : Email.t -> V.
Variable step : V -> Email.t -> V.

Lemma withKey_snoc (k : string) (l : list Email.t) (e : Email.t) :
  withKey key k (l ++ [e])
  = withKey key k l ++ (if (key e =? k) then [e] else []).
Proof.
  unfold withKey. rewrite filter_app. simpl.
  destruct (key e =? k); reflexivity.
Qed.

Lemma keyedFold_snoc (l : list Email.t) (e : Email.t) :
  keyedFold key init step (l ++ [e])
  = let k := key e in
    let groups := keyedFold key init step l in
    let groups := if JS.has k groups then groups
                  else JS.set k (init e) groups in
    match JS.get k groups with
    | Some v => JS.set k (step v e) groups
    | None => groups
    end.
Proof. unfold keyedFold. rewrite fold_left_app. reflexivity. Qed.

(** Under each key, the value built from the messages of the key, in the
    order of the list. *)
Lemma keyedFold_get (l : list Email.t) :
  forall k,
  JS.get k (keyedFold key init step l)
  = match withKey key k l with
    | [] => None
    | first :: rest => Some (fold_left step (first :: rest) (init first))
    end.
Proof.
  induction l as [|e l IH] using rev_ind; intros k; [reflexivity|].
  rewrite keyedFold_snoc, withKey_snoc. cbv zeta.
  set (k0 := key e).
  set (G := keyedFold key init step l) in *.
  assert (Hk0 : JS.get k0 (if JS.has k0 G then G else JS.set k0 (init e) G)
                = Some match withKey key k0 l with
                       | [] => init e
                       | first :: rest =>
                           fold_left step (first :: rest) (init first)
                       end).
  { unfold JS.has. rewrite (IH k0).
    destruct (withKey key k0 l) eqn:Hm.
    - rewrite get_set, String.eqb_refl. reflexivity.
    - rewrite (IH k0), Hm. reflexivity. }
  rewrite Hk0, get_set.
  destruct (String.eqb_spec k k0) as [->|Hne].
  - rewrite String.eqb_refl.
    destruct (withKey key k0 l) as [|first rest]; [reflexivity|].
    cbn [app]. change (first :: rest ++ [e]) with ((first :: rest) ++ [e]).
    now rewrite fold_left_app.
  - assert (Hne' : (k0 =? k) = false)
      by (apply String.eqb_neq; congruence).
    rewrite Hne', app_nil_r.
    destruct (JS.has k0 G); [apply IH|].
    rewrite get_set. apply String.eqb_neq in Hne. rewrite Hne. apply IH.
Qed.

Lemma keyedFold_NoDup (l : list Email.t) :
  NoDup (map fst (keyedFold key init step l)).
Proof.
  induction l as [|e l IH] using rev_ind; [constructor|].
  rewrite keyedFold_snoc. cbv zeta.
  set (k0 := key e).
  set (G := keyedFold key init step l) in *.
  assert (H1 : NoDup (map fst (if JS.has k0 G then G
                               else JS.set k0 (init e) G)))
    by (destruct (JS.has k0 G); [exact IH | now apply set_NoDup]).
  destruct (JS.get k0 _); [now apply set_NoDup | exact H1].
Qed.

Lemma keyedFold_entry (l : list Email.t) (k : string) (v : V) :
  In (k, v) (keyedFold key init step l) ->
  exists first rest,
    withKey key k l = first :: rest
    /\ v = fold_left step (first :: rest) (init first).
Proof.
  intros Hin. apply In_get in Hin; [|apply keyedFold_NoDup].
  rewrite keyedFold_get in Hin.
  destruct (withKey key k l) as [|first rest]; [discriminate|].
  exists first, rest. split; [reflexivity|congruence].
Qed.

Lemma keyedFold_covers (l : list Email.t) (e : Email.t) :
  In e l -> In (key e) (map fst (keyedFold key init step l)).
Proof.
  intros Hin.
  destruct (JS.get (key e) (keyedFold key init step l)) as [v|] eqn:Hget.
  - apply get_In in Hget. apply in_map_iff. now exists (key e, v).
  - rewrite keyedFold_get in Hget.
    assert (Hmem : In e (withKey key (key e) l)).
    { apply filter_In. split; [exact Hin|apply String.eqb_refl]. }
    destruct (withKey key (key e) l); [contradiction|discriminate].
Qed.

End KeyedFoldFacts.

Lemma collect_all (ms acc : list Email.t) :
  fold_left (fun members e => members ++ [e]) ms acc = acc ++ ms.
Proof.
  revert acc. induction ms as [|m ms IH]; intros acc; simpl;
    [now rewrite app_nil_r|].
  rewrite IH. now rewrite <- app_assoc.
Qed.

(** The groups of [groupBy]: under each key, the messages of the key. *)
Lemma groupBy_entry (key : Email.t -> string) (l : list Email.t)
  (k : string) (ms : list Email.t) :
  In (k, ms) (CleanupService.groupBy key l) ->
  ms = withKey key k l /\ ms <> [].
Proof.
  intros Hin.
  change (CleanupService.groupBy key l)
    with (keyedFold key (fun _ => @nil Email.t)
                    (fun members e => members ++ [e]) l) in Hin.
  apply keyedFold_entry in Hin. destruct Hin as (first & rest & Hms & ->).
  rewrite collect_all, Hms. split; [reflexivity|discriminate].
Qed.

Lemma groupBy_NoDup (key : Email.t -> string) (l : list Email.t) :
  NoDup (map fst (CleanupService.groupBy key l)).
Proof.
  change (CleanupService.groupBy key l)
    with (keyedFold key (fun _ => @nil Email.t)
                    (fun members e => members ++ [e]) l).
  apply keyedFold_NoDup.
Qed.

Lemma withKey_other (A : Type) (key : A -> string) (k : string) (e : A)
  (l : list A) :
  key e <> k -> withKey key k (e :: l) = withKey key k l.
Proof.
  intros Hne. unfold withKey. simpl.
  destruct (String.eqb_spec (key e) k); [contradiction|reflexivity].
Qed.

Lemma withKey_same (A : Type) (key : A -> string) (e : A) (l : list A) :
  withKey key (key e) (e :: l) = e :: withKey key (key e) l.
Proof. unfold withKey. simpl. now rewrite String.eqb_refl. Qed.

(** Each entry counts for exactly one key. *)
Lemma count_per_key (A : Type) (key : A -> string) (ks : list string) :
  NoDup ks ->
  forall l, (forall e, In e l -> In (key e) ks) ->
  list_sum (map (fun k => List.length (withKey key k l)) ks) = List.length l.
Proof.
  intros Hnd l. induction l as [|e l IH]; intros Hcover.
  - clear. induction ks as [|k ks IHks]; simpl; [reflexivity|exact IHks].
  - assert (Hone : forall ks', NoDup ks' -> In (key e) ks' ->
               list_sum (map (fun k => List.length (withKey key k (e :: l)))
                             ks')
               = S (list_sum (map (fun k => List.length (withKey key k l))
                                  ks'))).
    { clear. intros ks' Hnd.
      induction Hnd as [|k ks' Hfresh Hnd IHks];
        cbn [map list_sum fold_right In]; [contradiction|].
      fold (list_sum (map (fun k => List.length (withKey key k (e :: l)))
                          ks')).
      fold (list_sum (map (fun k => List.length (withKey key k l)) ks')).
      intros [->|Hin].
      - rewrite withKey_same. cbn [List.length Nat.add]. f_equal.
        f_equal. f_equal. apply map_ext_in. intros k' Hk'.
        rewrite withKey_other; [reflexivity|].
        intros E. apply Hfresh. now rewrite E.
      - rewrite withKey_other, IHks; [lia|exact Hin|].
        intros E. apply Hfresh. now rewrite <- E. }
    rewrite Hone; [|exact Hnd|apply Hcover; now left].
    simpl. f_equal. apply IH. intros x Hx. apply Hcover. now right.
Qed.

Lemma list_sum_perm (l l' : list nat) :
  Permutation l l' -> list_sum l = list_sum l'.
Proof.
  induction 1; simpl; lia.
Qed.

(* ================================================================== *)
(** ** Subscriptions *)

Lemma marketingOf_spec (account : option string) (w : World) (e : Email.t) :
  In e (CleanupService.marketingOf account w) ->
  In e (emails w) /\ Email.category e = Some "marketing".
Proof.
  unfold CleanupService.marketingOf, DatabaseService.getEmails,
    DatabaseService.orderBy. intros Hin.
  apply applyLimit_incl, sort_In, filter_In in Hin.
  destruct Hin as [Hin Hsel]. split; [exact Hin|].
  unfold DatabaseService.selected in Hsel. simpl in Hsel.
  apply andb_true_iff in Hsel. destruct Hsel as [Hsel _].
  apply andb_true_iff in Hsel. destruct Hsel as [_ Hcat].
  destruct (Email.category e) as [c|]; [|discriminate].
  apply String.eqb_eq in Hcat. now subst c.
Qed.

Section SubscriptionFacts.
Variable h : Host.

Lemma inactiveOf_sound (limit : string)
  (groups : JS.Map (list Email.t)) :
  forall acc e,
  In e (fold_left
          (fun inactiveEmails (entry : string * list Email.t) =>
             let (domain, senderEmails) := entry in
             let allUnread :=
               forallb (fun e => negb (Email.isRead e)) senderEmails in
             match JS.sort (CleanupService.byDateDesc h) senderEmails with
             | newestEmail :: _ =>
                 if allUnread && (Email.date newestEmail <? limit)
                 then inactiveEmails ++ [newestEmail]
                 else inactiveEmails
             | [] => inactiveEmails
             end)
          groups acc) ->
  In e acc
  \/ exists k ms,
       In (k, ms) groups /\ In e ms
       /\ forallb (fun e => negb (Email.isRead e)) ms = true
       /\ (Email.date e <? limit) = true.
Proof.
  induction groups as [|[k ms] groups IH]; intros acc e; simpl;
    [now left|].
  intros Hin. apply IH in Hin.
  destruct Hin as [Hin|(k' & ms' & Hk & Hrest)];
    [|right; exists k', ms'; tauto].
  destruct (JS.sort (CleanupService.byDateDesc h) ms) as [|newest rest]
    eqn:Hsort; [now left|].
  destruct (forallb _ ms && (Email.date newest <? limit)) eqn:Htest;
    [|now left].
  apply in_app_or in Hin. destruct Hin as [Hin|[<-|[]]]; [now left|].
  right. exists k, ms. apply andb_true_iff in Htest.
  destruct Htest as [Hall Hold].
  split; [now left|]. split; [|tauto].
  apply (sort_In _ (CleanupService.byDateDesc h)). rewrite Hsort. now left.
Qed.

Lemma inactiveOf_distinct (key : Email.t -> string) (limit : string)
  (groups : JS.Map (list Email.t)) :
  (forall k ms m, In (k, ms) groups -> In m ms -> key m = k) ->
  NoDup (map fst groups) ->
  forall acc,
  NoDup (map key acc) ->
  (forall a, In a acc -> ~ In (key a) (map fst groups)) ->
  NoDup (map key
           (fold_left
              (fun inactiveEmails (entry : string * list Email.t) =>
                 let (domain, senderEmails) := entry in
                 let allUnread :=
                   forallb (fun e => negb (Email.isRead e)) senderEmails in
                 match JS.sort (CleanupService.byDateDesc h) senderEmails
                 with
                 | newestEmail :: _ =>
                     if allUnread && (Email.date newestEmail <? limit)
                     then inactiveEmails ++ [newestEmail]
                     else inactiveEmails
                 | [] => inactiveEmails
                 end)
              groups acc)).
Proof.
  induction groups as [|[k ms] groups IH]; intros Hkey Hnd acc Hacc Hout;
    simpl; [exact Hacc|].
  inversion Hnd as [|? ? Hfresh Hrest]; subst.
  assert (Hkey' : forall k' ms' m, In (k', ms') groups -> In m ms' ->
                                   key m = k')
    by (intros k' ms' m Hin; apply Hkey; now right).
  assert (Hout' : forall a, In a acc -> ~ In (key a) (map fst groups))
    by (intros a Ha Hin; apply (Hout a Ha); now right).
  destruct (JS.sort (CleanupService.byDateDesc h) ms) as [|newest rest]
    eqn:Hsort; [now apply IH|].
  destruct (forallb _ ms && (Email.date newest <? limit));
    [|now apply IH].
  assert (Hnewest : key newest = k).
  { apply (Hkey k ms); [now left|].
    apply (sort_In _ (CleanupService.byDateDesc h)). rewrite Hsort.
    now left. }
  apply IH; [exact Hkey'|exact Hrest| |].
  - rewrite map_app. simpl. apply NoDup_app; [exact Hacc| |].
    + repeat constructor. intros [].
    + intros x Hx [<-|[]]. apply in_map_iff in Hx.
      destruct Hx as (a & Ha & Hin). apply (Hout a Hin).
      left. simpl. congruence.
  - intros a Ha. apply in_app_or in Ha. destruct Ha as [Ha|[<-|[]]];
      [now apply Hout'|]. now rewrite Hnewest.
Qed.

Lemma inactiveOf_grows (limit : string) (groups : JS.Map (list Email.t)) :
  forall acc a,
  In a acc ->
  In a (fold_left
          (fun inactiveEmails (entry : string * list Email.t) =>
             let (domain, senderEmails) := entry in
             let allUnread :=
               forallb (fun e => negb (Email.isRead e)) senderEmails in
             match JS.sort (CleanupService.byDateDesc h) senderEmails with
             | newestEmail :: _ =>
                 if allUnread && (Email.date newestEmail <? limit)
                 then inactiveEmails ++ [newestEmail]
                 else inactiveEmails
             | [] => inactiveEmails
             end)
          groups acc).
Proof.
  induction groups as [|[k ms] groups IH]; intros acc a Ha; simpl;
    [exact Ha|].
  apply IH.
  destruct (JS.sort (CleanupService.byDateDesc h) ms) as [|newest rest];
    [exact Ha|].
  destruct (forallb _ ms && (Email.date newest <? limit)); [|exact Ha].
  apply in_or_app. now left.
Qed.

Lemma inactiveOf_complete (limit : string)
  (groups : JS.Map (list Email.t)) :
  forall acc k ms,
  In (k, ms) groups -> ms <> [] ->
  forallb (fun e => negb (Email.isRead e)) ms = true ->
  (forall m, In m ms -> (Email.date m <? limit) = true) ->
  exists e,
    In e ms
    /\ In e (fold_left
               (fun inactiveEmails (entry : string * list Email.t) =>
                  let (domain, senderEmails) := entry in
                  let allUnread :=
                    forallb (fun e => negb (Email.isRead e)) senderEmails in
                  match JS.sort (CleanupService.byDateDesc h) senderEmails
                  with
                  | newestEmail :: _ =>
                      if allUnread && (Email.date newestEmail <? limit)
                      then inactiveEmails ++ [newestEmail]
                      else inactiveEmails
                  | [] => inactiveEmails
                  end)
               groups acc).
Proof.
  induction groups as [|[k0 ms0] groups IH];
    intros acc k ms Hin Hne Hunread Hold; simpl; [contradiction|].
  destruct Hin as [[= -> ->]|Hin]; [|now apply (IH _ k ms)].
  pose proof (sort_perm _ (CleanupService.byDateDesc h) ms) as Hperm.
  destruct (JS.sort (CleanupService.byDateDesc h) ms) as [|newest rest].
  - apply Permutation_nil in Hperm. contradiction.
  - assert (Hmem : In newest ms)
      by (eapply Permutation_in; [exact Hperm|now left]).
    rewrite Hunread, (Hold newest Hmem). simpl.
    exists newest. split; [exact Hmem|].
    apply inactiveOf_grows. apply in_or_app. right. now left.
Qed.

(** X19.  [findInactiveSubscriptions] only reads the store, and what it
    returns is sound: every message returned is a stored marketing message
    of the account with the unsubscribe flag, unread, dated before the
    instant 90 days ago in the order of the stored text, and no marketing
    message with the flag from the same sender domain has been read; no
    two messages returned come from the same sender domain.  The other way
    round, a sender domain whose flagged marketing messages are all unread
    and all dated before that instant has one of its messages returned. *)
Theorem findInactiveSubscriptions_sound (cal : Calendar)
  (account : option string) (w : World) :
  exists found,
    CleanupService.findInactiveSubscriptions h cal account w = (Ok found, w)
    /\ NoDup (map CleanupService.domainOrSender found)
    /\ (forall e, In e found ->
         In e (emails w)
         /\ Email.category e = Some "marketing"
         /\ Email.hasUnsubscribe e = true
         /\ Email.isRead e = false
         /\ (Email.date e <? subDaysISO cal (isoNow w) 90) = true
         /\ forall e', In e' (subscribed account w) ->
              CleanupService.domainOrSender e'
              = CleanupService.domainOrSender e ->
              Email.isRead e' = false)
    /\ (forall e, In e (subscribed account w) ->
         (forall e', In e' (subscribed account w) ->
            CleanupService.domainOrSender e'
            = CleanupService.domainOrSender e ->
            Email.isRead e' = false
            /\ (Email.date e' <? subDaysISO cal (isoNow w) 90) = true) ->
         exists r, In r found
                   /\ CleanupService.domainOrSender r
                      = CleanupService.domainOrSender e).
Proof.
  exists (CleanupService.inactiveOf h (subDaysISO cal (isoNow w) 90)
            (CleanupService.groupBy CleanupService.domainOrSender
               (subscribed account w))).
  split; [reflexivity|].
  unfold CleanupService.inactiveOf.
  assert (Hkey : forall k ms m,
            In (k, ms) (CleanupService.groupBy CleanupService.domainOrSender
                          (subscribed account w)) ->
            In m ms -> CleanupService.domainOrSender m = k).
  { intros k ms m Hin Hm. apply groupBy_entry in Hin.
    destruct Hin as [-> _]. apply filter_In in Hm.
    now apply String.eqb_eq. }
  split; [|split].
  - apply inactiveOf_distinct;
      [exact Hkey|apply groupBy_NoDup|constructor|intros a []].
  - intros e He. apply inactiveOf_sound in He.
    destruct He as [[]|(k & ms & Hin & Hmem & Hunread & Hold)].
    pose proof (Hkey k ms e Hin Hmem) as Hk.
    apply groupBy_entry in Hin. destruct Hin as [-> _].
    assert (Hsub : In e (subscribed account w))
      by (apply filter_In in Hmem; tauto).
    unfold subscribed in Hsub. apply filter_In in Hsub.
    destruct Hsub as [Hmarketing Hflag].
    destruct (marketingOf_spec account w e Hmarketing) as [Hstored Hcat].
    rewrite forallb_forall in Hunread.
    split; [exact Hstored|]. split; [exact Hcat|]. split; [exact Hflag|].
    split; [apply negb_true_iff, Hunread, Hmem|]. split; [exact Hold|].
    intros e' He' Hsame. apply negb_true_iff, Hunread.
    apply filter_In. split; [exact He'|].
    apply String.eqb_eq. congruence.
  - intros e He Hall.
    pose proof (keyedFold_covers (list Email.t)
                  CleanupService.domainOrSender
                  (fun _ => @nil Email.t) (fun members x => members ++ [x])
                  (subscribed account w) e He) as Hcover.
    change (keyedFold CleanupService.domainOrSender (fun _ => @nil Email.t)
              (fun members x => members ++ [x]) (subscribed account w))
      with (CleanupService.groupBy CleanupService.domainOrSender
              (subscribed account w)) in Hcover.
    apply in_map_iff in Hcover. destruct Hcover as ([k ms] & Hk & Hin).
    simpl in Hk. subst k.
    destruct (groupBy_entry _ _ _ _ Hin) as [Hms Hne].
    destruct (inactiveOf_complete (subDaysISO cal (isoNow w) 90) _ []
                _ ms Hin Hne) as (r & Hr & Hfound).
    + apply forallb_forall. intros m Hm. rewrite Hms in Hm.
      apply filter_In in Hm. destruct Hm as [Hm Hsame].
      apply String.eqb_eq in Hsame. apply negb_true_iff.
      now apply Hall.
    + intros m Hm. rewrite Hms in Hm.
      apply filter_In in Hm. destruct Hm as [Hm Hsame].
      apply String.eqb_eq in Hsame. now apply Hall.
    + exists r. split; [exact Hfound|]. now apply (Hkey _ ms).
Qed.

End SubscriptionFacts.

(* ================================================================== *)
(** ** The analysis of subscriptions *)

Lemma string_ltb_leb (a b : string) : (a <? b) = true -> (a <=? b) = true.
Proof.
  unfold String.ltb, String.leb. now destruct (String.compare a b).
Qed.

Lemma string_not_ltb_leb (a b : string) :
  (a <? b) = false -> (b <=? a) = true.
Proof.
  unfold String.ltb, String.leb. rewrite (String.compare_antisym a b).
  now destruct (String.compare b a).
Qed.

Lemma string_leb_refl (a : string) : (a <=? a) = true.
Proof. unfold String.leb. now rewrite string_compare_refl. Qed.

Lemma percentRead_range (readCount count : nat) :
  (readCount <= count)%nat -> (0 < count)%nat ->
  (0 <= CleanupService.percentRead readCount count <= 100)%Z.
Proof.
  intros Hle Hpos. unfold CleanupService.percentRead.
  assert (Hn : 0 < inject_Z (Z.of_nat count)).
  { change 0 with (inject_Z 0). rewrite <- Zlt_Qlt. lia. }
  assert (Hlow : 0 <= inject_Z (Z.of_nat readCount)
                      / inject_Z (Z.of_nat count)).
  { apply Qle_shift_div_l; [exact Hn|].
    setoid_replace (0 * inject_Z (Z.of_nat count)) with 0 by ring.
    change 0 with (inject_Z 0). rewrite <- Zle_Qle. lia. }
  assert (Hhigh : inject_Z (Z.of_nat readCount) / inject_Z (Z.of_nat count)
                  <= 1).
  { apply Qle_shift_div_r; [exact Hn|].
    setoid_replace (1 * inject_Z (Z.of_nat count))
      with (inject_Z (Z.of_nat count)) by ring.
    rewrite <- Zle_Qle. lia. }
  pose proof (round_mono _ _ Hlow) as Rlow.
  pose proof (round_mono _ _ Hhigh) as Rhigh.
  change (Double.round 0) with 0 in Rlow.
  change (Double.round 1) with 1 in Rhigh.
  fold (Double.div (inject_Z (Z.of_nat readCount))
                   (inject_Z (Z.of_nat count))) in Rlow, Rhigh.
  set (share := Double.div _ _) in *.
  assert (Plow : 0 <= share * 100) by lra.
  assert (Phigh : share * 100 <= 100) by lra.
  apply round_mono in Plow, Phigh.
  change (Double.round 0) with 0 in Plow.
  replace (Double.round 100) with 100 in Phigh by (vm_compute; reflexivity).
  fold (Double.mul share 100) in Plow, Phigh.
  unfold Double.mathRound. split.
  - change 0%Z with (Qfloor 0). apply Qfloor_resp_le. lra.
  - apply Z.le_trans with (Qfloor (100 + (1 # 2)));
      [apply Qfloor_resp_le; lra|discriminate].
Qed.

Lemma subscriptionStep_fold (ms : list Email.t) :
  forall d0 : CleanupService.SubscriptionData,
  let d := fold_left subscriptionStep ms d0 in
  CleanupService.sub_emails d = CleanupService.sub_emails d0 ++ ms
  /\ CleanupService.sub_readCount d
     = (CleanupService.sub_readCount d0
        + List.length (filter Email.isRead ms))%nat
  /\ CleanupService.sub_hasUnsubscribe d
     = CleanupService.sub_hasUnsubscribe d0
       || existsb Email.hasUnsubscribe ms
  /\ (CleanupService.sub_lastEmail d0 <=? CleanupService.sub_lastEmail d)
     = true
  /\ (forall m, In m ms ->
        (Email.date m <=? CleanupService.sub_lastEmail d) = true)
  /\ (CleanupService.sub_lastEmail d = CleanupService.sub_lastEmail d0
      \/ exists m, In m ms
                   /\ CleanupService.sub_lastEmail d = Email.date m).
Proof.
  induction ms as [|m ms IH]; intros d0; cbv zeta; simpl.
  - rewrite app_nil_r, Nat.add_0_r, Bool.orb_false_r.
    repeat split; try tauto. apply string_leb_refl.
  - destruct (IH (subscriptionStep d0 m))
      as (Hemails & Hcount & Hflag & Hmono & Hmax & Hsome).
    cbv zeta in *. simpl in *.
    split; [rewrite Hemails; now rewrite <- app_assoc|].
    split; [rewrite Hcount; destruct (Email.isRead m); simpl; lia|].
    split; [rewrite Hflag; destruct (Email.hasUnsubscribe m);
            [now rewrite Bool.orb_true_r|reflexivity]|].
    destruct (CleanupService.sub_lastEmail d0 <? Email.date m) eqn:Hlt.
    + split; [eapply string_leb_trans; [|exact Hmono];
              now apply string_ltb_leb|].
      split; [intros x [<-|Hx]; [exact Hmono|now apply Hmax]|].
      right. destruct Hsome as [Hsame|(x & Hx & Hdate)].
      * exists m. split; [now left|exact Hsame].
      * exists x. split; [now right|exact Hdate].
    + split; [exact Hmono|].
      split; [intros x [<-|Hx]; [|now apply Hmax];
              eapply string_leb_trans; [|exact Hmono];
              now apply string_not_ltb_leb|].
      destruct Hsome as [Hsame|(x & Hx & Hdate)]; [now left|].
      right. exists x. split; [now right|exact Hdate].
Qed.

Lemma subscriptionMap_entry (l : list Email.t) (k : string)
  (d : CleanupService.SubscriptionData) :
  In (k, d) (CleanupService.subscriptionMap l) ->
  let ms := withKey CleanupService.domainOrSender k l in
  ms <> []
  /\ CleanupService.sub_emails d = ms
  /\ CleanupService.sub_readCount d = List.length (filter Email.isRead ms)
  /\ CleanupService.sub_hasUnsubscribe d = existsb Email.hasUnsubscribe ms
  /\ (forall m, In m ms ->
        (Email.date m <=? CleanupService.sub_lastEmail d) = true)
  /\ (exists m, In m ms /\ CleanupService.sub_lastEmail d = Email.date m).
Proof.
  intros Hin.
  change (CleanupService.subscriptionMap l)
    with (keyedFold CleanupService.domainOrSender subscriptionInit
                    subscriptionStep l) in Hin.
  apply keyedFold_entry in Hin. destruct Hin as (first & rest & Hms & ->).
  cbv zeta. rewrite Hms.
  destruct (subscriptionStep_fold (first :: rest) (subscriptionInit first))
    as (Hemails & Hcount & Hflag & Hmono & Hmax & Hsome).
  cbv zeta in *.
  split; [discriminate|]. split; [exact Hemails|].
  split; [exact Hcount|]. split; [exact Hflag|]. split; [exact Hmax|].
  destruct Hsome as [Hsame|Hsome]; [|exact Hsome].
  exists first. split; [now left|exact Hsame].
Qed.

(** X20.  [getSubscriptionAnalysis] only reads the store.  It reports one
    entry per sender domain of the marketing messages of the account and
    none else; the entry of a domain counts the messages of the domain,
    carries the unsubscribe flag when one of them does, has a read rate
    between 0 and 100, and its last date is the date of one of the
    messages, none of which is dated later in the order of the stored
    text; the counts add up to the number of marketing messages; the
    entries are ordered from the most messages to the fewest; and
    [active] and [inactive] add up to [total], the number of entries. *)
Theorem getSubscriptionAnalysis_counts (account : option string)
  (w : World) :
  exists a,
    CleanupService.getSubscriptionAnalysis account w = (Ok a, w)
    /\ NoDup (map Subscription.domain (CleanupService.subscriptions a))
    /\ (forall s, In s (CleanupService.subscriptions a) ->
          let ms := withKey CleanupService.domainOrSender
                            (Subscription.domain s)
                            (CleanupService.marketingOf account w) in
          ms <> []
          /\ Subscription.emailCount s = List.length ms
          /\ Subscription.hasUnsubscribe s
             = existsb Email.hasUnsubscribe ms
          /\ (0 <= Subscription.readRate s <= 100)%Z
          /\ (forall m, In m ms ->
                (Email.date m <=? Subscription.lastEmail s) = true)
          /\ (exists m, In m ms /\ Subscription.lastEmail s = Email.date m))
    /\ (forall e, In e (CleanupService.marketingOf account w) ->
          exists s, In s (CleanupService.subscriptions a)
                    /\ Subscription.domain s
                       = CleanupService.domainOrSender e)
    /\ list_sum (map Subscription.emailCount (CleanupService.subscriptions a))
       = List.length (CleanupService.marketingOf account w)
    /\ StronglySorted notFewer (CleanupService.subscriptions a)
    /\ CleanupService.total a = List.length (CleanupService.subscriptions a)
    /\ (CleanupService.active a <= CleanupService.total a)%nat
    /\ CleanupService.inactive a
       = (Z.of_nat (CleanupService.total a)
          - Z.of_nat (CleanupService.active a))%Z.
Proof.
  set (l := CleanupService.marketingOf account w).
  set (subs := map CleanupService.subscriptionOf
                   (CleanupService.subscriptionMap l)).
  exists {| CleanupService.total := List.length subs;
            CleanupService.active :=
              List.length (filter (fun s => (20 <? Subscription.readRate s)%Z)
                                  subs);
            CleanupService.inactive :=
              (Z.of_nat (List.length subs)
               - Z.of_nat (List.length
                             (filter (fun s =>
                                        (20 <? Subscription.readRate s)%Z)
                                     subs)))%Z;
            CleanupService.subscriptions :=
              JS.sort CleanupService.byEmailCount subs |}.
  split; [reflexivity|]. cbn [CleanupService.subscriptions
    CleanupService.total CleanupService.active CleanupService.inactive].
  pose proof (sort_perm _ CleanupService.byEmailCount subs) as Hperm.
  assert (Hdomains : map Subscription.domain subs
                     = map fst (CleanupService.subscriptionMap l)).
  { subst subs. rewrite map_map. apply map_ext. now intros [k d]. }
  assert (Hsubs : forall s, In s subs ->
            exists d, In (Subscription.domain s, d)
                         (CleanupService.subscriptionMap l)
                      /\ Subscription.emailCount s
                         = List.length (CleanupService.sub_emails d)
                      /\ Subscription.lastEmail s
                         = CleanupService.sub_lastEmail d
                      /\ Subscription.readRate s
                         = CleanupService.percentRead
                             (CleanupService.sub_readCount d)
                             (List.length (CleanupService.sub_emails d))
                      /\ Subscription.hasUnsubscribe s
                         = CleanupService.sub_hasUnsubscribe d).
  { intros s Hs. subst subs. apply in_map_iff in Hs.
    destruct Hs as ([k d] & <- & Hin). exists d.
    split; [exact Hin|]. repeat split. }
  assert (Hcount : forall s, In s subs ->
            Subscription.emailCount s
            = List.length (withKey CleanupService.domainOrSender
                             (Subscription.domain s) l)).
  { intros s Hs. destruct (Hsubs s Hs) as (d & Hin & Heq & _).
    destruct (subscriptionMap_entry l _ d Hin) as (_ & Hemails & _).
    now rewrite Heq, Hemails. }
  split; [|split; [|split; [|split; [|split; [|split; [|split]]]]]].
  - eapply Permutation_NoDup;
      [apply Permutation_map, Permutation_sym, Hperm|].
    rewrite Hdomains.
    change (CleanupService.subscriptionMap l)
      with (keyedFold CleanupService.domainOrSender subscriptionInit
                      subscriptionStep l).
    apply keyedFold_NoDup.
  - intros s Hs. apply (Permutation_in _ Hperm) in Hs.
    destruct (Hsubs s Hs) as (d & Hin & _ & Hlast & Hrate & Hfl).
    destruct (subscriptionMap_entry l _ d Hin)
      as (Hne & Hemails & Hread & Hflag & Hmax & Hsome).
    cbv zeta in *.
    split; [exact Hne|]. split; [now apply Hcount|].
    split; [rewrite Hfl; exact Hflag|].
    split; [|split; rewrite Hlast; assumption].
    rewrite Hrate, Hemails, Hread.
    apply percentRead_range.
    + apply filter_length_le.
    + destruct (withKey _ _ l); [contradiction|simpl; lia].
  - intros e He.
    pose proof (keyedFold_covers _ CleanupService.domainOrSender
                  subscriptionInit subscriptionStep l e He) as Hcover.
    change (keyedFold CleanupService.domainOrSender subscriptionInit
                      subscriptionStep l)
      with (CleanupService.subscriptionMap l) in Hcover.
    rewrite <- Hdomains in Hcover. apply in_map_iff in Hcover.
    destruct Hcover as (s & Hdom & Hs). exists s. split; [|exact Hdom].
    eapply Permutation_in; [apply Permutation_sym, Hperm|exact Hs].
  - rewrite (list_sum_perm _ _ (Permutation_map _ Hperm)).
    rewrite (map_ext_in _ (fun s => List.length
                             (withKey CleanupService.domainOrSender
                                (Subscription.domain s) l)) subs Hcount).
    rewrite <- (map_map Subscription.domain
                  (fun k => List.length
                              (withKey CleanupService.domainOrSender k l))).
    rewrite Hdomains. apply count_per_key.
    + change (CleanupService.subscriptionMap l)
        with (keyedFold CleanupService.domainOrSender subscriptionInit
                        subscriptionStep l).
      apply keyedFold_NoDup.
    + intros e He.
      exact (keyedFold_covers _ CleanupService.domainOrSender
               subscriptionInit subscriptionStep l e He).
  - apply (StronglySorted_impl _ (inOrder CleanupService.byEmailCount)).
    + intros x y Hxy. unfold inOrder, CleanupService.byEmailCount in Hxy.
      unfold notFewer. now apply Nat.leb_le.
    + apply (sort_sorted _ _ (fun _ => True)).
      * intros x y _ _. unfold CleanupService.byEmailCount.
        rewrite !Nat.leb_le. lia.
      * intros x y z _ _ _. unfold CleanupService.byEmailCount.
        rewrite !Nat.leb_le. lia.
      * apply Forall_forall. trivial.
  - now rewrite (Permutation_length Hperm).
  - apply filter_length_le.
  - reflexivity.
Qed.

(* ================================================================== *)
(** ** The suggestions of the cleanup page *)

Lemma In_whenever (A : Type) (test : bool) (x y : A) :
  In y (CleanupService.whenever test x) -> test = true /\ y = x.
Proof.
  unfold CleanupService.whenever. destruct test; simpl; [|tauto].
  intros [<-|[]]. tauto.
Qed.

Lemma six_suggestions (f : CleanupSuggestion.t -> string)
  (b1 b2 b3 b4 b5 b6 : bool) (s1 s2 s3 s4 s5 s6 : CleanupSuggestion.t) :
  f s1 = "duplicates" -> f s2 = "inactive-subscriptions" ->
  f s3 = "marketing-cleanup" -> f s4 = "large-attachments" ->
  f s5 = "old-transactional" -> f s6 = "unread-newsletters" ->
  let all :=
    ((((CleanupService.whenever b1 s1 ++ CleanupService.whenever b2 s2)
       ++ CleanupService.whenever b3 s3)
      ++ CleanupService.whenever b4 s4)
     ++ CleanupService.whenever b5 s5)
    ++ CleanupService.whenever b6 s6 in
  NoDup (map f all) /\ (List.length all <= 6)%nat.
Proof.
  intros H1 H2 H3 H4 H5 H6. cbv zeta.
  destruct b1, b2, b3, b4, b5, b6; simpl; rewrite ?H1, ?H2, ?H3, ?H4, ?H5, ?H6;
    (split; [|lia]);
    repeat (constructor;
            [simpl; intros H;
             repeat (destruct H as [H|H]; [discriminate H|]); exact H|]);
    constructor.
Qed.

Lemma byPriorityOrder_sorted (l : list CleanupSuggestion.t) :
  StronglySorted noLessUrgent (JS.sort CleanupService.byPriorityOrder l).
Proof.
  apply (StronglySorted_impl _ (inOrder CleanupService.byPriorityOrder)).
  - intros a b. unfold inOrder, CleanupService.byPriorityOrder, noLessUrgent.
    rewrite Z.leb_le. lia.
  - apply (sort_sorted _ _ (fun _ => True)).
    + intros a b _ _. unfold CleanupService.byPriorityOrder.
      rewrite !Z.leb_le. lia.
    + intros a b c _ _ _. unfold CleanupService.byPriorityOrder.
      rewrite !Z.leb_le. lia.
    + apply Forall_forall. trivial.
Qed.

Section SuggestionFacts.
Variable h : Host.

Lemma duplicates_groups (account : option string) (w : World)
  (g : DuplicateGroup.t) :
  In g (CleanupService.duplicatesOf h
          (CleanupService.groupByKey (cleanupWindow account w))) ->
  (1 < List.length (DuplicateGroup.emails g))%nat
  /\ forall e, In e (DuplicateGroup.emails g) -> In e (emails w).
Proof.
  rewrite duplicatesOf_map. intros Hin. apply in_map_iff in Hin.
  destruct Hin as ([k ms] & <- & Hin). apply filter_In in Hin.
  destruct Hin as [Hin Hbig]. simpl in *.
  pose proof (sort_perm _ (CleanupService.byDateDesc h) ms) as Hperm.
  split.
  - rewrite (Permutation_length Hperm). now apply Nat.ltb_lt.
  - intros e He. apply (Permutation_in _ Hperm) in He.
    apply groupByKey_entry in Hin. subst ms.
    apply filter_In in He. destruct He as [He _].
    now apply In_getEmails in He.
Qed.

Lemma inactive_stored (limit : string) (account : option string)
  (w : World) (e : Email.t) :
  In e (CleanupService.inactiveOf h limit
          (CleanupService.groupBy CleanupService.domainOrSender
             (subscribed account w))) ->
  In e (emails w).
Proof.
  unfold CleanupService.inactiveOf. intros Hin.
  apply inactiveOf_sound in Hin.
  destruct Hin as [[]|(k & ms & Hk & Hmem & _)].
  apply groupBy_entry in Hk. destruct Hk as [-> _].
  apply filter_In in Hmem. destruct Hmem as [Hmem _].
  unfold subscribed in Hmem. apply filter_In in Hmem.
  now apply (marketingOf_spec account w).
Qed.

Lemma ids_stored (w : World) (l : list Email.t) :
  (forall e, In e l -> In e (emails w)) ->
  forall id, In id (map Email.id l) -> storedId w id.
Proof.
  intros Hl id Hin. apply in_map_iff in Hin.
  destruct Hin as (e & <- & He). exists e. split; [now apply Hl|reflexivity].
Qed.

Lemma longer_nonempty (A B : Type) (f : A -> B) (n : nat) (l : list A) :
  (n <? List.length l)%nat = true -> map f l <> [].
Proof.
  destruct l; simpl; [|discriminate].
  intros H. apply Nat.ltb_lt in H. lia.
Qed.

(** X21.  [getSuggestions] of the cleanup service only reads the store.
    It returns at most six suggestions with distinct ids, ordered from the
    highest priority to the lowest; every suggestion lists at least one
    message, and every id that a suggestion lists is the id of a stored
    message. *)
Theorem cleanup_suggestions_sorted_and_backed (cal : Calendar)
  (account : option string) (w : World) :
  exists suggestions,
    CleanupService.getSuggestions h cal account w = (Ok suggestions, w)
    /\ StronglySorted noLessUrgent suggestions
    /\ NoDup (map CleanupSuggestion.id suggestions)
    /\ (List.length suggestions <= 6)%nat
    /\ forall s, In s suggestions ->
         CleanupSuggestion.emailIds s <> []
         /\ forall id, In id (CleanupSuggestion.emailIds s) -> storedId w id.
Proof.
  unfold CleanupService.getSuggestions.
  cbv beta iota zeta delta [bind gets ret CleanupService.findDuplicates
    CleanupService.findInactiveSubscriptions
    CleanupService.findLargeAttachments].
  eexists. split; [reflexivity|].
  fold (cleanupWindow account w). fold (subscribed account w).
  match goal with
  | |- context [JS.sort _ (((((CleanupService.whenever ?b1 ?s1
                                ++ CleanupService.whenever ?b2 ?s2)
                               ++ CleanupService.whenever ?b3 ?s3)
                              ++ CleanupService.whenever ?b4 ?s4)
                             ++ CleanupService.whenever ?b5 ?s5)
                            ++ CleanupService.whenever ?b6 ?s6)] =>
      destruct (six_suggestions CleanupSuggestion.id b1 b2 b3 b4 b5 b6
                  s1 s2 s3 s4 s5 s6 eq_refl eq_refl eq_refl eq_refl eq_refl
                  eq_refl) as [Hids Hlen];
      set (all := ((((CleanupService.whenever b1 s1
                      ++ CleanupService.whenever b2 s2)
                     ++ CleanupService.whenever b3 s3)
                    ++ CleanupService.whenever b4 s4)
                   ++ CleanupService.whenever b5 s5)
                  ++ CleanupService.whenever b6 s6) in *
  end.
  pose proof (sort_perm _ CleanupService.byPriorityOrder all) as Hperm.
  split; [apply byPriorityOrder_sorted|].
  split; [eapply Permutation_NoDup;
          [apply Permutation_map, Permutation_sym, Hperm|exact Hids]|].
  split; [now rewrite (Permutation_length Hperm)|].
  intros s Hs. apply (Permutation_in _ Hperm) in Hs. subst all.
  repeat (apply in_app_or in Hs; destruct Hs as [Hs|Hs]);
    apply In_whenever in Hs; destruct Hs as [Htest ->];
    cbn [CleanupSuggestion.emailIds].
  - split.
    + destruct (CleanupService.duplicatesOf h _) as [|g rest] eqn:Hdups;
        [discriminate|].
      assert (Hg : In g (CleanupService.duplicatesOf h
                           (CleanupService.groupByKey
                              (cleanupWindow account w))))
        by (rewrite Hdups; now left).
      apply duplicates_groups in Hg. destruct Hg as [Hbig _].
      simpl. destruct (DuplicateGroup.emails g) as [|e1 [|e2 more]];
        simpl in *; try lia. discriminate.
    + intros id Hid. apply in_flat_map in Hid.
      destruct Hid as (g & Hg & Hid).
      apply duplicates_groups in Hg. destruct Hg as [_ Hstored].
      apply (ids_stored w (skipn 1 (DuplicateGroup.emails g)));
        [|exact Hid].
      intros e He. apply Hstored.
      destruct (DuplicateGroup.emails g); simpl in *; tauto.
  - split; [now apply (longer_nonempty _ _ _ 0)|].
    apply ids_stored. intros e. apply inactive_stored.
  - split; [now apply (longer_nonempty _ _ _ 50)|].
    apply ids_stored. intros e He.
    now apply (marketingOf_spec account w).
  - split; [now apply (longer_nonempty _ _ _ 0)|].
    apply ids_stored. intros e He. apply filter_In in He.
    destruct He as [He _]. now apply In_getEmails in He.
  - split; [now apply (longer_nonempty _ _ _ 0)|].
    apply ids_stored. intros e He. apply filter_In in He.
    destruct He as [He _]. now apply In_getEmails in He.
  - split; [now apply (longer_nonempty _ _ _ 20)|].
    apply ids_stored. intros e He. now apply In_getEmails in He.
Qed.

End SuggestionFacts.

(* ================================================================== *)
(** ** What the suggestion on duplicates leaves *)

Lemma firstn_NoDup_emails (n : nat) (l : list Email.t) :
  NoDup l -> NoDup (firstn n l).
Proof.
  intros Hnd. revert n.
  induction Hnd as [|x l Hx Hnd IH]; intros [|n]; simpl; try constructor.
  - intros Hin. apply Hx. revert Hin. clear. revert n.
    induction l as [|y l IHl]; intros [|n]; simpl; try tauto.
    intros [->|Hin]; [now left|right; eapply IHl; eassumption].
  - apply IH.
Qed.

Lemma getEmails_NoDup (o : DatabaseService.EmailQuery) (w : World) :
  emailIdsDistinct w -> NoDup (DatabaseService.getEmails o w).
Proof.
  intros Hw. apply NoDup_map_inv in Hw.
  unfold DatabaseService.getEmails, DatabaseService.orderBy.
  assert (Hsorted : NoDup (JS.sort DatabaseService.newestFirst
                             (filter (DatabaseService.selected o)
                                     (emails w)))).
  { eapply Permutation_NoDup; [apply Permutation_sym, sort_perm|].
    now apply NoDup_filter. }
  unfold DatabaseService.applyLimit.
  destruct (DatabaseService.limit o) as [[|n]|]; try exact Hsorted.
  now apply firstn_NoDup_emails.
Qed.

Lemma same_hash_same_group (groups : list DuplicateGroup.t)
  (a b : DuplicateGroup.t) :
  NoDup (map DuplicateGroup.hash groups) -> In a groups -> In b groups ->
  DuplicateGroup.hash a = DuplicateGroup.hash b -> a = b.
Proof.
  induction groups as [|g groups IH]; simpl; intros Hnd Ha Hb Heq;
    [contradiction|].
  inversion Hnd as [|? ? Hfresh Hrest]; subst.
  destruct Ha as [<-|Ha], Hb as [<-|Hb]; auto.
  - elim Hfresh. rewrite Heq. now apply in_map.
  - elim Hfresh. rewrite <- Heq. now apply in_map.
Qed.

Lemma count_spared (groups : list DuplicateGroup.t) :
  (forall g, In g groups -> (1 <= List.length (DuplicateGroup.emails g))%nat) ->
  forall acc : nat,
  fold_left
    (fun sum g => (sum + List.length (DuplicateGroup.emails g) - 1)%nat)
    groups acc
  = (acc + List.length
             (flat_map (fun g => map Email.id
                                     (skipn 1 (DuplicateGroup.emails g)))
                       groups))%nat.
Proof.
  induction groups as [|g groups IH]; intros Hbig acc; simpl; [lia|].
  rewrite IH by (intros x Hx; apply Hbig; now right).
  rewrite length_app, length_map.
  pose proof (Hbig g (or_introl eq_refl)) as Hg.
  destruct (DuplicateGroup.emails g); simpl in *; lia.
Qed.

Section SpareFacts.
Variable h : Host.

Lemma duplicates_shape (account : option string) (w : World) :
  emailIdsDistinct w ->
  let groups := CleanupService.duplicatesOf h
                  (CleanupService.groupByKey (cleanupWindow account w)) in
  NoDup (map DuplicateGroup.hash groups)
  /\ forall g, In g groups ->
       NoDup (DuplicateGroup.emails g)
       /\ forall e, In e (DuplicateGroup.emails g) ->
            CleanupService.duplicateKey e = DuplicateGroup.hash g.
Proof.
  intros Hw. cbv zeta. rewrite duplicatesOf_map. split.
  - rewrite map_map. simpl.
    apply filter_keys_NoDup, groupByKey_NoDup.
  - intros g Hg. apply in_map_iff in Hg.
    destruct Hg as ([k ms] & <- & Hin). apply filter_In in Hin.
    destruct Hin as [Hin _]. apply groupByKey_entry in Hin. simpl.
    pose proof (sort_perm _ (CleanupService.byDateDesc h) ms) as Hperm.
    split.
    + eapply Permutation_NoDup; [apply Permutation_sym, Hperm|].
      subst ms. apply NoDup_filter. now apply getEmails_NoDup.
    + intros e He. apply (Permutation_in _ Hperm) in He. subst ms.
      apply filter_In in He. now apply String.eqb_eq.
Qed.

(** X22.  On a store whose messages have distinct ids, the suggestion on
    duplicates spares one message of every group: for each group that
    [findDuplicates] reports, the first message of the group, which is
    the most recent one that the sort puts in front, is not listed in the
    suggestion, and every other message of the group is.  The number in the
    title of the suggestion is the number of ids that it lists. *)
Theorem duplicates_suggestion_spares_first (cal : Calendar)
  (account : option string) (w : World) :
  emailIdsDistinct w ->
  exists groups suggestions,
    CleanupService.findDuplicates h account w = (Ok groups, w)
    /\ CleanupService.getSuggestions h cal account w = (Ok suggestions, w)
    /\ forall s, In s suggestions ->
         CleanupSuggestion.id s = "duplicates" ->
         CleanupSuggestion.title s
         = String.append
             (JS.ofNat (List.length (CleanupSuggestion.emailIds s)))
             " duplicate emails found"
         /\ forall g, In g groups ->
              exists kept others,
                DuplicateGroup.emails g = kept :: others
                /\ ~ In (Email.id kept) (CleanupSuggestion.emailIds s)
                /\ forall e, In e others ->
                     In (Email.id e) (CleanupSuggestion.emailIds s).
Proof.
  intros Hw.
  exists (CleanupService.duplicatesOf h
            (CleanupService.groupByKey (cleanupWindow account w))).
  unfold CleanupService.getSuggestions.
  cbv beta iota zeta delta [bind gets ret CleanupService.findDuplicates
    CleanupService.findInactiveSubscriptions
    CleanupService.findLargeAttachments].
  eexists. split; [reflexivity|]. split; [reflexivity|].
  fold (cleanupWindow account w).
  set (groups := CleanupService.duplicatesOf h
                   (CleanupService.groupByKey (cleanupWindow account w))).
  destruct (duplicates_shape account w Hw) as [Hhashes Hshape].
  fold groups in Hhashes, Hshape.
  assert (Hbig : forall g, In g groups ->
            (1 < List.length (DuplicateGroup.emails g))%nat
            /\ forall e, In e (DuplicateGroup.emails g) -> In e (emails w))
    by (intros g; apply duplicates_groups).
  intros s Hs Hid.
  apply (proj1 (sort_In _ CleanupService.byPriorityOrder _ _)) in Hs.
  repeat (apply in_app_or in Hs; destruct Hs as [Hs|Hs]);
    apply In_whenever in Hs; destruct Hs as [_ ->];
    try discriminate Hid.
  cbn [CleanupSuggestion.title CleanupSuggestion.emailIds]. split.
  - rewrite count_spared; [reflexivity|].
    intros g Hg. destruct (Hbig g Hg) as [Hlen _]. lia.
  - intros g Hg. destruct (Hbig g Hg) as [Hlen Hstored].
    destruct (Hshape g Hg) as [Hnd Hkey].
    destruct (DuplicateGroup.emails g) as [|kept others] eqn:Hemails;
      [simpl in Hlen; lia|].
    exists kept, others. split; [reflexivity|]. split.
    + intros Hin. apply in_flat_map in Hin.
      destruct Hin as (g' & Hg' & Hin). apply in_map_iff in Hin.
      destruct Hin as (e & Heq & He).
      destruct (Hbig g' Hg') as [_ Hstored'].
      destruct (Hshape g' Hg') as [Hnd' Hkey'].
      assert (He' : In e (DuplicateGroup.emails g'))
        by (destruct (DuplicateGroup.emails g'); simpl in *; tauto).
      assert (e = kept).
      { apply (same_id_same_email (emails w)); auto.
        apply Hstored. now left. }
      subst e.
      assert (g' = g).
      { apply (same_hash_same_group groups); auto.
        rewrite <- (Hkey' kept He'). apply Hkey. now left. }
      subst g'. rewrite Hemails in He. simpl in He.
      inversion Hnd. contradiction.
    + intros e He. apply in_flat_map. exists g. split; [exact Hg|].
      rewrite Hemails. simpl. now apply in_map.
Qed.

End SpareFacts.

Lemma duplicates_suggestion_spares_first_witness :
  emailIdsDistinct duplicateWorld
  /\ exists groups suggestions,
       CleanupService.findDuplicates sampleHost None duplicateWorld
       = (Ok groups, duplicateWorld)
       /\ CleanupService.getSuggestions sampleHost sampleCalendar None
            duplicateWorld
          = (Ok suggestions, duplicateWorld)
       /\ map CleanupSuggestion.emailIds suggestions = [["m5"]].
Proof.
  assert (Hw : emailIdsDistinct duplicateWorld).
  { unfold emailIdsDistinct. simpl.
    repeat (constructor;
            [simpl; intros H;
             repeat (destruct H as [H|H]; [discriminate H|]); exact H|]).
    constructor. }
  split; [exact Hw|].
  destruct (duplicates_suggestion_spares_first sampleHost sampleCalendar None
              duplicateWorld Hw) as (groups & suggestions & Hg & Hs & _).
  exists groups, suggestions. split; [exact Hg|]. split; [exact Hs|].
  assert (Hrun : CleanupService.getSuggestions sampleHost sampleCalendar None
                   duplicateWorld
                 = (Ok suggestions, duplicateWorld)) by exact Hs.
  vm_compute in Hrun. injection Hrun as <-. reflexivity.
Defined.

(* ================================================================== *)
(** ** The suggestions of the rules engine *)

Lemma sameStore_refl (w : World) : sameStore w w.
Proof. unfold sameStore. repeat split; lia. Qed.

Lemma sameStore_trans (a b c : World) :
  sameStore a b -> sameStore b c -> sameStore a c.
Proof.
  unfold sameStore. intros (E1 & R1 & S1 & I1 & L1 & O1 & N1)
    (E2 & R2 & S2 & I2 & L2 & O2 & N2).
  repeat split; try congruence. lia.
Qed.

Lemma sameStore_bump (w : World) : sameStore w (bumpNonce w).
Proof. unfold sameStore. simpl. repeat split; lia. Qed.

Lemma In_set_entry (V : Type) (k k' : string) (v v' : V) (m : JS.Map V) :
  In (k', v') (JS.set k v m) -> (k', v') = (k, v) \/ In (k', v') m.
Proof.
  induction m as [|[k0 v0] m IH]; simpl.
  - intros [H|[]]. now left.
  - destruct (k =? k0); simpl.
    + intros [H|H]; [now left|right; now right].
    + intros [H|H]; [right; now left|].
      destruct (IH H) as [E|E]; [now left|right; now right].
Qed.

Lemma groupByDomain_members (all : list Email.t) (k : string)
  (ms : list Email.t) :
  In (k, ms) (RulesEngine.groupByDomain all) ->
  forall e, In e ms -> In e all.
Proof.
  unfold RulesEngine.groupByDomain.
  assert (Hgen : forall l acc,
            (forall k ms, In (k, ms) acc -> forall e, In e ms -> In e all) ->
            (forall e, In e l -> In e all) ->
            forall k ms,
            In (k, ms)
               (fold_left
                  (fun senderGroups email =>
                     match EmailClassifier.senderDomain (Email.from email)
                     with
                     | None => senderGroups
                     | Some domain =>
                         if (domain =? "") then senderGroups
                         else
                           let senderGroups :=
                             if JS.has domain senderGroups then senderGroups
                             else JS.set domain [] senderGroups in
                           match JS.get domain senderGroups with
                           | Some members =>
                               JS.set domain (members ++ [email]) senderGroups
                           | None => senderGroups
                           end
                     end)
                  l acc) ->
            forall e, In e ms -> In e all).
  { induction l as [|x l IH]; intros acc Hacc Hl; simpl; [exact Hacc|].
    apply IH; [|intros e He; apply Hl; now right].
    destruct (EmailClassifier.senderDomain (Email.from x)) as [d|];
      [|exact Hacc].
    destruct (d =? ""); [exact Hacc|]. cbv zeta.
    match goal with
    | |- context [JS.get d ?X] => set (G := X)
    end.
    assert (HG : forall k ms, In (k, ms) G ->
                   forall e, In e ms -> In e all).
    { subst G. destruct (JS.has d acc); [exact Hacc|].
      intros k0 ms0 Hin. apply In_set_entry in Hin.
      destruct Hin as [[= -> ->]|Hin]; [intros e []|now apply (Hacc k0)]. }
    destruct (JS.get d G) as [members|] eqn:Hget; [|exact HG].
    intros k0 ms0 Hin. apply In_set_entry in Hin.
    destruct Hin as [[= -> ->]|Hin]; [|now apply (HG k0)].
    intros e He. apply in_app_or in He. destruct He as [He|[<-|[]]].
    - apply get_In in Hget. now apply (HG d members).
    - apply Hl. now left. }
  intros Hin. apply (Hgen all [] (fun _ _ H => match H with end)
                       (fun _ H => H) k ms Hin).
Qed.

Lemma getK_entry (k : option string) (n : Z)
  (m : list (option string * Z)) :
  JS.getK RulesEngine.sameCategory k m = Some n ->
  exists k', In (k', n) m.
Proof.
  induction m as [|[k0 v0] m IH]; simpl; [discriminate|].
  destruct (RulesEngine.sameCategory k k0).
  - intros [= ->]. exists k0. now left.
  - intros H. destruct (IH H) as [k' Hk']. exists k'. now right.
Qed.

Lemma In_setK_entry (k k' : option string) (v v' : Z)
  (m : list (option string * Z)) :
  In (k', v') (JS.setK RulesEngine.sameCategory k v m) ->
  (k', v') = (k, v) \/ In (k', v') m.
Proof.
  induction m as [|[k0 v0] m IH]; simpl.
  - intros [H|[]]. now left.
  - destruct (RulesEngine.sameCategory k k0); simpl.
    + intros [H|H]; [now left|right; now right].
    + intros [H|H]; [right; now left|].
      destruct (IH H) as [E|E]; [now left|right; now right].
Qed.

(** No category is counted more often than there are messages. *)
Lemma countCategories_bound (l : list Email.t) (c : option string) (n : Z) :
  In (c, n) (RulesEngine.countCategories l) ->
  (0 < n <= Z.of_nat (List.length l))%Z.
Proof.
  unfold RulesEngine.countCategories. revert c n.
  induction l as [|e l IH] using rev_ind; intros c n; [intros []|].
  rewrite fold_left_app, length_app. simpl. intros Hin.
  apply In_setK_entry in Hin. destruct Hin as [[= -> ->]|Hin].
  - destruct (JS.getK _ _ _) as [n0|] eqn:Hget; [|lia].
    apply getK_entry in Hget. destruct Hget as [k' Hk'].
    apply IH in Hk'. lia.
  - apply IH in Hin. lia.
Qed.

Lemma dominantOf_bound (categories : list (option string * Z)) (bound : Z) :
  (0 <= bound)%Z ->
  (forall c n, In (c, n) categories -> (n <= bound)%Z) ->
  (0 <= snd (RulesEngine.dominantOf categories) <= bound)%Z.
Proof.
  unfold RulesEngine.dominantOf. intros Hb.
  assert (Hgen : forall st : option string * Z,
            (0 <= snd st <= bound)%Z ->
            (forall c n, In (c, n) categories -> (n <= bound)%Z) ->
            (0 <= snd (fold_left
                         (fun (st : option string * Z)
                              (entry : option string * Z) =>
                            let (dominantCategory, dominantCount) := st in
                            let (cat, count) := entry in
                            if (dominantCount <? count)%Z then (cat, count)
                            else (dominantCategory, dominantCount))
                         categories st) <= bound)%Z).
  { induction categories as [|[c n] rest IH]; intros [dc dn] Hst Hall;
      simpl; [exact Hst|].
    apply IH; [|intros c' n' Hin; apply (Hall c'); now right].
    destruct (Z.ltb_spec dn n); simpl in *; [|exact Hst].
    split; [lia|]. apply (Hall c). now left. }
  intros Hall. apply Hgen; [simpl; lia|exact Hall].
Qed.

Lemma byConfidence_sorted (l : list RuleSuggestion.t) :
  StronglySorted noLessConfident (JS.sort RulesEngine.byConfidence l).
Proof.
  apply (StronglySorted_impl _ (inOrder RulesEngine.byConfidence)).
  - intros a b. unfold inOrder, RulesEngine.byConfidence, noLessConfident.
    apply Qle_bool_iff.
  - apply (sort_sorted _ _ (fun _ => True)).
    + intros a b _ _. unfold RulesEngine.byConfidence.
      rewrite !Qle_bool_iff.
      destruct (Qlt_le_dec (RuleSuggestion.confidence a)
                           (RuleSuggestion.confidence b)) as [H|H];
        [right; now apply Qlt_le_weak|now left].
    + intros a b c _ _ _. unfold RulesEngine.byConfidence.
      rewrite !Qle_bool_iff. intros Hab Hbc. eapply Qle_trans; eassumption.
    + apply Forall_forall. trivial.
Qed.

Section RuleSuggestionFacts.
Variable h : Host.
Variable cal : Calendar.

Lemma suggestForDomain_plausible (w0 : World) (domain : string)
  (domainEmails : list Email.t) (suggestions : list RuleSuggestion.t)
  (w : World) :
  (forall e, In e domainEmails -> In e (emails w0)) ->
  Forall (plausible w0) suggestions ->
  exists out w',
    RulesEngine.suggestForDomain h cal domain domainEmails suggestions w
    = (Ok out, w')
    /\ Forall (plausible w0) out
    /\ sameStore w w'.
Proof.
  intros Hstored Hall. unfold RulesEngine.suggestForDomain.
  destruct (Nat.ltb_spec (List.length domainEmails) 5) as [Hfew|Hmany].
  { exists suggestions, w. repeat split; try exact Hall.
    apply sameStore_refl. }
  destruct (dominantOf_bound (RulesEngine.countCategories domainEmails)
              (Z.of_nat (List.length domainEmails))) as [Hlow Hhigh];
    [lia|intros c n Hin; now apply (countCategories_bound _ c)|].
  destruct (RulesEngine.dominantOf _) as [dominantCategory dominantCount].
  simpl in Hlow, Hhigh.
  assert (Hsamples : forall e, In e (firstn 3 domainEmails) ->
                               In e (emails w0)).
  { intros e He. apply Hstored.
    apply (applyLimit_incl _ (Some 3%nat) domainEmails). exact He. }
  assert (Hlen : (List.length (firstn 3 domainEmails) <= 3)%nat)
    by apply firstn_le_length.
  unfold bind at 1.
  set (first := if JS.Qltb (Double.lit 0.8) _ && negb _ then _ else _).
  assert (Hfirst : exists out1 w1,
            first w = (Ok out1, w1) /\ Forall (plausible w0) out1
            /\ sameStore w w1).
  { subst first.
    destruct (JS.Qltb (Double.lit 0.8) _) eqn:Hconf; simpl;
      [|exists suggestions, w; repeat split;
        [exact Hall|apply sameStore_refl]].
    destruct (RulesEngine.sameCategory dominantCategory
                (Some "uncategorized")) eqn:Hcat; simpl;
      [exists suggestions, w; repeat split;
       [exact Hall|apply sameStore_refl]|].
    unfold bind, RulesEngine.drawId, ret.
    eexists. eexists. split; [reflexivity|].
    split; [|apply sameStore_bump].
    apply Forall_app. split; [exact Hall|]. constructor; [|constructor].
    unfold plausible. simpl.
    split; [now apply above_four_fifths, Qltb_lt|].
    split; [apply share_le_one; [exact Hhigh|lia]|].
    split; [reflexivity|]. split; [exact Hlen|]. split; [exact Hsamples|].
    intros a [<-|[]] _. simpl. intros Heq. subst dominantCategory.
    discriminate Hcat. }
  destruct Hfirst as (out1 & w1 & -> & Hall1 & Hsame1).
  destruct (RulesEngine.sameCategory dominantCategory (Some "marketing")
            && (20 <? List.length domainEmails)%nat).
  - unfold bind, RulesEngine.drawId, gets, ret.
    eexists. eexists. split; [reflexivity|].
    split; [|eapply sameStore_trans; [exact Hsame1|apply sameStore_bump]].
    apply Forall_app. split; [exact Hall1|]. constructor; [|constructor].
    unfold plausible. simpl.
    split; [vm_compute; reflexivity|]. split; [vm_compute; discriminate|].
    split; [reflexivity|]. split; [exact Hlen|]. split; [exact Hsamples|].
    intros a [<-|[]]. discriminate.
  - exists out1, w1. split; [reflexivity|]. split; assumption.
Qed.

Lemma suggestForDomains_plausible (w0 : World)
  (senderGroups : JS.Map (list Email.t)) :
  (forall k ms, In (k, ms) senderGroups ->
                forall e, In e ms -> In e (emails w0)) ->
  forall suggestions w,
  Forall (plausible w0) suggestions ->
  exists out w',
    RulesEngine.suggestForDomains h cal senderGroups suggestions w
    = (Ok out, w')
    /\ Forall (plausible w0) out
    /\ sameStore w w'.
Proof.
  induction senderGroups as [|[domain domainEmails] rest IH];
    intros Hstored suggestions w Hall; simpl.
  - exists suggestions, w. repeat split; [exact Hall|apply sameStore_refl].
  - destruct (suggestForDomain_plausible w0 domain domainEmails suggestions w)
      as (out1 & w1 & Hrun & Hall1 & Hsame1);
      [apply (Hstored domain); now left|exact Hall|].
    unfold bind. rewrite Hrun.
    destruct (IH (fun k ms Hin => Hstored k ms (or_intror Hin)) out1 w1 Hall1)
      as (out & w' & Hrun' & Hall' & Hsame').
    exists out, w'. split; [exact Hrun'|]. split; [exact Hall'|].
    eapply sameStore_trans; eassumption.
Qed.

Lemma suggestFinancial_plausible (w0 : World) (all : list Email.t)
  (suggestions : list RuleSuggestion.t) (w : World) :
  (forall e, In e all -> In e (emails w0)) ->
  Forall (plausible w0) suggestions ->
  exists out w',
    RulesEngine.suggestFinancial h all suggestions w = (Ok out, w')
    /\ Forall (plausible w0) out
    /\ sameStore w w'.
Proof.
  intros Hstored Hall. unfold RulesEngine.suggestFinancial.
  destruct (10 <? _)%nat;
    [|exists suggestions, w; repeat split;
      [exact Hall|apply sameStore_refl]].
  destruct (0 <? _)%nat;
    [|exists suggestions, w; repeat split;
      [exact Hall|apply sameStore_refl]].
  unfold bind, RulesEngine.drawId, ret.
  eexists. eexists. split; [reflexivity|].
  split; [|apply sameStore_bump].
  apply Forall_app. split; [exact Hall|]. constructor; [|constructor].
  unfold plausible.
  cbn [RuleSuggestion.confidence RuleSuggestion.rule
       RuleSuggestion.sampleEmails SuggestedRule.enabled
       SuggestedRule.actions].
  split; [reflexivity|]. split; [discriminate|].
  split; [reflexivity|]. split; [apply firstn_le_length|]. split.
  - intros e He. apply Hstored.
    apply (applyLimit_incl _ (Some 3%nat)) in He.
    apply filter_In in He. tauto.
  - intros a [<-|[<-|[]]]; discriminate.
Qed.

(** X23.  [getSuggestions] of the rules engine returns, and writes
    nothing but the count of ids drawn.  It returns at most 10
    suggestions, ordered from the most confident to the least; each has a
    confidence above 0.8 and at most 1, a rule that is enabled, at most
    three sample messages, all of them stored, and never proposes to file
    messages as "uncategorized". *)
Theorem rule_suggestions_bounded_and_sorted (w : World) :
  exists suggestions w',
    RulesEngine.getSuggestions h cal w = (Ok suggestions, w')
    /\ sameStore w w'
    /\ (List.length suggestions <= 10)%nat
    /\ StronglySorted noLessConfident suggestions
    /\ Forall (plausible w) suggestions.
Proof.
  unfold RulesEngine.getSuggestions, bind at 1, gets.
  set (all := DatabaseService.getEmails _ w).
  assert (Hall : forall e, In e all -> In e (emails w))
    by (intros e; apply In_getEmails).
  destruct (suggestForDomains_plausible w (RulesEngine.groupByDomain all)
              (fun k ms Hin e He =>
                 Hall e (groupByDomain_members all k ms Hin e He))
              [] w (Forall_nil _))
    as (out1 & w1 & Hrun1 & Hall1 & Hsame1).
  unfold bind at 1. rewrite Hrun1.
  destruct (suggestFinancial_plausible w all out1 w1 Hall Hall1)
    as (out2 & w2 & Hrun2 & Hall2 & Hsame2).
  unfold bind at 1. rewrite Hrun2. unfold ret.
  eexists. eexists. split; [reflexivity|].
  split; [eapply sameStore_trans; eassumption|].
  split; [apply firstn_le_length|].
  split; [apply firstn_StronglySorted, byConfidence_sorted|].
  apply Forall_forall. intros s Hs.
  apply (applyLimit_incl _ (Some 10%nat)) in Hs.
  apply (proj1 (sort_In _ RulesEngine.byConfidence _ _)) in Hs.
  rewrite Forall_forall in Hall2. now apply Hall2.
Qed.

End RuleSuggestionFacts.
(* ================================================================== *)
(** ** Importing rules *)

Section ImportFacts.
Variable h : Host.







End ImportFacts.


(* ================================================================== *)
(** ** Exporting rules *)

Lemma gmailCriterion_view (conditions : list RuleCondition.t) :
  flat_map RulesEngine.gmailCriterion conditions
  = map (fun c => String.append (fst c) (String.append ":" (snd c)))
        (map (fun c => (RuleCondition.field c, RuleCondition.value c))
             (filter (fun c =>
                        existsb (String.eqb (RuleCondition.field c))
                                ["from"; "to"; "subject"])
                     conditions)).
Proof.
  induction conditions as [|c cs IH]; simpl; [reflexivity|].
  unfold RulesEngine.gmailCriterion at 1.
  destruct (String.eqb_spec (RuleCondition.field c) "from") as [E|_];
    [simpl; rewrite E; simpl; f_equal; exact IH|].
  destruct (String.eqb_spec (RuleCondition.field c) "to") as [E|_];
    [simpl; rewrite E; simpl; f_equal; exact IH|].
  destruct (String.eqb_spec (RuleCondition.field c) "subject") as [E|_];
    [simpl; rewrite E; simpl; f_equal; exact IH|].
  simpl. exact IH.
Qed.

Lemma gmailAction_view (actions : list RuleAction.t) :
  flat_map RulesEngine.gmailAction actions
  = map (fun a =>
           if (fst a =? "archive") then "shouldArchive"
           else if (fst a =? "markRead") then "shouldMarkAsRead"
           else if (fst a =? "delete") then "shouldTrash"
           else String.append "label:" (RulesEngine.showValue (snd a)))
        (map (fun a => (RuleAction.type a,
                        if (RuleAction.type a =? "label")
                        then RuleAction.value a else None))
             (filter (fun a =>
                        existsb (String.eqb (RuleAction.type a))
                                ["archive"; "markRead"; "delete"; "label"])
                     actions)).
Proof.
  induction actions as [|a rest IH]; simpl; [reflexivity|].
  unfold RulesEngine.gmailAction at 1.
  destruct (String.eqb_spec (RuleAction.type a) "archive") as [E|_];
    [simpl; rewrite E; simpl; f_equal; exact IH|].
  destruct (String.eqb_spec (RuleAction.type a) "markRead") as [E|_];
    [simpl; rewrite E; simpl; f_equal; exact IH|].
  destruct (String.eqb_spec (RuleAction.type a) "delete") as [E|_];
    [simpl; rewrite E; simpl; f_equal; exact IH|].
  destruct (String.eqb_spec (RuleAction.type a) "label") as [E|_];
    [simpl; rewrite E; simpl; f_equal; exact IH|].
  simpl. exact IH.
Qed.

Lemma gmailFilter_view (rule : RuleRow.t) :
  RulesEngine.gmailFilter rule = gmailRender (gmailView rule).
Proof.
  unfold RulesEngine.gmailFilter, gmailRender, gmailView.
  now rewrite gmailCriterion_view, gmailAction_view.
Qed.

(** X25.  [exportRulesForProvider] only reads the store and writes one
    entry per stored rule, enabled or not.  Every provider other than
    "gmail" gets the Outlook format.  The Gmail format depends on nothing
    but the name of a rule, the field and value of its conditions on
    sender, recipient and subject, and its actions that archive, mark as
    read, delete or label: two stores whose rules agree on these export to
    the same text, whatever the operators, the other conditions and
    actions, the priorities and the enabled flags are. *)
Theorem gmail_export_keeps_only_its_view (stringify : Json -> string)
  (provider : string) (w w' : World) :
  map gmailView (DatabaseService.getRules w)
  = map gmailView (DatabaseService.getRules w') ->
  RulesEngine.exportRulesForProvider stringify "gmail" w
  = (Ok (stringify (JArr (map gmailRender
                               (map gmailView (DatabaseService.getRules w))))),
     w)
  /\ fst (RulesEngine.exportRulesForProvider stringify "gmail" w')
     = fst (RulesEngine.exportRulesForProvider stringify "gmail" w)
  /\ (provider <> "gmail" ->
      RulesEngine.exportRulesForProvider stringify provider w
      = (Ok (stringify (JArr (map RulesEngine.outlookRule
                                   (DatabaseService.getRules w)))), w))
  /\ List.length (map gmailRender
                      (map gmailView (DatabaseService.getRules w)))
     = List.length (rules w).
Proof.
  intros Hview.
  assert (Hexport : forall v,
            RulesEngine.exportRulesForProvider stringify "gmail" v
            = (Ok (stringify
                     (JArr (map gmailRender
                                (map gmailView
                                     (DatabaseService.getRules v))))), v)).
  { intros v. unfold RulesEngine.exportRulesForProvider, bind, gets, ret.
    simpl. rewrite map_map. do 4 f_equal. apply map_ext.
    intros r. apply gmailFilter_view. }
  split; [apply Hexport|]. split; [|split].
  - rewrite !Hexport. simpl. now rewrite Hview.
  - intros Hother. unfold RulesEngine.exportRulesForProvider, bind, gets, ret.
    apply String.eqb_neq in Hother. now rewrite Hother.
  - rewrite !length_map. unfold DatabaseService.getRules,
      DatabaseService.orderBy.
    apply Permutation_length, sort_perm.
Qed.

Lemma gmail_export_keeps_only_its_view_witness :
  map gmailView (DatabaseService.getRules bankWorld)
  = map gmailView (DatabaseService.getRules bankWorldVariant)
  /\ rules bankWorld <> rules bankWorldVariant
  /\ fst (RulesEngine.exportRulesForProvider countEntries "gmail"
            bankWorldVariant)
     = fst (RulesEngine.exportRulesForProvider countEntries "gmail"
              bankWorld).
Proof.
  assert (Hview : map gmailView (DatabaseService.getRules bankWorld)
                  = map gmailView (DatabaseService.getRules bankWorldVariant))
    by reflexivity.
  split; [exact Hview|]. split; [discriminate|].
  exact (proj1 (proj2 (gmail_export_keeps_only_its_view countEntries "gmail"
                         bankWorld bankWorldVariant Hview))).
Defined.

(* ================================================================== *)
(** ** The rules that the classifier suggests *)

Lemma countByDomain_snoc (l : list (string * string)) (from c : string) :
  EmailClassifier.countByDomain (l ++ [(from, c)])
  = match EmailClassifier.senderDomain from with
    | None => EmailClassifier.countByDomain l
    | Some d =>
        if (d =? "") then EmailClassifier.countByDomain l
        else countIn d c (EmailClassifier.countByDomain l)
    end.
Proof.
  unfold EmailClassifier.countByDomain. rewrite fold_left_app. reflexivity.
Qed.

Lemma fromDomain_snoc (d : string) (l : list (string * string))
  (p : string * string) :
  filter (fromDomain d) (l ++ [p])
  = filter (fromDomain d) l ++ (if fromDomain d p then [p] else []).
Proof.
  rewrite filter_app. simpl. destruct (fromDomain d p); reflexivity.
Qed.

Lemma someCount_snoc (A : Type) (l : list A) (x : A) :
  someCount (l ++ [x])
  = Some (match someCount l with Some n => n | None => 0 end + 1)%Z.
Proof.
  unfold someCount. destruct l as [|y l]; [reflexivity|].
  simpl app. cbv iota. f_equal.
  change (y :: l ++ [x]) with ((y :: l) ++ [x]).
  rewrite length_app. simpl List.length. lia.
Qed.

Lemma countIn_keys (d c : string) (m : JS.Map (JS.Map Z)) :
  NoDup (map fst m) -> NoDup (map fst (countIn d c m)).
Proof.
  intros Hnd. unfold countIn.
  assert (H1 : NoDup (map fst (if JS.has d m then m else JS.set d [] m)))
    by (destruct (JS.has d m); [exact Hnd|now apply set_NoDup]).
  destruct (JS.get d _); [now apply set_NoDup|exact H1].
Qed.

Lemma countByDomain_keys (l : list (string * string)) :
  NoDup (map fst (EmailClassifier.countByDomain l))
  /\ forall d cats, In (d, cats) (EmailClassifier.countByDomain l) ->
                    d <> "".
Proof.
  induction l as [|[from c] l [IH1 IH2]] using rev_ind.
  - split; [constructor|intros d cats []].
  - rewrite countByDomain_snoc.
    destruct (EmailClassifier.senderDomain from) as [d0|]; [|now split].
    destruct (String.eqb_spec d0 "") as [E|E]; [now split|].
    split; [now apply countIn_keys|].
    intros d cats Hin. unfold countIn in Hin.
    assert (HG : forall d' cats',
              In (d', cats')
                 (if JS.has d0 (EmailClassifier.countByDomain l)
                  then EmailClassifier.countByDomain l
                  else JS.set d0 [] (EmailClassifier.countByDomain l)) ->
              d' <> "").
    { intros d' cats' H. destruct (JS.has d0 _); [now apply (IH2 d' cats')|].
      apply In_set_entry in H. destruct H as [[= -> _]|H];
        [exact E|now apply (IH2 d' cats')]. }
    destruct (JS.get d0 _); [|now apply (HG d cats)].
    apply In_set_entry in Hin. destruct Hin as [[= -> _]|Hin];
      [exact E|now apply (HG d cats)].
Qed.

(** What the first loop holds for a domain: one count per category of the
    pairs whose sender is at the domain. *)
Lemma countByDomain_get (l : list (string * string)) :
  forall d, d <> "" ->
  match JS.get d (EmailClassifier.countByDomain l) with
  | None => filter (fromDomain d) l = []
  | Some cats =>
      NoDup (map fst cats)
      /\ forall c, JS.get c cats
                   = someCount (withKey snd c (filter (fromDomain d) l))
  end.
Proof.
  induction l as [|[from c0] l IH] using rev_ind; intros d Hd;
    [reflexivity|].
  rewrite countByDomain_snoc, fromDomain_snoc.
  assert (Hp : fromDomain d (from, c0)
               = match EmailClassifier.senderDomain from with
                 | Some x => (x =? d)
                 | None => false
                 end) by reflexivity.
  rewrite Hp. clear Hp.
  destruct (EmailClassifier.senderDomain from) as [d0|];
    [|rewrite app_nil_r; now apply IH].
  destruct (String.eqb_spec d0 "") as [E0|E0].
  { subst d0. assert (Hf : ("" =? d) = false)
      by (apply String.eqb_neq; congruence).
    rewrite Hf, app_nil_r. now apply IH. }
  unfold countIn.
  set (M := EmailClassifier.countByDomain l) in *.
  set (cats0 := match JS.get d0 M with Some x => x | None => [] end).
  assert (Hcats0 : JS.get d0 (if JS.has d0 M then M else JS.set d0 [] M)
                   = Some cats0).
  { subst cats0. unfold JS.has.
    destruct (JS.get d0 M) eqn:Hget; [exact Hget|].
    rewrite get_set. now rewrite String.eqb_refl. }
  assert (Hspec0 : NoDup (map fst cats0)
                   /\ forall c, JS.get c cats0
                                = someCount (withKey snd c
                                               (filter (fromDomain d0) l))).
  { subst cats0. specialize (IH d0 E0).
    destruct (JS.get d0 M); [exact IH|].
    rewrite IH. split; [constructor|reflexivity]. }
  rewrite Hcats0, get_set.
  destruct (String.eqb_spec d0 d) as [->|Hne].
  - rewrite String.eqb_refl. destruct Hspec0 as [Hnd0 Hget0].
    split; [now apply set_NoDup|].
    intros c. rewrite get_set.
    unfold withKey. rewrite filter_app. simpl. fold (withKey snd c
      (filter (fromDomain d) l)).
    destruct (String.eqb_spec c0 c) as [->|Hc].
    + rewrite String.eqb_refl. rewrite Hget0.
      now rewrite someCount_snoc.
    + assert (Hc' : (c =? c0) = false)
        by (apply String.eqb_neq; congruence).
      rewrite Hc', app_nil_r. apply Hget0.
  - assert (Hne' : (d =? d0) = false)
      by (apply String.eqb_neq; congruence).
    rewrite Hne', app_nil_r.
    assert (Hsame : JS.get d (if JS.has d0 M then M else JS.set d0 [] M)
                    = JS.get d M).
    { destruct (JS.has d0 M); [reflexivity|].
      rewrite get_set. now rewrite Hne'. }
    rewrite Hsame. now apply IH.
Qed.

Lemma topOf_spec (cats : JS.Map Z) :
  (forall c n, In (c, n) cats -> (0 < n)%Z) ->
  let '(topCategory, topCount, totalCount) := EmailClassifier.topOf cats in
  totalCount = fold_right Z.add 0%Z (map snd cats)
  /\ ((topCategory, topCount) = ("", 0%Z) \/ In (topCategory, topCount) cats)
  /\ (0 <= topCount <= totalCount)%Z.
Proof.
  unfold EmailClassifier.topOf. intros Hpos.
  assert (Hgen : forall (st : string * Z * Z),
            (0 <= snd (fst st) <= snd st)%Z ->
            (forall c n, In (c, n) cats -> (0 < n)%Z) ->
            let '(topCategory, topCount, totalCount) :=
              fold_left
                (fun (st : string * Z * Z) (entry : string * Z) =>
                   let '(topCategory, topCount, totalCount) := st in
                   let (category, count) := entry in
                   let totalCount := (totalCount + count)%Z in
                   if (topCount <? count)%Z
                   then (category, count, totalCount)
                   else (topCategory, topCount, totalCount))
                cats st in
            totalCount = (snd st + fold_right Z.add 0 (map snd cats))%Z
            /\ ((topCategory, topCount) = fst st
                \/ In (topCategory, topCount) cats)
            /\ (0 <= topCount <= totalCount)%Z).
  { clear Hpos. induction cats as [|[c n] rest IH];
      intros [[c0 n0] t0] Hst Hall; simpl in *.
    - repeat split; try lia. now left.
    - assert (Hn : (0 < n)%Z) by (apply (Hall c); now left).
      assert (Hrest : forall c' n', In (c', n') rest -> (0 < n')%Z)
        by (intros c' n' Hin; apply (Hall c'); now right).
      destruct (Z.ltb_spec n0 n).
      + specialize (IH (c, n, (t0 + n)%Z)). simpl in IH.
        destruct (fold_left _ rest (c, n, (t0 + n)%Z)) as [[tc tn] tt].
        destruct IH as (Ht & Hin & Hb); [lia|exact Hrest|].
        split; [lia|]. split; [|exact Hb].
        right. destruct Hin as [[= -> ->]|Hin]; [now left|now right].
      + specialize (IH (c0, n0, (t0 + n)%Z)). simpl in IH.
        destruct (fold_left _ rest (c0, n0, (t0 + n)%Z)) as [[tc tn] tt].
        destruct IH as (Ht & Hin & Hb); [lia|exact Hrest|].
        split; [lia|]. split; [|exact Hb].
        destruct Hin as [Hin|Hin]; [now left|right; now right]. }
  specialize (Hgen ("", 0%Z, 0%Z)). simpl in Hgen.
  destruct (fold_left _ cats ("", 0%Z, 0%Z)) as [[tc tn] tt].
  destruct Hgen as (Ht & Hin & Hb); [lia|exact Hpos|].
  split; [lia|]. split; assumption.
Qed.

Lemma sum_of_counts (A : Type) (D : list A) (key : A -> string)
  (cats : JS.Map Z) :
  (forall c n, In (c, n) cats ->
               n = Z.of_nat (List.length (withKey key c D))) ->
  fold_right Z.add 0%Z (map snd cats)
  = Z.of_nat (list_sum (map (fun c => List.length (withKey key c D))
                            (map fst cats))).
Proof.
  induction cats as [|[c n] rest IH]; intros Hall; simpl; [reflexivity|].
  rewrite IH by (intros c' n' Hin; apply Hall; now right).
  rewrite (Hall c n) by now left. lia.
Qed.

Lemma someCount_Some (A : Type) (l : list A) (n : Z) :
  someCount l = Some n -> n = Z.of_nat (List.length l) /\ (0 < n)%Z.
Proof.
  unfold someCount. destruct l; [discriminate|].
  intros [= <-]. split; [reflexivity|]. simpl List.length. lia.
Qed.

Lemma suggested_from_entry (entries : JS.Map (JS.Map Z)) :
  forall acc s,
  In s (fold_left
          (fun suggestions (entry : string * JS.Map Z) =>
             let (domain, categories) := entry in
             let '(topCategory, topCount, totalCount) :=
               EmailClassifier.topOf categories in
             let confidence :=
               Double.div (inject_Z topCount) (inject_Z totalCount) in
             if JS.Qltb (Double.lit 0.8) confidence && (3 <=? topCount)%Z
             then suggestions
                  ++ [ {| EmailClassifier.pattern := String.append "@" domain;
                          EmailClassifier.category := topCategory;
                          EmailClassifier.confidence := confidence |} ]
             else suggestions)
          entries acc) ->
  In s acc
  \/ exists domain categories,
       In (domain, categories) entries
       /\ EmailClassifier.pattern s = String.append "@" domain
       /\ EmailClassifier.category s
          = fst (fst (EmailClassifier.topOf categories))
       /\ EmailClassifier.confidence s
          = Double.div
              (inject_Z (snd (fst (EmailClassifier.topOf categories))))
              (inject_Z (snd (EmailClassifier.topOf categories)))
       /\ 0.8 < EmailClassifier.confidence s
       /\ (3 <= snd (fst (EmailClassifier.topOf categories)))%Z.
Proof.
  induction entries as [|[d cats] rest IH]; intros acc s; simpl;
    [now left|].
  intros Hin. apply IH in Hin.
  destruct Hin as [Hin|(d' & cats' & Hd' & Hrest)];
    [|right; exists d', cats'; tauto].
  destruct (EmailClassifier.topOf cats) as [[tc tn] tt] eqn:Htop.
  destruct (JS.Qltb (Double.lit 0.8)
                     (Double.div (inject_Z tn) (inject_Z tt))
            && (3 <=? tn)%Z)
    eqn:Htest; [|now left].
  apply in_app_or in Hin. destruct Hin as [Hin|[<-|[]]]; [now left|].
  right. exists d, cats. rewrite Htop. simpl.
  apply andb_true_iff in Htest. destruct Htest as [Hconf Hcount].
  split; [now left|]. repeat split.
  - now apply above_four_fifths, Qltb_lt.
  - now apply Z.leb_le.
Qed.

Lemma suggested_patterns (entries : JS.Map (JS.Map Z)) :
  NoDup (map fst entries) ->
  forall acc,
  NoDup (map EmailClassifier.pattern acc) ->
  (forall a d, In a acc -> In d (map fst entries) ->
               EmailClassifier.pattern a <> String.append "@" d) ->
  NoDup (map EmailClassifier.pattern
           (fold_left
              (fun suggestions (entry : string * JS.Map Z) =>
                 let (domain, categories) := entry in
                 let '(topCategory, topCount, totalCount) :=
                   EmailClassifier.topOf categories in
                 let confidence :=
                   Double.div (inject_Z topCount) (inject_Z totalCount) in
                 if JS.Qltb (Double.lit 0.8) confidence
                    && (3 <=? topCount)%Z
                 then suggestions
                      ++ [ {| EmailClassifier.pattern :=
                                String.append "@" domain;
                              EmailClassifier.category := topCategory;
                              EmailClassifier.confidence := confidence |} ]
                 else suggestions)
              entries acc)).
Proof.
  induction entries as [|[d cats] rest IH]; intros Hnd acc Hacc Hout;
    simpl; [exact Hacc|].
  inversion Hnd as [|? ? Hfresh Hrest]; subst.
  assert (Hout' : forall a d', In a acc -> In d' (map fst rest) ->
                    EmailClassifier.pattern a <> String.append "@" d')
    by (intros a d' Ha Hd'; apply Hout; [exact Ha|now right]).
  destruct (EmailClassifier.topOf cats) as [[tc tn] tt].
  destruct (JS.Qltb (Double.lit 0.8)
                     (Double.div (inject_Z tn) (inject_Z tt))
            && (3 <=? tn)%Z);
    [|now apply IH].
  apply IH; [exact Hrest| |].
  - rewrite map_app. simpl. apply NoDup_app; [exact Hacc| |].
    + repeat constructor. intros [].
    + intros x Hx [<-|[]]. apply in_map_iff in Hx.
      destruct Hx as (a & Ha & Hin). apply (Hout a d Hin); [now left|].
      exact Ha.
  - intros a d' Ha Hd'. apply in_app_or in Ha.
    destruct Ha as [Ha|[<-|[]]]; [now apply Hout'|].
    simpl. intros [= Heq]. apply Hfresh. now rewrite Heq.
Qed.

(** X26.  [getSuggestedRules] suggests at most one rule per sender domain,
    and every rule it suggests is backed by the input: the pattern is [@]
    followed by a sender domain that is not empty, the category is carried
    by at least 3 of the pairs whose sender is at that domain, the
    confidence is the share of these among all the pairs of the domain, as
    the division of the language gives it, and that share is above 0.8 and
    at most 1. *)
Theorem getSuggestedRules_backed (labelled : list (string * string)) :
  let suggestions := EmailClassifier.getSuggestedRules labelled in
  NoDup (map EmailClassifier.pattern suggestions)
  /\ forall s, In s suggestions ->
       exists domain,
         domain <> ""
         /\ EmailClassifier.pattern s = String.append "@" domain
         /\ let fromIt := filter (fromDomain domain) labelled in
            let backing := withKey snd (EmailClassifier.category s) fromIt in
            (3 <= List.length backing)%nat
            /\ EmailClassifier.confidence s
               = Double.div (inject_Z (Z.of_nat (List.length backing)))
                            (inject_Z (Z.of_nat (List.length fromIt)))
            /\ 0.8 < EmailClassifier.confidence s
            /\ EmailClassifier.confidence s <= 1.
Proof.
  cbv zeta. unfold EmailClassifier.getSuggestedRules.
  destruct (countByDomain_keys labelled) as [Hkeys Hnonempty].
  split.
  - apply suggested_patterns; [exact Hkeys|constructor|intros a d []].
  - intros s Hs. apply suggested_from_entry in Hs.
    destruct Hs as [[]|(d & cats & Hin & Hpat & Hcat & Hconf & Hhigh & Hmin)].
    pose proof (Hnonempty d cats Hin) as Hd.
    exists d. split; [exact Hd|]. split; [exact Hpat|].
    pose proof (countByDomain_get labelled d Hd) as Hspec.
    rewrite (In_get _ d cats _ Hkeys Hin) in Hspec.
    destruct Hspec as [Hnd Hget].
    assert (Hentry : forall c n, In (c, n) cats ->
              n = Z.of_nat (List.length
                              (withKey snd c
                                 (filter (fromDomain d) labelled)))
              /\ (0 < n)%Z).
    { intros c n Hc. apply (In_get _ c n cats Hnd) in Hc.
      rewrite Hget in Hc. now apply someCount_Some. }
    pose proof (topOf_spec cats (fun c n H => proj2 (Hentry c n H))) as Htop.
    destruct (EmailClassifier.topOf cats) as [[tc tn] tt].
    simpl in Hcat, Hconf, Hmin. destruct Htop as (Htotal & Hin' & Hb).
    destruct Hin' as [[= _ ->]|Hin']; [lia|].
    destruct (Hentry tc tn Hin') as [Htn _].
    assert (Htt : tt = Z.of_nat (List.length
                                   (filter (fromDomain d) labelled))).
    { rewrite Htotal.
      rewrite (sum_of_counts _ (filter (fromDomain d) labelled) snd cats
                 (fun c n H => proj1 (Hentry c n H))).
      f_equal. apply count_per_key; [exact Hnd|].
      intros p Hp.
      destruct (JS.get (snd p) cats) as [n|] eqn:Hn.
      - apply get_In in Hn. apply in_map_iff. now exists (snd p, n).
      - rewrite Hget in Hn.
        assert (Hmem : In p (withKey snd (snd p)
                               (filter (fromDomain d) labelled)))
          by (apply filter_In; split; [exact Hp|apply String.eqb_refl]).
        destruct (withKey snd (snd p) _); [contradiction|discriminate]. }
    rewrite Hcat. split; [lia|]. split; [now rewrite Hconf, Htn, Htt|].
    split; [exact Hhigh|].
    rewrite Hconf. apply share_le_one; lia.
Qed.

(* ================================================================== *)
(** ** Archiving from the cleanup page *)

Lemma getEmails_reads_emails (o : DatabaseService.EmailQuery)
  (w w' : World) :
  emails w' = emails w ->
  DatabaseService.getEmails o w' = DatabaseService.getEmails o w.
Proof. intros He. unfold DatabaseService.getEmails. now rewrite He. Qed.

Section ArchiveFacts.
Variable h : Host.

Lemma archiveStored_effect (emailIds : list string) :
  (forall id, In id emailIds -> remoteResolves h (RemoteArchive id) = true) ->
  forall w,
  exists w',
    CleanupService.forEachStored emailIds
      (EmailProviderManager.archiveEmail h) w = (Ok tt, w')
    /\ emails w' = emails w /\ rules w' = rules w
    /\ isoNow w' = isoNow w /\ opened w' = opened w.
Proof.
  unfold CleanupService.forEachStored.
  induction emailIds as [|id ids IH]; intros Hok w; simpl.
  - exists w. now repeat split.
  - assert (Hrest : forall x, In x ids ->
                      remoteResolves h (RemoteArchive x) = true)
      by (intros x Hx; apply Hok; now right).
    unfold bind at 1. unfold bind at 1. unfold gets at 1.
    destruct (DatabaseService.getEmail id w) as [email|].
    + unfold EmailProviderManager.archiveEmail, EmailProviderManager.remote.
      rewrite (Hok id) by now left.
      destruct (hasProvider h (Email.accountId email));
        match goal with
        | |- context [forOf ids ?body ?w1] =>
            destruct (IH Hrest w1) as (w' & Hrun & He & Hr & Hi & Ho)
        end;
        exists w'; (split; [exact Hrun|]); now repeat split.
    + unfold ret. apply (IH Hrest).
Qed.

Lemma cleanup_suggestions_read (cal : Calendar) (account : option string)
  (w w' : World) :
  emails w' = emails w -> isoNow w' = isoNow w ->
  fst (CleanupService.getSuggestions h cal account w')
  = fst (CleanupService.getSuggestions h cal account w).
Proof.
  intros He Hi. unfold CleanupService.getSuggestions.
  cbv beta iota zeta delta [bind gets ret CleanupService.findDuplicates
    CleanupService.findInactiveSubscriptions
    CleanupService.findLargeAttachments CleanupService.marketingOf fst].
  repeat rewrite (getEmails_reads_emails _ w w' He).
  rewrite Hi. reflexivity.
Qed.

(** X27.  The [archive] action of the cleanup page, when the provider
    resolves every call, changes nothing in the local store: the messages
    and the rules are as before, and [getSuggestions] afterwards returns
    what it returned before, the suggestion that was acted on
    included. *)
Theorem archive_leaves_store_and_suggestions (cal : Calendar)
  (account : option string) (emailIds : list string) (w : World) :
  (forall id, In id emailIds -> remoteResolves h (RemoteArchive id) = true) ->
  exists w',
    CleanupService.executeAction h (archiveRequest emailIds) w
    = (Ok {| CleanupAction.success := true;
             CleanupAction.message :=
               String.concat ""
                 ["Archived "; JS.ofNat (List.length emailIds); " emails"] |},
       w')
    /\ emails w' = emails w
    /\ rules w' = rules w
    /\ fst (CleanupService.getSuggestions h cal account w')
       = fst (CleanupService.getSuggestions h cal account w).
Proof.
  intros Hok.
  destruct (archiveStored_effect emailIds Hok w)
    as (w' & Hrun & He & Hr & Hi & _).
  exists w'. split; [|split; [exact He|split; [exact Hr|]]].
  - unfold CleanupService.executeAction, archiveRequest. simpl.
    unfold bind at 1. rewrite Hrun. reflexivity.
  - now apply cleanup_suggestions_read.
Qed.

End ArchiveFacts.

Lemma archive_leaves_store_and_suggestions_witness :
  (forall id, In id ["m5"] ->
              remoteResolves sampleHost (RemoteArchive id) = true)
  /\ exists w',
       CleanupService.executeAction sampleHost (archiveRequest ["m5"])
         duplicateWorld
       = (Ok {| CleanupAction.success := true;
                CleanupAction.message := "Archived 1 emails" |}, w')
       /\ emails w' = emails duplicateWorld.
Proof.
  assert (Hok : forall id, In id ["m5"] ->
                  remoteResolves sampleHost (RemoteArchive id) = true)
    by reflexivity.
  split; [exact Hok|].
  destruct (archive_leaves_store_and_suggestions sampleHost sampleCalendar
              None ["m5"] duplicateWorld Hok) as (w' & Hrun & He & _).
  exists w'. split; [exact Hrun | exact He].
Defined.

(* ================================================================== *)
(** ** Removing the duplicates *)

Lemma filter_keeps_ids_distinct (p : Email.t -> bool) (es : list Email.t) :
  NoDup (map Email.id es) -> NoDup (map Email.id (filter p es)).
Proof.
  induction es as [|e es IH]; simpl; intros Hnd; [constructor|].
  inversion Hnd as [|? ? Hfresh Hrest]; subst.
  destruct (p e); simpl; [|now apply IH].
  constructor; [|now apply IH].
  intros Hin. apply Hfresh. apply in_map_iff in Hin.
  destruct Hin as (x & Hx & Hin). apply filter_In in Hin.
  apply in_map_iff. exists x. tauto.
Qed.

Lemma nothing_passes (A : Type) (p : A -> bool) (l : list A) :
  (forall x, In x l -> p x = false) -> filter p l = [].
Proof.
  induction l as [|x l IH]; simpl; intros Hall; [reflexivity|].
  rewrite (Hall x) by now left. apply IH. intros y Hy. apply Hall.
  now right.
Qed.

Lemma window_members (account : option string) (w : World) (e : Email.t) :
  (List.length (emails w) <= 5000)%nat ->
  In e (cleanupWindow account w)
  <-> In e (emails w)
      /\ DatabaseService.selected
           {| DatabaseService.accountId := account;
              DatabaseService.category := None;
              DatabaseService.isRead := None;
              DatabaseService.limit := Some 5000%nat |} e = true.
Proof.
  intros Hsize. unfold cleanupWindow, DatabaseService.getEmails,
    DatabaseService.orderBy, DatabaseService.applyLimit.
  cbn [DatabaseService.limit].
  rewrite firstn_all2.
  - rewrite sort_In, filter_In. reflexivity.
  - rewrite (Permutation_length (sort_perm _ _ _)).
    eapply Nat.le_trans; [apply filter_length_le|exact Hsize].
Qed.

Section RemoveDuplicatesFacts.
Variable h : Host.

(** X28.  Acting on the suggestion about duplicates removes them all.  On
    a store of at most 5000 messages with distinct ids, when the provider
    resolves every deletion: the [delete] action on the ids that the
    suggestion lists succeeds, and [findDuplicates] on the store that it
    leaves reports no group. *)
Theorem removing_duplicates_leaves_none (cal : Calendar)
  (account : option string) (w : World)
  (suggestions : list CleanupSuggestion.t) (s : CleanupSuggestion.t) :
  emailIdsDistinct w ->
  (List.length (emails w) <= 5000)%nat ->
  (forall id, remoteResolves h (RemoteDelete id) = true) ->
  CleanupService.getSuggestions h cal account w = (Ok suggestions, w) ->
  In s suggestions ->
  CleanupSuggestion.id s = "duplicates" ->
  exists result w',
    CleanupService.executeAction h
      (deleteRequest (CleanupSuggestion.emailIds s)) w
    = (Ok result, w')
    /\ CleanupAction.success result = true
    /\ CleanupService.findDuplicates h account w' = (Ok [], w').
Proof.
  intros Hw Hsize Hok Hrun Hs Hid.
  unfold CleanupService.getSuggestions in Hrun.
  cbv beta iota zeta delta [bind gets ret CleanupService.findDuplicates
    CleanupService.findInactiveSubscriptions
    CleanupService.findLargeAttachments] in Hrun.
  fold (cleanupWindow account w) in Hrun.
  injection Hrun as Hrun. subst suggestions.
  set (window := cleanupWindow account w) in *.
  set (groups := CleanupService.duplicatesOf h
                   (CleanupService.groupByKey window)) in *.
  apply (proj1 (sort_In _ CleanupService.byPriorityOrder _ _)) in Hs.
  repeat (apply in_app_or in Hs; destruct Hs as [Hs|Hs]);
    apply In_whenever in Hs; destruct Hs as [_ ->];
    try discriminate Hid.
  cbn [CleanupSuggestion.emailIds]. clear Hid.
  match goal with
  | |- context [deleteRequest ?listed] => remember listed as ids eqn:Hids
  end.
  destruct (deleteStored_effect h ids (fun id _ => Hok id) w)
    as (w' & Hdel & Hemails & _).
  eexists. exists w'. split; [|split].
  - unfold CleanupService.executeAction, deleteRequest. simpl.
    unfold bind at 1. rewrite Hdel. reflexivity.
  - reflexivity.
  - unfold CleanupService.findDuplicates, bind, gets, ret.
    fold (cleanupWindow account w').
    set (window' := cleanupWindow account w').
    assert (Hsize' : (List.length (emails w') <= 5000)%nat).
    { rewrite Hemails.
      eapply Nat.le_trans; [apply filter_length_le|exact Hsize]. }
    assert (Hw' : emailIdsDistinct w').
    { unfold emailIdsDistinct. rewrite Hemails.
      now apply filter_keeps_ids_distinct. }
    assert (Hnd' : NoDup window') by now apply getEmails_NoDup.
    assert (Hsub : forall e, In e window' ->
                     In e window /\ notListed ids e = true).
    { intros e He. apply (window_members account w' e Hsize') in He.
      destruct He as [He Hsel]. rewrite Hemails in He.
      apply filter_In in He. destruct He as [He Hkeep].
      split; [|exact Hkeep].
      apply (window_members account w e Hsize). now split. }
    assert (Hone : forall k, (List.length (membersOf k window') <= 1)%nat).
    { intros k.
      assert (HndM : NoDup (membersOf k window'))
        by (apply NoDup_filter; exact Hnd').
      destruct (Nat.ltb_spec 1 (List.length (membersOf k window)))
        as [Hbig|Hsmall].
      - assert (Hentry : In (k, membersOf k window)
                            (CleanupService.groupByKey window)).
        { apply get_In. rewrite groupByKey_get.
          destruct (membersOf k window); [simpl in Hbig; lia|reflexivity]. }
        assert (Hg : In (groupOf h (k, membersOf k window)) groups).
        { subst groups. rewrite duplicatesOf_map. apply in_map.
          apply filter_In. split; [exact Hentry|].
          now apply Nat.ltb_lt. }
        pose proof (sort_perm _ (CleanupService.byDateDesc h)
                      (membersOf k window)) as Hperm.
        destruct (JS.sort (CleanupService.byDateDesc h)
                    (membersOf k window)) as [|kept others] eqn:Hsorted.
        { apply Permutation_length in Hperm. simpl in Hperm. lia. }
        apply (NoDup_incl_length (l' := [kept])) in HndM; [exact HndM|].
        intros e He. apply filter_In in He. destruct He as [He Hkey].
        destruct (Hsub e He) as [Hin Hkeep].
        assert (Hmem : In e (kept :: others)).
        { apply (Permutation_in _ (Permutation_sym Hperm)).
          apply filter_In. now split. }
        destruct Hmem as [<-|Hother]; [now left|].
        exfalso. unfold notListed in Hkeep.
        apply negb_true_iff in Hkeep.
        assert (Hlisted : existsb (String.eqb (Email.id e)) ids = true).
        { apply existsb_exists. exists (Email.id e).
          split; [|apply String.eqb_refl].
          subst ids. apply in_flat_map.
          exists (groupOf h (k, membersOf k window)).
          split; [exact Hg|]. unfold groupOf. simpl. rewrite Hsorted.
          simpl. now apply in_map. }
        congruence.
      - eapply Nat.le_trans; [|exact Hsmall].
        apply NoDup_incl_length; [exact HndM|].
        intros e He. apply filter_In in He. destruct He as [He Hkey].
        apply filter_In. split; [|exact Hkey]. now apply Hsub. }
    rewrite duplicatesOf_map.
    rewrite nothing_passes; [reflexivity|].
    intros [k ms] Hin. apply groupByKey_entry in Hin. subst ms. simpl.
    apply Nat.ltb_ge. apply Hone.
Qed.

End RemoveDuplicatesFacts.

Lemma removing_duplicates_leaves_none_witness :
  exists suggestions s result w',
    CleanupService.getSuggestions sampleHost sampleCalendar None
      duplicateWorld = (Ok suggestions, duplicateWorld)
    /\ In s suggestions
    /\ CleanupSuggestion.emailIds s = ["m5"]
    /\ CleanupService.executeAction sampleHost
         (deleteRequest (CleanupSuggestion.emailIds s)) duplicateWorld
       = (Ok result, w')
    /\ CleanupService.findDuplicates sampleHost None w' = (Ok [], w').
Proof.
  destruct (CleanupService.getSuggestions sampleHost sampleCalendar None
              duplicateWorld) as [[suggestions|message] w0] eqn:Hrun;
    [|vm_compute in Hrun; discriminate Hrun].
  assert (Hw0 : w0 = duplicateWorld)
    by (vm_compute in Hrun; now injection Hrun as _ <-).
  subst w0.
  destruct suggestions as [|s rest];
    [vm_compute in Hrun; discriminate Hrun|].
  assert (Hids : CleanupSuggestion.id s = "duplicates"
                 /\ CleanupSuggestion.emailIds s = ["m5"])
    by (vm_compute in Hrun; injection Hrun as <- _; split; reflexivity).
  destruct Hids as [Hid Hids].
  assert (Hw : emailIdsDistinct duplicateWorld).
  { unfold emailIdsDistinct. simpl.
    repeat (constructor;
            [simpl; intros H;
             repeat (destruct H as [H|H]; [discriminate H|]); exact H|]).
    constructor. }
  assert (Hsize : (List.length (emails duplicateWorld) <= 5000)%nat)
    by (simpl; lia).
  destruct (removing_duplicates_leaves_none sampleHost sampleCalendar None
              duplicateWorld (s :: rest) s Hw Hsize (fun _ => eq_refl)
              Hrun (or_introl eq_refl) Hid)
    as (result & w' & Hexec & _ & Hnone).
  exists (s :: rest), s, result, w'.
  split; [reflexivity|]. split; [now left|]. split; [exact Hids|].
  split; [exact Hexec | exact Hnone].
Defined.

(* ================================================================== *)
(** ** The services on the sample stores *)

Example getSuggestedRules_on_three_newsletters :
  EmailClassifier.getSuggestedRules
    [ ("news@Shop.example", "marketing"); ("deals@shop.example", "marketing");
      ("news@shop.example", "marketing"); ("me", "social") ]
  = [ {| EmailClassifier.pattern := "@shop.example";
         EmailClassifier.category := "marketing";
         EmailClassifier.confidence := 1 |} ].
Proof. vm_compute. reflexivity. Qed.

(** Five of six is suggested, with the quotient of the language as its
    confidence (0.8333333333333334); four of five is not, the quotient
    being the number 0.8 itself. *)
Example getSuggestedRules_at_the_threshold :
  map EmailClassifier.confidence
    (EmailClassifier.getSuggestedRules
       [ ("a@shop.example", "marketing"); ("b@shop.example", "marketing");
         ("c@shop.example", "marketing"); ("d@shop.example", "marketing");
         ("e@shop.example", "marketing"); ("f@shop.example", "social") ])
  = [ 7505999378950827 # 9007199254740992 ]
  /\ EmailClassifier.getSuggestedRules
       [ ("a@shop.example", "marketing"); ("b@shop.example", "marketing");
         ("c@shop.example", "marketing"); ("d@shop.example", "marketing");
         ("e@shop.example", "social") ]
     = [].
Proof. vm_compute. split; reflexivity. Qed.

Example findInactiveSubscriptions_on_the_newsletters :
  fst (CleanupService.findInactiveSubscriptions sampleHost lateCalendar None
         linksWorld)
  = Ok [newsletterEmail]
  /\ fst (CleanupService.findInactiveSubscriptions sampleHost sampleCalendar
            None linksWorld)
     = Ok [].
Proof. split; reflexivity. Qed.

Example getSubscriptionAnalysis_on_the_newsletters :
  fst (CleanupService.getSubscriptionAnalysis None linksWorld)
  = Ok {| CleanupService.total := 1; CleanupService.active := 0;
          CleanupService.inactive := 1;
          CleanupService.subscriptions :=
            [ {| Subscription.domain := "shop.example";
                 Subscription.emailCount := 2;
                 Subscription.lastEmail := "2024-03-02T10:00:00.000Z";
                 Subscription.readRate := 0;
                 Subscription.hasUnsubscribe := true |} ] |}.
Proof. reflexivity. Qed.

(** 23 read messages of 40: the quotient of the language times 100 is
    57.49999999999999, which [Math.round] takes to 57. *)
Example percentRead_of_rounded_quotient :
  CleanupService.percentRead 23 40 = 57%Z
  /\ CleanupService.percentRead 1 2 = 50%Z
  /\ CleanupService.percentRead 1 3 = 33%Z.
Proof. vm_compute. repeat split; reflexivity. Qed.

Example formatSize_rounds_to_a_tenth :
  map CleanupService.formatSize [1023; 1280; 5242880; 1610612736]%Z
  = ["1023 B"; "1.3 KB"; "5.0 MB"; "1.5 GB"].
Proof. reflexivity. Qed.
